(** * ITCH parser: order-book reconstruction and message decoders

    A shallow embedding of
      - [src/build_level2_simple.py]  (the order store and the level-2
        depth aggregation that [build_level2_simple] performs row by row,
        and the writer of its output),
      - [src/message_type_decoders.py] (the field decoders and the
        [decode_message] dispatcher),
      - [src/simple_parser.py] (the reading loop of [parse_itch] and the
        record it builds for each message),
    together with the properties of the design document that concern them
    and further properties read off the code.

    Python values are modelled as the code uses them:
      - the [str] cells of a CSV row are [string]s, a character being a code
        point below 256; the [str]s the decoders produce are lists of code
        points, since decoding can produce U+FFFD;
      - [bytes] is a list of [Byte.byte];
      - [int] is [Z] (unbounded, as in Python);
      - [float] is an IEEE-754 binary64 value, [spec_float] with precision 53
        and maximal exponent 1024, so that rounding is the hardware's;
      - [dict] is an insertion-ordered association list;
      - an expression that can raise returns a [result]; statements run in
        a state that keeps what was assigned before an exception, and a
        [try]/[except] catches exactly the listed exceptions. *)

From Stdlib Require Import ZArith List Bool Ascii String Lia Permutation.
From Stdlib Require Import Sorting.Sorted.
From Stdlib Require Import Floats.SpecFloat.
From Stdlib Require Import DecimalString.
Import ListNotations.

Local Open Scope string_scope.
Local Open Scope Z_scope.

(* ================================================================= *)
(** ** Python exceptions and fallible expressions *)

Module Py.

Inductive exn : Type :=
| ValueError
| TypeError
| KeyError
| AttributeError
| IndexError
| StructError.

Inductive result (A : Type) : Type :=
| Ok (a : A)
| Raise (e : exn).

Arguments Ok {A} a.
Arguments Raise {A} e.

Definition bind {A B : Type} (r : result A) (k : A -> result B) : result B :=
  match r with
  | Ok a => k a
  | Raise e => Raise e
  end.

Definition exn_eqb (a b : exn) : bool :=
  match a, b with
  | ValueError, ValueError | TypeError, TypeError | KeyError, KeyError
  | AttributeError, AttributeError | IndexError, IndexError
  | StructError, StructError => true
  | _, _ => false
  end.

(** [except (e1, ..., en):] catches exactly the listed exceptions. *)
Definition caught (handled : list exn) (e : exn) : bool :=
  existsb (exn_eqb e) handled.

(* ----------------------------------------------------------------- *)
(** *** Strings *)

(** [str.isspace] on a code point below 256. *)
Definition is_space (c : ascii) : bool :=
  let n := N_of_ascii c in
  (((9 <=? n) && (n <=? 13)) || ((28 <=? n) && (n <=? 32))
   || (n =? 133) || (n =? 160))%N.

Fixpoint lstrip (l : list ascii) : list ascii :=
  match l with
  | c :: l' => if is_space c then lstrip l' else l
  | [] => []
  end.

Definition rstrip (l : list ascii) : list ascii := rev (lstrip (rev l)).

(** [s.strip()] *)
Definition strip (s : string) : string :=
  string_of_list_ascii (rstrip (lstrip (list_ascii_of_string s))).

(** Truth value of a [str]: the empty string is false. *)
Definition str_truthy (s : string) : bool :=
  match s with
  | EmptyString => false
  | _ => true
  end.

(** Truth value of an object that is [None] or a [str]. *)
Definition truthy (v : option string) : bool :=
  match v with
  | Some s => str_truthy s
  | None => false
  end.

Definition digit_val (c : ascii) : option Z :=
  let n := N_of_ascii c in
  if ((48 <=? n) && (n <=? 57))%N then Some (Z.of_N n - 48) else None.

Definition is_underscore (c : ascii) : bool := (N_of_ascii c =? 95)%N.

(** A digit part [digit (["_"] digit)*]: reads digits from the front of [l],
    a single underscore being allowed between two digits.  Returns the value
    accumulated from [acc], the number of digits read and the rest. *)
Fixpoint digits_from (l : list ascii) (acc : Z) (cnt : Z)
  : Z * Z * list ascii :=
  match l with
  | c :: l' =>
      match digit_val c with
      | Some d => digits_from l' (10 * acc + d) (cnt + 1)
      | None =>
          if is_underscore c then
            match l' with
            | c' :: _ =>
                match digit_val c' with
                | Some _ => digits_from l' acc cnt
                | None => (acc, cnt, l)
                end
            | [] => (acc, cnt, l)
            end
          else (acc, cnt, l)
      end
  | [] => (acc, cnt, [])
  end.

(** [None] when [l] does not start with a digit. *)
Definition digitpart (l : list ascii) (acc : Z) : option (Z * Z * list ascii) :=
  match l with
  | c :: _ =>
      match digit_val c with
      | Some _ => Some (digits_from l acc 0)
      | None => None
      end
  | [] => None
  end.

(** An optional sign: [true] for ["-"]. *)
Definition sign_of (l : list ascii) : bool * list ascii :=
  match l with
  | c :: l' =>
      if (N_of_ascii c =? 45)%N then (true, l')
      else if (N_of_ascii c =? 43)%N then (false, l')
      else (false, l)
  | [] => (false, [])
  end.

(** [int(s)] for a [str] in base 10: surrounding white space, an optional
    sign, digits with single underscores between them; anything else is a
    [ValueError].  (The interpreter's limit on the number of digits of very
    long literals is not modelled.) *)
Definition int (s : string) : result Z :=
  let l := rstrip (lstrip (list_ascii_of_string s)) in
  let '(neg, l1) := sign_of l in
  match digitpart l1 0 with
  | Some (v, _, []) => Ok (if neg then - v else v)
  | _ => Raise ValueError
  end.

(* ----------------------------------------------------------------- *)
(** *** Floats *)

(** Python's [float] is binary64. *)
Definition float : Type := spec_float.

Definition prec : Z := 53.
Definition emax : Z := 1024.

Definition float_div : float -> float -> float := SFdiv prec emax.

(** [a < b], [a == b] and [a > b] on floats; all are false on a NaN. *)
Definition float_lt : float -> float -> bool := SFltb.
Definition float_eq : float -> float -> bool := SFeqb.
Definition float_gt (a b : float) : bool := SFltb b a.

Definition is_nan (f : float) : bool :=
  match f with
  | S754_nan => true
  | _ => false
  end.

(** The float nearest to [(-1)^neg * m * 10^e10], ties to even. *)
Definition float_of_decimal (neg : bool) (m : Z) (e10 : Z) : float :=
  match m with
  | Zpos p =>
      if 0 <=? e10
      then binary_normalize prec emax (cond_Zopp neg (m * 10 ^ e10)) 0 false
      else float_div (S754_finite neg p 0)
                     (S754_finite false (Z.to_pos (10 ^ (- e10))) 0)
  | _ => S754_zero neg
  end.

Definition lower (c : ascii) : ascii :=
  let n := N_of_ascii c in
  if ((65 <=? n) && (n <=? 90))%N then ascii_of_N (n + 32) else c.

Definition is_char (k : N) (c : ascii) : bool := (N_of_ascii c =? k)%N.

(** The optional exponent of a float literal, then the end of the text. *)
Definition exponent_part (l : list ascii) : option Z :=
  match l with
  | [] => Some 0
  | c :: l1 =>
      if is_char 101 (lower c) then
        let '(eneg, l2) := sign_of l1 in
        match digitpart l2 0 with
        | Some (e, _, []) => Some (if eneg then - e else e)
        | _ => None
        end
      else None
  end.

(** The optional integer part of a float literal: its value and the rest. *)
Definition int_part (l : list ascii) : Z * Z * list ascii :=
  match digitpart l 0 with
  | Some r => r
  | None => (0, 0, l)
  end.

(** The optional fraction of a float literal, continuing the mantissa [m]:
    the mantissa, the number of fraction digits and the rest. *)
Definition frac_part (m : Z) (l : list ascii) : Z * Z * list ascii :=
  match l with
  | c :: l1 =>
      if is_char 46 c then
        match digitpart l1 m with
        | Some r => r
        | None => (m, 0, l1)
        end
      else (m, 0, l)
  | [] => (m, 0, [])
  end.

(** [float(s)] for a [str]: surrounding white space, an optional sign, then
    [inf], [infinity] or [nan] in any case, or a decimal literal
    [digits] [. digits] [e [sign] digits] with at least one mantissa digit
    (single underscores allowed between digits), correctly rounded;
    anything else is a [ValueError]. *)
Definition float_of_str (s : string) : result float :=
  let l := rstrip (lstrip (list_ascii_of_string s)) in
  let '(neg, l1) := sign_of l in
  let w := string_of_list_ascii (map lower l1) in
  if ((w =? "inf") || (w =? "infinity"))%string then Ok (S754_infinity neg)
  else if (w =? "nan")%string then Ok S754_nan
  else
    let '(m0, n0, l2) := int_part l1 in
    let '(m, n1, l3) := frac_part m0 l2 in
    if n0 + n1 =? 0 then Raise ValueError
    else
      match exponent_part l3 with
      | Some e => Ok (float_of_decimal neg m (e - n1))
      | None => Raise ValueError
      end.

End Py.

(* ================================================================= *)
(** ** Python dictionaries

    A [dict] keeps its keys in insertion order: assigning to a key that is
    present updates the value in place, assigning to a new key appends it,
    and [del] removes the entry without disturbing the others.  Keys are
    compared with [==] ([eqb]); the interpreter's identity shortcut differs
    from [==] only on NaN keys. *)

Module Dict.
Section Ops.
Context {K V : Type}.
Variable eqb : K -> K -> bool.

(** [d.get(k)] *)
Fixpoint get (d : list (K * V)) (k : K) : option V :=
  match d with
  | [] => None
  | (k', v) :: d' => if eqb k' k then Some v else get d' k
  end.

(** [k in d] *)
Definition mem (d : list (K * V)) (k : K) : bool :=
  match get d k with
  | Some _ => true
  | None => false
  end.

(** [d.get(k, default)] *)
Definition get_default (d : list (K * V)) (k : K) (default : V) : V :=
  match get d k with
  | Some v => v
  | None => default
  end.

(** [d[k]] *)
Definition getitem (d : list (K * V)) (k : K) : Py.result V :=
  match get d k with
  | Some v => Py.Ok v
  | None => Py.Raise Py.KeyError
  end.

(** [d[k] = v] *)
Fixpoint set (d : list (K * V)) (k : K) (v : V) : list (K * V) :=
  match d with
  | [] => [(k, v)]
  | (k', v') :: d' =>
      if eqb k' k then (k', v) :: d' else (k', v') :: set d' k v
  end.

Fixpoint remove (d : list (K * V)) (k : K) : list (K * V) :=
  match d with
  | [] => []
  | (k', v') :: d' => if eqb k' k then d' else (k', v') :: remove d' k
  end.

(** [del d[k]] *)
Definition delitem (d : list (K * V)) (k : K) : Py.result (list (K * V)) :=
  if mem d k then Py.Ok (remove d k) else Py.Raise Py.KeyError.

(** [d.keys()] *)
Definition keys (d : list (K * V)) : list K := map fst d.
End Ops.
End Dict.

(* ================================================================= *)
(** ** Statements: a state that survives exceptions

    A block of statements transforms the local state and either completes or
    raises; what it assigned before raising stays assigned. *)

Module Stmt.
Import Py.

Definition M (S A : Type) : Type := S -> result A * S.

Definition ret {S A : Type} (a : A) : M S A := fun s => (Ok a, s).

Definition bind {S A B : Type} (m : M S A) (k : A -> M S B) : M S B :=
  fun s =>
    match m s with
    | (Ok a, s') => k a s'
    | (Raise e, s') => (Raise e, s')
    end.

(** Evaluation of an expression that may raise. *)
Definition eval {S A : Type} (r : result A) : M S A := fun s => (r, s).

(** [try: body  except (handled): pass] *)
Definition try_pass {S : Type} (body : M S unit) (handled : list exn)
  : M S unit :=
  fun s =>
    match body s with
    | (Raise e, s') => if caught handled e then (Ok tt, s') else (Raise e, s')
    | r => r
    end.

(** [for x in l: body x] *)
Fixpoint for_each {S A : Type} (l : list A) (body : A -> M S unit) : M S unit :=
  match l with
  | [] => ret tt
  | x :: l' => bind (body x) (fun _ => for_each l' body)
  end.

End Stmt.

Declare Scope stmt_scope.
Delimit Scope stmt_scope with stmt.
Notation "x <- c1 ;; c2" := (Stmt.bind c1 (fun x => c2))
  (at level 61, c1 at next level, right associativity) : stmt_scope.
Notation "c1 ;; c2" := (Stmt.bind c1 (fun _ => c2))
  (at level 61, right associativity) : stmt_scope.

(* ================================================================= *)
(** ** The order book of [build_level2_simple] *)

Module OrderBook.
Import Py.
Local Open Scope stmt_scope.

(** A row of [csv.DictReader]: column name to cell.  A cell is text, or
    [None] when the line is shorter than the header.  (The cells of a line
    longer than the header are kept under a key that no lookup uses.) *)
Definition row : Type := list (string * option string).

(** [row.get(k, default)] *)
Definition row_get (r : row) (k : string) (default : option string)
  : option string :=
  Dict.get_default String.eqb r k default.

(** The values of [orders]: [{symbol, side, price, qty, timestamp}]. *)
Record order : Type := mkOrder {
  symbol : string;
  side : string;
  price : float;
  qty : Z;
  timestamp : Z
}.

(** An order identifier is whatever [row.get] returned: text or [None]. *)
Definition oid : Type := option string.

Definition id_eqb (a b : oid) : bool :=
  match a, b with
  | Some x, Some y => String.eqb x y
  | None, None => true
  | _, _ => false
  end.

Definition store : Type := list (oid * order).

(** One side of a book: price to summed quantity. *)
Definition levels : Type := list (float * Z).

(** An element of [snapshots_by_ticker[ticker]]. *)
Record snapshot : Type := mkSnapshot {
  snap_timestamp : option string;
  bids : levels;
  asks : levels
}.

(** The local variables of [build_level2_simple] that outlive a row. *)
Record state : Type := mkState {
  orders : store;
  snapshots_by_ticker : list (string * list snapshot)
}.

Definition init : state := mkState [] [].

Definition set_orders (o : store) : Stmt.M state unit :=
  fun s => (Ok tt, mkState o (snapshots_by_ticker s)).

Definition get_orders : Stmt.M state store :=
  fun s => (Ok (orders s), s).

(** [v.strip()] for a cell: [None] has no such method. *)
Definition cell_strip (v : option string) : result string :=
  match v with
  | Some s => Ok (strip s)
  | None => Raise AttributeError
  end.

(** [float(v)] and [int(v)] for a cell. *)
Definition float_of (v : option string) : result float :=
  match v with
  | Some s => float_of_str s
  | None => Raise TypeError
  end.

Definition int_of (v : option string) : result Z :=
  match v with
  | Some s => Py.int s
  | None => Raise TypeError
  end.

(** The [int] [0], which the code stores as a price when the cell is
    empty: as a dictionary key and in comparisons it is the float [0.0]. *)
Definition zero : float := S754_zero false.

(** [v == s] for a cell [v] and a literal [s]. *)
Definition cell_is (v : option string) (s : string) : bool :=
  match v with
  | Some x => String.eqb x s
  | None => false
  end.

(** Type A, lines 36-54. *)
Definition add_order (r : row) : Stmt.M state unit :=
  let order_id := row_get r "order_id" None in
  symbol <- Stmt.eval (cell_strip (row_get r "symbol" (Some ""))) ;;
  side <- Stmt.eval (cell_strip (row_get r "side" (Some "B"))) ;;
  let price_str := row_get r "price" (Some "0") in
  let qty_str := row_get r "quantity" (Some "0") in
  let timestamp := row_get r "timestamp" (row_get r "seconds" (Some "0")) in
  Stmt.try_pass
    (if truthy order_id && str_truthy symbol then
       p <- Stmt.eval (if truthy price_str then float_of price_str else Ok zero) ;;
       q <- Stmt.eval (if truthy qty_str then int_of qty_str else Ok 0) ;;
       t <- Stmt.eval (if truthy timestamp then int_of timestamp else Ok 0) ;;
       orders <- get_orders ;;
       set_orders (Dict.set id_eqb orders order_id (mkOrder symbol side p q t))
     else Stmt.ret tt)
    [ValueError; TypeError].

(** Type e, lines 57-68. *)
Definition execute_order (r : row) : Stmt.M state unit :=
  let order_id := row_get r "order_id" None in
  let exec_qty_str := row_get r "quantity" (Some "0") in
  Stmt.try_pass
    (orders <- get_orders ;;
     if Dict.mem id_eqb orders order_id then
       exec_qty <- Stmt.eval (if truthy exec_qty_str then int_of exec_qty_str
                              else Ok 0) ;;
       o <- Stmt.eval (Dict.getitem id_eqb orders order_id) ;;
       set_orders (Dict.set id_eqb orders order_id
                     (mkOrder (symbol o) (side o) (price o) (qty o - exec_qty)
                        (timestamp o))) ;;
       orders <- get_orders ;;
       o <- Stmt.eval (Dict.getitem id_eqb orders order_id) ;;
       if qty o <=? 0 then
         orders' <- Stmt.eval (Dict.delitem id_eqb orders order_id) ;;
         set_orders orders'
       else Stmt.ret tt
     else Stmt.ret tt)
    [ValueError; TypeError].

(** Type D, lines 71-74. *)
Definition delete_order (r : row) : Stmt.M state unit :=
  let order_id := row_get r "order_id" None in
  orders <- get_orders ;;
  if truthy order_id && Dict.mem id_eqb orders order_id then
    orders' <- Stmt.eval (Dict.delitem id_eqb orders order_id) ;;
    set_orders orders'
  else Stmt.ret tt.

(** Type U, lines 77-96. *)
Definition replace_order (r : row) : Stmt.M state unit :=
  let old_id := row_get r "old_order_id" None in
  let new_id := row_get r "order_id" None in
  let new_qty_str := row_get r "quantity" (Some "0") in
  let new_price_str := row_get r "price" (Some "0") in
  Stmt.try_pass
    (orders <- get_orders ;;
     if Dict.mem id_eqb orders old_id then
       old_order <- Stmt.eval (Dict.getitem id_eqb orders old_id) ;;
       orders' <- Stmt.eval (Dict.delitem id_eqb orders old_id) ;;
       set_orders orders' ;;
       p <- Stmt.eval (if truthy new_price_str
                          && negb (cell_is new_price_str "0")
                       then float_of new_price_str
                       else Ok (price old_order)) ;;
       q <- Stmt.eval (if truthy new_qty_str then int_of new_qty_str
                       else Ok (qty old_order)) ;;
       orders <- get_orders ;;
       set_orders (Dict.set id_eqb orders new_id
                     (mkOrder (symbol old_order) (side old_order) p q
                        (timestamp old_order)))
     else Stmt.ret tt)
    [ValueError; TypeError; KeyError].

(** [sorted(l)] on floats.  The interpreter's sort is stable and compares
    with [<] only; on keys that [<] orders (no NaN) its result is the one of
    this stable insertion sort. *)
Fixpoint insert (x : float) (l : list float) : list float :=
  match l with
  | [] => [x]
  | y :: l' => if float_lt y x then y :: insert x l' else x :: l
  end.

Definition sort (l : list float) : list float := fold_right insert [] l.

(** [sorted(l, reverse=...)]: a reversed sort reverses, sorts and reverses
    again. *)
Definition sorted (l : list float) (reverse : bool) : list float :=
  if reverse then rev (sort (rev l)) else sort l.

(** [side[price] = side.get(price, 0) + qty], lines 110 and 112. *)
Definition add_level (lv : levels) (p : float) (q : Z) : levels :=
  Dict.set float_eq lv p (Dict.get_default float_eq lv p 0 + q).

(** The body of the loop of lines 104-112 on [tickers], a
    [defaultdict] of [{'bids': {}, 'asks': {}}]. *)
Definition group_order (tickers : list (string * (levels * levels)))
  (o : order) : list (string * (levels * levels)) :=
  let ticker := symbol o in
  let book := Dict.get_default String.eqb tickers ticker ([], []) in
  if (side o =? "B")%string
  then Dict.set String.eqb tickers ticker
         (add_level (fst book) (price o) (qty o), snd book)
  else Dict.set String.eqb tickers ticker
         (fst book, add_level (snd book) (price o) (qty o)).

Definition group_orders (orders : store) : list (string * (levels * levels)) :=
  fold_left group_order (map snd orders) [].

(** [{prices[i]: side[prices[i]] for i in range(len(prices))}],
    lines 119-120. *)
Fixpoint level_data (lv : levels) (prices : list float) (acc : levels)
  : result levels :=
  match prices with
  | [] => Ok acc
  | p :: ps =>
      match Dict.getitem float_eq lv p with
      | Ok v => level_data lv ps (Dict.set float_eq acc p v)
      | Raise e => Raise e
      end
  end.

(** The number of levels kept per side. *)
Definition depth : nat := 5.

Definition bid_levels (lv : levels) : result levels :=
  level_data lv (firstn depth (sorted (Dict.keys lv) true)) [].

Definition ask_levels (lv : levels) : result levels :=
  level_data lv (firstn depth (sorted (Dict.keys lv) false)) [].

(** The body of the loop of lines 115-126. *)
Definition store_snapshot (ts : option string)
  (entry : string * (levels * levels)) : Stmt.M state unit :=
  let '(ticker, lv) := entry in
  bid_data <- Stmt.eval (bid_levels (fst lv)) ;;
  ask_data <- Stmt.eval (ask_levels (snd lv)) ;;
  fun s =>
    (Ok tt,
     mkState (orders s)
       (Dict.set String.eqb (snapshots_by_ticker s) ticker
          (Dict.get_default String.eqb (snapshots_by_ticker s) ticker []
             ++ [mkSnapshot ts bid_data ask_data])%list)).

(** Type T, lines 99-126. *)
Definition snapshot_book (r : row) : Stmt.M state unit :=
  let ts := row_get r "seconds" (Some "0") in
  orders <- get_orders ;;
  Stmt.for_each (group_orders orders) (store_snapshot ts).

(** The body of the loop over the rows, lines 28-126. *)
Definition process_row (r : row) : Stmt.M state unit :=
  let msg_type := row_get r "message_type" None in
  if cell_is msg_type "A" then add_order r
  else if cell_is msg_type "e" then execute_order r
  else if cell_is msg_type "D" then delete_order r
  else if cell_is msg_type "U" then replace_order r
  else if cell_is msg_type "T" then snapshot_book r
  else Stmt.ret tt.

(** The loop over the rows of the input, from the empty book. *)
Definition process_rows (rows : list row) : Stmt.M state unit :=
  Stmt.for_each rows process_row.

Definition build_level2_simple (rows : list row) : result unit * state :=
  process_rows rows init.

End OrderBook.

(* ================================================================= *)
(** ** The decoders of [message_type_decoders.py] *)

Module Decoders.
Import Py.

Declare Scope result_scope.
Delimit Scope result_scope with result.
Notation "x <- c1 ;; c2" := (Py.bind c1 (fun x => c2))
  (at level 61, c1 at next level, right associativity) : result_scope.
Local Open Scope result_scope.

(** [bytes] *)
Definition bytes : Type := list Byte.byte.

(** A decoded [str] is a sequence of code points: decoding with
    [errors='replace'] produces U+FFFD, which is no byte. *)
Definition text : Type := list N.

(** A string literal of the source as a [str]. *)
Definition lit (s : string) : text := map N_of_ascii (list_ascii_of_string s).

Definition byte_val (b : Byte.byte) : Z := Z.of_N (Byte.to_N b).

(** [b[lo:hi]] and [b[lo:]] for constant bounds [0 <= lo <= hi]. *)
Definition slice (b : bytes) (lo hi : nat) : bytes :=
  firstn (hi - lo) (skipn lo b).

Definition slice_from (b : bytes) (lo : nat) : bytes := skipn lo b.

(** [int.from_bytes(b, 'big', signed=False)] *)
Definition from_bytes_big (b : bytes) : Z :=
  fold_left (fun acc x => 256 * acc + byte_val x) b 0.

(** [struct.unpack('>I', b)[0]]: exactly four bytes, else [struct.error]. *)
Definition unpack_I (b : bytes) : result Z :=
  if Nat.eqb (List.length b) 4 then Ok (from_bytes_big b) else Raise StructError.

(** [struct.unpack('>i', b)[0]]: the same bits as a two's complement
    number. *)
Definition unpack_i (b : bytes) : result Z :=
  if Nat.eqb (List.length b) 4 then
    let u := from_bytes_big b in
    Ok (if u <? 2 ^ 31 then u else u - 2 ^ 32)
  else Raise StructError.

(** [a / b] on two [int]s with [b > 0]: the float nearest to the quotient. *)
Definition true_div (a : Z) (b : positive) : float :=
  match a with
  | Z0 => S754_zero false
  | Zpos p => float_div (S754_finite false p 0) (S754_finite false b 0)
  | Zneg p => float_div (S754_finite true p 0) (S754_finite false b 0)
  end.

(** The values stored in a decoded record. *)
Inductive value : Type :=
| VNone
| VInt (z : Z)
| VFloat (f : float)
| VStr (s : text)
| VBytes (b : bytes).

(** A decoded record, [Dict[str, Any]]. *)
Definition record : Type := list (string * value).

Definition setitem (rec : record) (k : string) (v : value) : record :=
  Dict.set String.eqb rec k v.

(** [decode_timestamp], lines 50-57: any exception gives [None]. *)
Definition decode_timestamp (data : bytes) : value :=
  if (List.length data <? 4)%nat then VNone
  else match unpack_I (slice data 0 4) with
       | Ok v => VInt v
       | Raise _ => VNone
       end.

(** [decode_qty], lines 60-67. *)
Definition decode_qty (data : bytes) : value :=
  if (List.length data <? 4)%nat then VNone
  else match unpack_I (slice data 0 4) with
       | Ok v => VInt v
       | Raise _ => VNone
       end.

(** [decode_price], lines 70-78, for a number of decimals [scale >= 0]:
    the signed number of cents divided by [10 ** scale], a float. *)
Definition decode_price (data : bytes) (scale : N) : value :=
  if (List.length data <? 4)%nat then VNone
  else match unpack_i (slice data 0 4) with
       | Ok cents => VFloat (true_div cents (Z.to_pos (10 ^ Z.of_N scale)))
       | Raise _ => VNone
       end.

(** One hexadecimal digit as a code point. *)
Definition hex_digit (upper : bool) (d : N) : N :=
  (if d <? 10 then 48 + d else (if upper then 55 else 87) + d)%N.

(** [f'{b:02x}'] and [f'{b:02X}'] for a byte. *)
Definition hex_byte (upper : bool) (b : Byte.byte) : text :=
  let n := Byte.to_N b in
  [hex_digit upper (n / 16); hex_digit upper (n mod 16)]%N.

(** [b.hex()] *)
Definition hex (b : bytes) : text := flat_map (hex_byte false) b.

(** [f'0x{b:02X}'] *)
Definition hex_tag (b : Byte.byte) : text := (lit "0x" ++ hex_byte true b)%list.

(** [b.rstrip(b'\x00 ')] *)
Definition is_pad (b : Byte.byte) : bool :=
  let n := Byte.to_N b in ((n =? 0) || (n =? 32))%N.

Fixpoint drop_pad (b : bytes) : bytes :=
  match b with
  | x :: b' => if is_pad x then drop_pad b' else b
  | [] => []
  end.

Definition rstrip_pad (b : bytes) : bytes := rev (drop_pad (rev b)).

(** [b.decode('ascii', errors='replace')] *)
Definition decode_replace (b : bytes) : text :=
  map (fun x => let n := Byte.to_N x in if (n <? 128)%N then n else 65533%N) b.

(** [b.decode('ascii', errors='ignore')] *)
Definition decode_ignore (b : bytes) : text :=
  map Byte.to_N (filter (fun x => (Byte.to_N x <? 128)%N) b).

(** [decode_side], lines 81-91. *)
Definition decode_side (byte : bytes) : value :=
  match byte with
  | [] => VNone
  | b :: _ =>
      let c := Byte.to_N b in
      if ((c =? 66) || (c =? 83))%N then VStr [c] else VStr (hex_tag b)
  end.

(** The three entries every parser starts its record with. *)
Definition header (tag name : string) (len : Z) : record :=
  [("message_type", VStr (lit tag)); ("type_name", VStr (lit name));
   ("message_length", VInt len)].

Definition len (msg : bytes) : Z := Z.of_nat (List.length msg).

(** [if len(msg) >= n: rec[k] = v], where evaluating [v] may raise. *)
Definition when_ge (msg : bytes) (n : Z) (k : string) (v : result value)
  (rec : record) : result record :=
  if n <=? len msg then x <- v ;; Ok (setitem rec k x) else Ok rec.

(** [if len(msg) > n: rec[k] = v] *)
Definition when_gt (msg : bytes) (n : Z) (k : string) (v : result value)
  (rec : record) : result record :=
  if n <? len msg then x <- v ;; Ok (setitem rec k x) else Ok rec.

Definition vint (r : result Z) : result value := x <- r ;; Ok (VInt x).

(** [parse_message_type_a], lines 94-127. *)
Definition parse_message_type_a (msg : bytes) : result record :=
  rec <- Ok (header "A" "Add Order" 30) ;;
  rec <- when_ge msg 1 "msg_type_byte" (Ok (VBytes (slice msg 0 1))) rec ;;
  rec <- when_ge msg 5 "timestamp" (Ok (decode_timestamp (slice msg 1 5))) rec ;;
  rec <- when_ge msg 13 "order_id" (Ok (VInt (from_bytes_big (slice msg 5 13)))) rec ;;
  rec <- when_ge msg 21 "symbol"
           (Ok (VStr (decode_replace (rstrip_pad (slice msg 13 21))))) rec ;;
  rec <- when_ge msg 25 "quantity" (vint (unpack_I (slice msg 21 25))) rec ;;
  rec <- when_ge msg 29 "price" (Ok (decode_price (slice msg 25 29) 2)) rec ;;
  rec <- when_ge msg 30 "side" (Ok (decode_side (slice msg 29 30))) rec ;;
  Ok rec.

(** [parse_message_type_r], lines 130-160.  Nothing inside its [try] can
    raise. *)
Definition parse_message_type_r (msg : bytes) : result record :=
  rec <- Ok (header "R" "Trade Report (PSE-specific)" (len msg)) ;;
  rec <- when_ge msg 1 "msg_type_byte" (Ok (VBytes (slice msg 0 1))) rec ;;
  rec <- when_ge msg 5 "timestamp" (Ok (decode_timestamp (slice msg 1 5))) rec ;;
  rec <- when_ge msg 13 "order_id" (Ok (VInt (from_bytes_big (slice msg 5 13)))) rec ;;
  rec <- when_gt msg 13 "raw_payload" (Ok (VStr (hex (slice_from msg 13)))) rec ;;
  rec <- when_ge msg 28 "symbol_raw"
           (Ok (VStr (decode_ignore (rstrip_pad (slice msg 13 21))))) rec ;;
  Ok rec.

(** [parse_message_type_k], lines 163-190. *)
Definition parse_message_type_k (msg : bytes) : result record :=
  rec <- Ok (header "k" "Order Book/Quote Update (PSE-specific)" 30) ;;
  rec <- when_ge msg 1 "msg_type_byte" (Ok (VBytes (slice msg 0 1))) rec ;;
  rec <- when_ge msg 5 "timestamp" (Ok (decode_timestamp (slice msg 1 5))) rec ;;
  rec <- when_ge msg 13 "order_id" (Ok (VInt (from_bytes_big (slice msg 5 13)))) rec ;;
  rec <- when_ge msg 21 "symbol"
           (Ok (VStr (decode_replace (rstrip_pad (slice msg 13 21))))) rec ;;
  rec <- when_ge msg 25 "quantity" (vint (unpack_I (slice msg 21 25))) rec ;;
  rec <- when_ge msg 29 "price" (Ok (decode_price (slice msg 25 29) 2)) rec ;;
  rec <- when_ge msg 30 "side" (Ok (decode_side (slice msg 29 30))) rec ;;
  Ok rec.

(** [parse_message_type_h], lines 193-219.  Decoding with
    [errors='ignore'] cannot raise, so the [except] branch is dead. *)
Definition parse_message_type_h (msg : bytes) : result record :=
  rec <- Ok (header "H" "Trading Status" 11) ;;
  rec <- when_ge msg 1 "msg_type_byte" (Ok (VBytes (slice msg 0 1))) rec ;;
  rec <- when_ge msg 5 "timestamp" (Ok (decode_timestamp (slice msg 1 5))) rec ;;
  rec <- when_ge msg 11 "status_code"
           (Ok (VStr (decode_ignore (rstrip_pad (slice msg 5 11))))) rec ;;
  Ok rec.

(** [parse_message_type_f], lines 222-241. *)
Definition parse_message_type_f (msg : bytes) : result record :=
  rec <- Ok (header "f" "Unknown PSE Type (f)" 24) ;;
  rec <- when_ge msg 1 "msg_type_byte" (Ok (VBytes (slice msg 0 1))) rec ;;
  rec <- when_ge msg 5 "timestamp" (Ok (decode_timestamp (slice msg 1 5))) rec ;;
  rec <- when_gt msg 5 "raw_payload" (Ok (VStr (hex (slice_from msg 5)))) rec ;;
  Ok rec.

(** [parse_message_type_l], lines 244-264. *)
Definition parse_message_type_l (msg : bytes) : result record :=
  rec <- Ok (header "L" "Listing/IPO" 17) ;;
  rec <- when_ge msg 1 "msg_type_byte" (Ok (VBytes (slice msg 0 1))) rec ;;
  rec <- when_ge msg 5 "timestamp" (Ok (decode_timestamp (slice msg 1 5))) rec ;;
  rec <- when_ge msg 13 "symbol"
           (Ok (VStr (decode_replace (rstrip_pad (slice msg 5 13))))) rec ;;
  rec <- when_ge msg 17 "extra_data" (Ok (VStr (hex (slice msg 13 17)))) rec ;;
  Ok rec.

(** [parse_message_type_s], lines 267-291.  Decoding with
    [errors='replace'] cannot raise, so the [except] branch is dead. *)
Definition parse_message_type_s (msg : bytes) : result record :=
  rec <- Ok (header "s" "Unknown PSE Type (s)" 22) ;;
  rec <- when_ge msg 1 "msg_type_byte" (Ok (VBytes (slice msg 0 1))) rec ;;
  rec <- when_ge msg 5 "timestamp" (Ok (decode_timestamp (slice msg 1 5))) rec ;;
  rec <- when_ge msg 13 "identifier"
           (Ok (VStr (decode_replace (rstrip_pad (slice msg 5 13))))) rec ;;
  rec <- when_gt msg 13 "raw_payload" (Ok (VStr (hex (slice_from msg 13)))) rec ;;
  Ok rec.

(** [parse_message_type_m], lines 294-313. *)
Definition parse_message_type_m (msg : bytes) : result record :=
  rec <- Ok (header "M" "Unknown PSE Type (M)" 25) ;;
  rec <- when_ge msg 1 "msg_type_byte" (Ok (VBytes (slice msg 0 1))) rec ;;
  rec <- when_ge msg 5 "timestamp" (Ok (decode_timestamp (slice msg 1 5))) rec ;;
  rec <- when_gt msg 5 "raw_payload" (Ok (VStr (hex (slice_from msg 5)))) rec ;;
  Ok rec.

(** [parse_message_type_s_stock], lines 316-341: a failure to unpack the
    quantity is swallowed by its [try]. *)
Definition parse_message_type_s_stock (msg : bytes) : result record :=
  rec <- Ok (header "S" "Stock Trade" (len msg)) ;;
  rec <- when_ge msg 1 "msg_type_byte" (Ok (VBytes (slice msg 0 1))) rec ;;
  rec <- when_ge msg 5 "timestamp" (Ok (decode_timestamp (slice msg 1 5))) rec ;;
  rec <- when_ge msg 13 "order_id" (Ok (VInt (from_bytes_big (slice msg 5 13)))) rec ;;
  rec <- when_ge msg 21 "symbol"
           (Ok (VStr (decode_replace (rstrip_pad (slice msg 13 21))))) rec ;;
  rec <- Ok (match when_ge msg 25 "quantity" (vint (unpack_I (slice msg 21 25))) rec with
             | Ok rec' => rec'
             | Raise _ => rec
             end) ;;
  Ok rec.

(** [parse_message_type_t], lines 344-361. *)
Definition parse_message_type_t (msg : bytes) : result record :=
  rec <- Ok (header "T" "System Sync" 5) ;;
  rec <- when_ge msg 1 "msg_type_byte" (Ok (VBytes (slice msg 0 1))) rec ;;
  rec <- when_ge msg 5 "counter" (vint (unpack_I (slice msg 1 5))) rec ;;
  Ok rec.

Definition text_eqb (a b : text) : bool :=
  (fix go (a b : text) : bool :=
     match a, b with
     | [], [] => true
     | x :: a', y :: b' => (x =? y)%N && go a' b'
     | _, _ => false
     end) a b.

(** The table [decoders] of [decode_message], lines 372-383. *)
Definition decoders : list (text * (bytes -> result record)) :=
  [(lit "A", parse_message_type_a);
   (lit "R", parse_message_type_r);
   (lit "k", parse_message_type_k);
   (lit "H", parse_message_type_h);
   (lit "f", parse_message_type_f);
   (lit "L", parse_message_type_l);
   (lit "s", parse_message_type_s);
   (lit "M", parse_message_type_m);
   (lit "S", parse_message_type_s_stock);
   (lit "T", parse_message_type_t)].

(** [chr(b) if 32 <= b < 127 else f'0x{b:02X}'], line 370. *)
Definition type_tag (b : Byte.byte) : text :=
  let n := Byte.to_N b in
  if ((32 <=? n) && (n <? 127))%N then [n] else hex_tag b.

(** [decode_message], lines 365-394. *)
Definition decode_message (msg : bytes) : result record :=
  match msg with
  | [] => Ok [("error", VStr (lit "Empty message"))]
  | b :: _ =>
      let msg_type := type_tag b in
      match Dict.get text_eqb decoders msg_type with
      | Some decoder => decoder msg
      | None =>
          Ok [("message_type", VStr msg_type);
              ("type_name", VStr (lit "Unknown"));
              ("message_length", VInt (len msg));
              ("raw", VStr (hex msg))]
      end
  end.

End Decoders.

(* ================================================================= *)
(** ** Notions the properties are stated with *)

Module BookSpec.
Import Py OrderBook.

(** The row is of message type [t]. *)
Definition is_type (r : row) (t : string) : bool :=
  cell_is (row_get r "message_type" None) t.

(** The identifier an Add, Execute or Delete row refers to, and the new
    identifier of a Replace row. *)
Definition row_id (r : row) : oid := row_get r "order_id" None.

(** The identifier a Replace row retires. *)
Definition row_old_id (r : row) : oid := row_get r "old_order_id" None.


(** The executed quantity of an Execute row, as line 63 reads it. *)
Definition executed_quantity (r : row) : result Z :=
  let q := row_get r "quantity" (Some "0") in
  if truthy q then int_of q else Ok 0.

(** The price and the quantity a Replace row gives to the new order,
    as lines 91 and 92 read them. *)
Definition replaced_price (r : row) (old : order) : result float :=
  let p := row_get r "price" (Some "0") in
  if truthy p && negb (cell_is p "0") then float_of p else Ok (price old).

Definition replaced_quantity (r : row) (old : order) : result Z :=
  let q := row_get r "quantity" (Some "0") in
  if truthy q then int_of q else Ok (qty old).

(** Invariant I1 on a store. *)
Definition positive_quantities (st : store) : Prop :=
  forall id o, Dict.get id_eqb st id = Some o -> 0 < qty o.

(** Keys of a dictionary are pairwise different under its [==]. *)
Definition wf {K V : Type} (eqb : K -> K -> bool) (d : list (K * V)) : Prop :=
  ForallOrdPairs (fun a b => eqb a b = false) (Dict.keys d).

(** A well-formed store satisfying invariant I1. *)
Definition store_inv (st : OrderBook.store) : Prop :=
  wf id_eqb st /\ positive_quantities st.

(** The quantity an Add or a Replace row would store is positive (rows that
    store nothing are harmless). *)
Definition quantity_ok (r : row) : bool :=
  let q := row_get r "quantity" (Some "0") in
  if is_type r "A" then
    match (if truthy q then int_of q else Ok 0) with
    | Ok n => 0 <? n
    | Raise _ => true
    end
  else if is_type r "U" then
    if truthy q then
      match int_of q with
      | Ok n => 0 <? n
      | Raise _ => true
      end
    else true
  else true.

(** The price an Add or a Replace row would store is a number. *)
Definition price_ok (r : row) : bool :=
  let p := row_get r "price" (Some "0") in
  if is_type r "A" then
    match (if truthy p then float_of p else Ok zero) with
    | Ok f => negb (is_nan f)
    | Raise _ => true
    end
  else if is_type r "U" then
    if truthy p && negb (cell_is p "0") then
      match float_of p with
      | Ok f => negb (is_nan f)
      | Raise _ => true
      end
    else true
  else true.

(** What one row can do to the store: nothing, remove an entry (Delete, a
    full Execute, a Replace cut short), or write the order of an Add, of a
    partial Execute or of a Replace. *)
Inductive store_step (r : row) (st : store) : store -> Prop :=
| step_same : store_step r st st
| step_remove (id : oid) : store_step r st (Dict.remove id_eqb st id)
| step_add (o : order) :
    is_type r "A" = true ->
    (let q := row_get r "quantity" (Some "0") in
     (if truthy q then int_of q else Ok 0) = Ok (qty o)) ->
    (let p := row_get r "price" (Some "0") in
     (if truthy p then float_of p else Ok zero) = Ok (price o)) ->
    store_step r st (Dict.set id_eqb st (row_id r) o)
| step_execute (o : order) (e : Z) :
    Dict.get id_eqb st (row_id r) = Some o ->
    0 < qty o - e ->
    store_step r st
      (Dict.set id_eqb st (row_id r)
         (mkOrder (symbol o) (side o) (price o) (qty o - e) (timestamp o)))
| step_replace (old : order) (p : float) (q : Z) :
    is_type r "A" = false ->
    is_type r "U" = true ->
    Dict.get id_eqb st (row_old_id r) = Some old ->
    replaced_price r old = Ok p ->
    replaced_quantity r old = Ok q ->
    store_step r st
      (Dict.set id_eqb (Dict.remove id_eqb st (row_old_id r)) (row_id r)
         (mkOrder (symbol old) (side old) p q (timestamp old))).

(** Every price of the store is a number. *)
Definition no_nan (st : store) : Prop :=
  Forall (fun kv => is_nan (price (snd kv)) = false) st.

(** The live orders of a symbol on one side: bids are the orders whose
    side is ["B"], asks all the others (line 109). *)
Definition on_side (sym : string) (bid : bool) (o : order) : bool :=
  String.eqb (symbol o) sym && Bool.eqb (String.eqb (side o) "B") bid.

Definition live (st : store) (sym : string) (bid : bool) : list order :=
  filter (on_side sym bid) (map snd st).


(** The distinct prices of a list, in order of first appearance. *)
Definition add_price (ks : list float) (p : float) : list float :=
  if existsb (fun k => float_eq k p) ks then ks else (ks ++ [p])%list.

Definition distinct_prices (os : list order) : list float :=
  fold_left add_price (map price os) [].

(** The levels the loop of lines 104-112 accumulates for one side of one
    ticker, from its orders in store order. *)
Definition side_levels (os : list order) : levels :=
  fold_left (fun lv o => add_level lv (price o) (qty o)) os [].

(** The view lines 116-120 build of one side: the first [depth] sorted
    prices, each with its accumulated quantity. *)
Definition levels_of (lv : levels) (reverse : bool) : levels :=
  map (fun p => (p, Dict.get_default float_eq lv p 0))
    (firstn depth (sorted (Dict.keys lv) reverse)).

(** Floats that are pairwise different under [==]. *)
Definition distinct (l : list float) : Prop :=
  NoDup l /\ forall a b, In a l -> In b l -> float_eq a b = true -> a = b.

(** A float that is a number, and the two strict orders of the levels. *)
Definition number (x : float) : Prop := is_nan x = false.
Definition lt (a b : float) : Prop := float_lt a b = true.
Definition gt (a b : float) : Prop := float_gt a b = true.

(** Both sides of a book have pairwise different keys that are numbers. *)
Definition good_book (book : levels * levels) : Prop :=
  (wf float_eq (fst book) /\ Forall number (Dict.keys (fst book)))
  /\ (wf float_eq (snd book) /\ Forall number (Dict.keys (snd book))).

(** The snapshot lines 116-126 append for a ticker. *)
Definition snapshot_of (ts : option string) (book : levels * levels)
  : snapshot :=
  mkSnapshot ts (levels_of (fst book) true) (levels_of (snd book) false).



(** Strictly descending and strictly ascending level lists. *)
Definition descending (lv : levels) : Prop :=
  StronglySorted (fun a b => float_gt (fst a) (fst b) = true) lv.

Definition ascending (lv : levels) : Prop :=
  StronglySorted (fun a b => float_lt (fst a) (fst b) = true) lv.


End BookSpec.

(* ================================================================= *)
(** ** Notions the decoder properties are stated with *)

Module DecoderSpec.
Import Py Decoders.

(** For each registered type tag, its fields in record order, each with the
    least frame length at which the parser stores it (the guards of lines
    112-125, 142-154, 175-188, 207-211, 233-238, 255-261, 278-288, 305-310,
    327-335 and 355-357). *)
Definition field_table : list (text * list (string * Z)) :=
  [(lit "A", [("msg_type_byte", 1); ("timestamp", 5); ("order_id", 13);
              ("symbol", 21); ("quantity", 25); ("price", 29); ("side", 30)]);
   (lit "R", [("msg_type_byte", 1); ("timestamp", 5); ("order_id", 13);
              ("raw_payload", 14); ("symbol_raw", 28)]);
   (lit "k", [("msg_type_byte", 1); ("timestamp", 5); ("order_id", 13);
              ("symbol", 21); ("quantity", 25); ("price", 29); ("side", 30)]);
   (lit "H", [("msg_type_byte", 1); ("timestamp", 5); ("status_code", 11)]);
   (lit "f", [("msg_type_byte", 1); ("timestamp", 5); ("raw_payload", 6)]);
   (lit "L", [("msg_type_byte", 1); ("timestamp", 5); ("symbol", 13);
              ("extra_data", 17)]);
   (lit "s", [("msg_type_byte", 1); ("timestamp", 5); ("identifier", 13);
              ("raw_payload", 14)]);
   (lit "M", [("msg_type_byte", 1); ("timestamp", 5); ("raw_payload", 6)]);
   (lit "S", [("msg_type_byte", 1); ("timestamp", 5); ("order_id", 13);
              ("symbol", 21); ("quantity", 25)]);
   (lit "T", [("msg_type_byte", 1); ("counter", 5)])].

(** The keys of the record of a frame of [n] bytes with a registered tag:
    the three header entries, then the fields that fit. *)
Definition fitting_keys (tag : text) (n : Z) : list string :=
  (["message_type"; "type_name"; "message_length"]
   ++ map fst (filter (fun kn => snd kn <=? n)
                 (Dict.get_default text_eqb field_table tag [])))%list.

(** The record of a frame whose tag is not registered. *)
Definition unrecognized (msg : bytes) (tag : text) : record :=
  [("message_type", VStr tag); ("type_name", VStr (lit "Unknown"));
   ("message_length", VInt (len msg)); ("raw", VStr (hex msg))].

(** A frame from a list of byte values. *)
Definition frame (l : list N) : bytes :=
  map (fun n => match Byte.of_N n with Some b => b | None => Byte.x00 end) l.

End DecoderSpec.

(* ================================================================= *)
(** ** Further notions about the order book *)

Module BookMore.
Import Py OrderBook BookSpec.

(** The price, quantity and timestamp an Add row stores, as lines 49-51
    read them. *)
Definition added_price (r : row) : result float :=
  let p := row_get r "price" (Some "0") in
  if truthy p then float_of p else Ok zero.

Definition added_quantity (r : row) : result Z :=
  let q := row_get r "quantity" (Some "0") in
  if truthy q then int_of q else Ok 0.

Definition added_timestamp (r : row) : result Z :=
  let t := row_get r "timestamp" (row_get r "seconds" (Some "0")) in
  if truthy t then int_of t else Ok 0.

(** The symbol and side cells of the row are text (the line was not cut
    short before them). *)
Definition has_symbol_and_side (r : row) : bool :=
  match row_get r "symbol" (Some ""), row_get r "side" (Some "B") with
  | Some _, Some _ => true
  | _, _ => false
  end.

(** A row the loop body takes without raising: it is not an Add row cut
    short, and it brings no NaN price. *)
Definition row_ok (r : row) : bool :=
  price_ok r && (negb (is_type r "A") || has_symbol_and_side r).

(** The sum of a list of quantities. *)
Definition total (l : list Z) : Z := fold_right Z.add 0 l.

(** [l1] is the beginning of [l2]. *)
Definition prefix {A : Type} (l1 l2 : list A) : Prop :=
  exists more, l2 = (l1 ++ more)%list.

End BookMore.

(* ================================================================= *)
(** ** Further notions about the decoders *)

Module DecoderMore.
Import Py Decoders DecoderSpec.

(** The first bytes [decode_message] has a parser for (the keys of
    [decoders], lines 372-383): A R k H f L s M S T. *)
Definition registered_bytes : list N :=
  [65; 82; 107; 72; 102; 76; 115; 77; 83; 84]%N.

Definition registered (b : Byte.byte) : bool :=
  existsb (N.eqb (Byte.to_N b)) registered_bytes.

(** The constant a parser stores as [message_length], for the types that do
    not store the length of the frame (lines 109, 172, 204, 230, 252, 275,
    302 and 352). *)
Definition nominal_length : list (text * Z) :=
  [(lit "A", 30); (lit "k", 30); (lit "H", 11); (lit "f", 24);
   (lit "L", 17); (lit "s", 22); (lit "M", 25); (lit "T", 5)].

(** The [message_length] entry of the record of a frame of [n] bytes. *)
Definition reported_length (tag : text) (n : Z) : Z :=
  Dict.get_default text_eqb nominal_length tag n.

(** The entries that hold an unsigned integer, each with its bound. *)
Definition int_fields : list (string * Z) :=
  [("timestamp", 2 ^ 32); ("order_id", 2 ^ 64); ("quantity", 2 ^ 32);
   ("counter", 2 ^ 32)].

(** The entries decoded with [errors='replace'] after the padding is
    stripped, and those decoded with [errors='ignore']. *)
Definition replaced_fields : list string := ["symbol"; "identifier"].

Definition filtered_fields : list string := ["status_code"; "symbol_raw"].

(** A code point an ASCII decoding with [errors='replace'] can produce:
    ASCII, or U+FFFD. *)
Definition decoded_char (c : N) : bool := ((c <? 128) || (c =? 65533))%N.

Definition ascii_char (c : N) : bool := (c <? 128)%N.

(** The text does not end with NUL or a space. *)
Definition unpadded (t : text) : bool :=
  match rev t with
  | c :: _ => negb ((c =? 0) || (c =? 32))%N
  | [] => true
  end.

(** What a record holds under a key: an unsigned integer below its bound
    under the keys of [int_fields], a short text under those of
    [replaced_fields] and [filtered_fields], a float that is a number under
    [price]; and never [None]. *)
Definition entry_ok (k : string) (v : value) : Prop :=
  v <> VNone
  /\ (forall bound, Dict.get String.eqb int_fields k = Some bound ->
      exists z, v = VInt z /\ 0 <= z < bound)
  /\ (In k replaced_fields ->
      exists t, v = VStr t /\ (List.length t <= 8)%nat
                /\ forallb decoded_char t = true /\ unpadded t = true)
  /\ (In k filtered_fields ->
      exists t, v = VStr t /\ (List.length t <= 8)%nat
                /\ forallb ascii_char t = true)
  /\ (k = "price" -> exists f, v = VFloat f /\ is_nan f = false).

(** Every entry of the record holds what its key announces. *)
Definition entries_ok (rec : record) : Prop :=
  forall k v, Dict.get String.eqb rec k = Some v -> entry_ok k v.

(** The types whose parser reads nothing past a fixed length and stores a
    constant [message_length], each with that length. *)
Definition fixed_layout : list (N * Z) :=
  [(65%N, 30); (107%N, 30); (72%N, 11); (76%N, 17); (84%N, 5)].

(** The sign bit of a float ([False] for a NaN). *)
Definition negative (f : float) : bool :=
  match f with
  | S754_zero s | S754_infinity s | S754_finite s _ _ => s
  | S754_nan => false
  end.

End DecoderMore.

(* ================================================================= *)
(** ** The writer of [build_level2_simple], lines 134-174 *)

Module Writer.
Import Py OrderBook.
Local Open Scope stmt_scope.

(** [str(n)] for an [int]. *)
Definition str_int (n : Z) : string := NilZero.string_of_int (Z.to_int n).

(** [n / d] rounded to the nearest integer, ties to even, for [n >= 0] and
    [d > 0]. *)
Definition round_half_even (n d : Z) : Z :=
  let q := n / d in
  let r := n mod d in
  if 2 * r <? d then q
  else if d <? 2 * r then q + 1
  else if Z.even q then q else q + 1.

(** The number of hundredths nearest to [m * 2^e]. *)
Definition hundredths (m : positive) (e : Z) : Z :=
  if 0 <=? e then Zpos m * 2 ^ e * 100
  else round_half_even (Zpos m * 100) (2 ^ (- e)).

(** A sign, an integer part and two decimals. *)
Definition fixed2 (neg : bool) (h : Z) : string :=
  (if neg then "-" else "")
  ++ str_int (h / 100) ++ "."
  ++ (if h mod 100 <? 10 then "0" else "") ++ str_int (h mod 100).

(** [f"{x:.2f}"]: the decimal with two places nearest to the float, ties to
    even. *)
Definition format_2f (x : float) : string :=
  match x with
  | S754_nan => "nan"
  | S754_infinity s => if s then "-inf" else "inf"
  | S754_zero s => fixed2 s 0
  | S754_finite s m e => fixed2 s (hundredths m e)
  end.

(** A value of [row_data]: a [str], an [int] or [None]. *)
Inductive cell : Type :=
| CStr (s : string)
| CInt (z : Z)
| CNone.

Definition row_data : Type := list (string * cell).

(** A line of the output: one cell per column. *)
Definition line : Type := list cell.

Definition fieldnames : list string :=
  ["ticker"; "timestamp";
   "bid_1_price"; "bid_1_qty"; "bid_2_price"; "bid_2_qty";
   "bid_3_price"; "bid_3_qty"; "bid_4_price"; "bid_4_qty";
   "bid_5_price"; "bid_5_qty";
   "ask_1_price"; "ask_1_qty"; "ask_2_price"; "ask_2_qty";
   "ask_3_price"; "ask_3_qty"; "ask_4_price"; "ask_4_qty";
   "ask_5_price"; "ask_5_qty"].

(** [f'{side}_{i+1}_{what}'] *)
Definition level_key (side : string) (i : nat) (what : string) : string :=
  side ++ "_" ++ str_int (Z.of_nat i + 1) ++ "_" ++ what.

(** One pass of the loops of lines 153-160 and 164-171. *)
Definition fill_level (side : string) (lv : levels) (prices : list float)
  (rd : row_data) (i : nat) : result row_data :=
  match nth_error prices i with
  | Some price =>
      let rd := Dict.set String.eqb rd (level_key side i "price")
                  (CStr (format_2f price)) in
      match Dict.getitem float_eq lv price with
      | Ok q => Ok (Dict.set String.eqb rd (level_key side i "qty") (CInt q))
      | Raise e => Raise e
      end
  | None =>
      Ok (Dict.set String.eqb
            (Dict.set String.eqb rd (level_key side i "price") (CStr ""))
            (level_key side i "qty") (CStr ""))
  end.

Fixpoint fill_levels (side : string) (lv : levels) (prices : list float)
  (range : list nat) (rd : row_data) : result row_data :=
  match range with
  | [] => Ok rd
  | i :: range' =>
      match fill_level side lv prices rd i with
      | Ok rd' => fill_levels side lv prices range' rd'
      | Raise e => Raise e
      end
  end.

Definition timestamp_cell (ts : option string) : cell :=
  match ts with
  | Some s => CStr s
  | None => CNone
  end.

(** The [row_data] of a snapshot, lines 149-171. *)
Definition make_row (ticker : string) (snap : snapshot) : result row_data :=
  let rd := [("ticker", CStr ticker);
             ("timestamp", timestamp_cell (snap_timestamp snap))] in
  match fill_levels "bid" (bids snap) (sorted (Dict.keys (bids snap)) true)
          (seq 0 5) rd with
  | Ok rd' =>
      fill_levels "ask" (asks snap) (sorted (Dict.keys (asks snap)) false)
        (seq 0 5) rd'
  | Raise e => Raise e
  end.

(** [csv.DictWriter.writerow]: a key that is no field name is a
    [ValueError]; otherwise the line holds, for each field name in order,
    the value under it, or [''] when there is none. *)
Definition writerow (rd : row_data) : result line :=
  if forallb (fun k => existsb (String.eqb k) fieldnames) (Dict.keys rd)
  then Ok (map (fun k => Dict.get_default String.eqb rd k (CStr "")) fieldnames)
  else Raise ValueError.

(** [a < b] on [str]: by code points, a proper prefix first. *)
Fixpoint str_lt (a b : string) : bool :=
  match a, b with
  | EmptyString, EmptyString => false
  | EmptyString, String _ _ => true
  | String _ _, EmptyString => false
  | String x a', String y b' =>
      if (N_of_ascii x <? N_of_ascii y)%N then true
      else if (N_of_ascii y <? N_of_ascii x)%N then false
      else str_lt a' b'
  end.

(** [sorted(snapshots_by_ticker.items())].  The items are compared as
    tuples; the keys of a dictionary being different, the comparison is
    decided by the tickers and never reaches the lists of snapshots. *)
Fixpoint insert_item (x : string * list snapshot)
  (l : list (string * list snapshot)) : list (string * list snapshot) :=
  match l with
  | [] => [x]
  | y :: l' => if str_lt (fst y) (fst x) then y :: insert_item x l' else x :: l
  end.

Definition sorted_items (l : list (string * list snapshot))
  : list (string * list snapshot) :=
  fold_right insert_item [] l.

(** The statements of the writer run on the lines written so far. *)
Definition write (l : line) : Stmt.M (list line) unit :=
  fun out => (Ok tt, (out ++ [l])%list).

(** The body of the inner loop, lines 148-174. *)
Definition write_snapshot (ticker : string) (snap : snapshot)
  : Stmt.M (list line) unit :=
  rd <- Stmt.eval (make_row ticker snap) ;;
  l <- Stmt.eval (writerow rd) ;;
  write l.

(** Lines 143-174: the header, then a line per snapshot, ticker by
    ticker. *)
Definition write_level2 (snapshots : list (string * list snapshot))
  : Stmt.M (list line) unit :=
  write (map CStr fieldnames) ;;
  Stmt.for_each (sorted_items snapshots)
    (fun item => Stmt.for_each (snd item) (write_snapshot (fst item))).

(** The whole of [build_level2_simple] on the rows of the input: the loop
    of [OrderBook.build_level2_simple], then the writer.  It gives what the
    function raises, if anything, and the lines of the output file; [None]
    when the file was not opened. *)
Definition build_level2_simple (rows : list row)
  : result unit * option (list line) :=
  match OrderBook.build_level2_simple rows with
  | (Ok _, s) =>
      let '(r, out) := write_level2 (snapshots_by_ticker s) [] in
      (r, Some out)
  | (Raise e, _) => (Raise e, None)
  end.

End Writer.

(* ================================================================= *)
(** ** Notions about the output *)

Module WriterSpec.
Import Py OrderBook BookSpec Writer.

(** The price and quantity cells of level [i] of one side: the level's
    price with two decimals and its quantity, or two empty cells when the
    side has no such level. *)
Definition level_cells (lv : levels) (i : nat) : cell * cell :=
  match nth_error lv i with
  | Some (p, q) => (CStr (format_2f p), CInt q)
  | None => (CStr "", CStr "")
  end.

Definition side_cells (lv : levels) : list cell :=
  flat_map (fun i => [fst (level_cells lv i); snd (level_cells lv i)])
    (seq 0 5).

(** The line of a snapshot: ticker, timestamp, five bid levels, five ask
    levels. *)
Definition line_of (ticker : string) (sn : snapshot) : line :=
  (CStr ticker :: timestamp_cell (snap_timestamp sn)
   :: side_cells (bids sn) ++ side_cells (asks sn))%list.

Definition lines_of (items : list (string * list snapshot)) : list line :=
  flat_map (fun item => map (line_of (fst item)) (snd item)) items.

Definition header_line : line := map CStr fieldnames.

(** A snapshot as the loop stores it: bids from the highest price down,
    asks from the lowest up, every price a number. *)
Definition shown (sn : snapshot) : Prop :=
  (descending (bids sn) /\ Forall number (Dict.keys (bids sn)))
  /\ (ascending (asks sn) /\ Forall number (Dict.keys (asks sn))).

Definition all_shown (snapshots : list (string * list snapshot)) : Prop :=
  Forall (fun item => Forall shown (snd item)) snapshots.

(** Tickers in strictly increasing order. *)
Definition by_ticker (items : list (string * list snapshot)) : Prop :=
  StronglySorted (fun a b => str_lt (fst a) (fst b) = true) items.

End WriterSpec.

(* ================================================================= *)
(** ** The parser of [simple_parser.py]

    [parse_itch] reads length-prefixed messages from a file and returns one
    record per message.  The file is the sequence of its bytes; what is
    modelled is the value the function returns or the exception it lets
    through (the CSV it writes from the records is not). *)

Module Parser.
Import Py Decoders Writer.

(** What the body of the [try] of lines 30-208 comes to: its result, or
    the text [str(e)] of the exception that line 210 catches. *)
Inductive outcome (A : Type) : Type :=
| Done (a : A)
| Failed (message : text).

Arguments Done {A} a.
Arguments Failed {A} message.

Definition and_then {A B : Type} (o : outcome A) (k : A -> outcome B)
  : outcome B :=
  match o with
  | Done a => k a
  | Failed m => Failed m
  end.

Declare Scope outcome_scope.
Delimit Scope outcome_scope with outcome.
Notation "x <- c1 ;; c2" := (and_then c1 (fun x => c2))
  (at level 61, c1 at next level, right associativity) : outcome_scope.
Local Open Scope outcome_scope.

(** [str(n)] and [f"{x:.2f}"] as decoded text. *)
Definition str (n : Z) : text := lit (str_int n).

Definition fmt2 (x : float) : text := lit (format_2f x).

(** [struct.unpack('>I', b)[0]] and [struct.unpack('>Q', b)[0]] inside the
    [try]: an unsigned big-endian integer of [size] bytes; a buffer of
    another length is a [struct.error], whose text (that of CPython 3.7 and
    later) names the size. *)
Definition unpack_uint (size : nat) (b : bytes) : outcome Z :=
  if Nat.eqb (List.length b) size then Done (from_bytes_big b)
  else Failed (lit "unpack requires a buffer of " ++ str (Z.of_nat size)
               ++ lit " bytes")%list.

(** [chr(payload[i])] *)
Definition chr_at (payload : bytes) (i : nat) : outcome text :=
  match nth_error payload i with
  | Some b => Done [Byte.to_N b]
  | None => Failed (lit "index out of range")
  end.

(** [str.isspace] on a code point that decoding ASCII with
    [errors='replace'] can give (U+FFFD is no white space). *)
Definition is_space (c : N) : bool :=
  (((9 <=? c) && (c <=? 13)) || ((28 <=? c) && (c <=? 32)))%N.

Fixpoint lstrip (t : text) : text :=
  match t with
  | c :: t' => if is_space c then lstrip t' else t
  | [] => []
  end.

(** [t.strip()] *)
Definition strip (t : text) : text := rev (lstrip (rev (lstrip t))).

(** [payload[lo:hi].decode('ascii', errors='replace').strip()] *)
Definition field (payload : bytes) (lo hi : nat) : text :=
  strip (decode_replace (slice payload lo hi)).

(** Successive assignments [record[k] = v]. *)
Definition assign (record : Decoders.record) (kvs : list (string * value))
  : Decoders.record :=
  fold_left (fun r kv => setitem r (fst kv) (snd kv)) kvs record.

(** The branches of lines 31-206, in their order. *)
Definition seconds_timestamp (payload : bytes) (record : Decoders.record)
  : outcome Decoders.record :=
  if 5 <=? len payload then
    seconds <- unpack_uint 4 (slice payload 1 5) ;;
    Done (assign record
            [("seconds", VInt seconds);
             ("description",
              VStr (lit "Timestamp: " ++ str seconds
                    ++ lit "s past midnight")%list)])
  else Done record.

Definition stock_directory (payload : bytes) (record : Decoders.record)
  : outcome Decoders.record :=
  if 47 <=? len payload then
    let symbol := field payload 11 23 in
    let market := field payload 43 47 in
    Done (assign record
            [("symbol", VStr symbol); ("market", VStr market);
             ("description",
              VStr (lit "Symbol: " ++ symbol ++ lit ", Market: "
                    ++ market)%list)])
  else Done record.

Definition system_event (payload : bytes) (record : Decoders.record)
  : outcome Decoders.record :=
  if 18 <=? len payload then
    event_code <- chr_at payload 17 ;;
    Done (assign record
            [("event_code", VStr event_code);
             ("description",
              VStr (lit "System Event: " ++ event_code)%list)])
  else Done record.

Definition trading_status (payload : bytes) (record : Decoders.record)
  : outcome Decoders.record :=
  if 21 <=? len payload then
    let symbol := field payload 11 23 in
    status <- chr_at payload 20 ;;
    Done (assign record
            [("symbol", VStr symbol); ("status", VStr status);
             ("description",
              VStr (lit "Trading Status: " ++ symbol ++ lit " = "
                    ++ status)%list)])
  else Done record.

Definition reg_sho (payload : bytes) (record : Decoders.record)
  : outcome Decoders.record :=
  if 20 <=? len payload then
    let symbol := field payload 11 23 in
    action <- chr_at payload 19 ;;
    Done (assign record
            [("symbol", VStr symbol); ("action", VStr action);
             ("description",
              VStr (lit "Reg SHO: " ++ symbol ++ lit " = " ++ action)%list)])
  else Done record.

(** The branches L, V and W differ by their guard and their label. *)
Definition symbol_only (least : Z) (label : string) (payload : bytes)
  (record : Decoders.record) : outcome Decoders.record :=
  if least <=? len payload then
    let symbol := field payload 11 23 in
    Done (assign record
            [("symbol", VStr symbol);
             ("description", VStr (lit label ++ symbol)%list)])
  else Done record.

Definition add_order (payload : bytes) (record : Decoders.record)
  : outcome Decoders.record :=
  if 30 <=? len payload then
    timestamp <- unpack_uint 4 (slice payload 1 5) ;;
    order_id <- unpack_uint 8 (slice payload 5 13) ;;
    let symbol := field payload 13 21 in
    qty <- unpack_uint 4 (slice payload 21 25) ;;
    price <- unpack_uint 4 (slice payload 25 29) ;;
    side <- chr_at payload 29 ;;
    Done (assign record
            [("timestamp", VInt timestamp); ("order_id", VInt order_id);
             ("symbol", VStr symbol); ("quantity", VInt qty);
             ("price", VFloat (true_div price 100)); ("side", VStr side);
             ("description",
              VStr (lit "Add Order: " ++ symbol ++ lit " " ++ str qty
                    ++ lit "@" ++ fmt2 (true_div price 100) ++ lit " "
                    ++ side)%list)])
  else Done record.

Definition order_executed_pse (payload : bytes) (record : Decoders.record)
  : outcome Decoders.record :=
  if 25 <=? len payload then
    timestamp <- unpack_uint 4 (slice payload 1 5) ;;
    order_id <- unpack_uint 8 (slice payload 5 13) ;;
    qty <- unpack_uint 4 (slice payload 13 17) ;;
    price <- unpack_uint 4 (slice payload 17 21) ;;
    Done (assign record
            [("timestamp", VInt timestamp); ("order_id", VInt order_id);
             ("quantity", VInt qty); ("price", VFloat (true_div price 100));
             ("description",
              VStr (lit "Execute: " ++ str qty ++ lit "@"
                    ++ fmt2 (true_div price 100))%list)])
  else Done record.

(** The branches E and C differ by their guard and their label. *)
Definition order_executed (least : Z) (label : string) (payload : bytes)
  (record : Decoders.record) : outcome Decoders.record :=
  if least <=? len payload then
    order_id <- unpack_uint 8 (slice payload 11 19) ;;
    qty <- unpack_uint 4 (slice payload 19 23) ;;
    price <- unpack_uint 4 (slice payload 23 27) ;;
    Done (assign record
            [("order_id", VInt order_id); ("quantity", VInt qty);
             ("price", VFloat (true_div price 10000));
             ("description",
              VStr (lit label ++ str qty ++ lit "@"
                    ++ fmt2 (true_div price 10000))%list)])
  else Done record.

Definition cancel_order (payload : bytes) (record : Decoders.record)
  : outcome Decoders.record :=
  if 23 <=? len payload then
    order_id <- unpack_uint 8 (slice payload 11 19) ;;
    qty <- unpack_uint 4 (slice payload 19 23) ;;
    Done (assign record
            [("order_id", VInt order_id); ("quantity", VInt qty);
             ("description", VStr (lit "Cancel Order: -" ++ str qty)%list)])
  else Done record.

Definition delete_order (payload : bytes) (record : Decoders.record)
  : outcome Decoders.record :=
  if 13 <=? len payload then
    timestamp <- unpack_uint 4 (slice payload 1 5) ;;
    order_id <- unpack_uint 8 (slice payload 5 13) ;;
    Done (assign record
            [("timestamp", VInt timestamp); ("order_id", VInt order_id);
             ("quantity", VInt 0);
             ("description",
              VStr (lit "Delete Order: " ++ str order_id)%list)])
  else Done record.

Definition replace_order (payload : bytes) (record : Decoders.record)
  : outcome Decoders.record :=
  if 25 <=? len payload then
    timestamp <- unpack_uint 4 (slice payload 1 5) ;;
    old_order_id <- unpack_uint 8 (slice payload 5 13) ;;
    new_order_id <- unpack_uint 8 (slice payload 13 21) ;;
    qty <- unpack_uint 4 (slice payload 21 25) ;;
    Done (assign record
            [("timestamp", VInt timestamp);
             ("old_order_id", VInt old_order_id);
             ("order_id", VInt new_order_id); ("quantity", VInt qty);
             ("description",
              VStr (lit "Replace Order: " ++ str old_order_id ++ lit " -> "
                    ++ str new_order_id ++ lit " " ++ str qty)%list)])
  else Done record.

Definition trade (payload : bytes) (record : Decoders.record)
  : outcome Decoders.record :=
  if 43 <=? len payload then
    order_id <- unpack_uint 8 (slice payload 11 19) ;;
    qty <- unpack_uint 4 (slice payload 19 23) ;;
    let symbol := field payload 23 35 in
    price <- unpack_uint 4 (slice payload 35 39) ;;
    buyer_order_id <- unpack_uint 8 (slice payload 39 47) ;;
    Done (assign record
            [("order_id", VInt order_id); ("quantity", VInt qty);
             ("symbol", VStr symbol);
             ("price", VFloat (true_div price 10000));
             ("buyer_order_id", VInt buyer_order_id);
             ("description",
              VStr (lit "Trade: " ++ symbol ++ lit " " ++ str qty
                    ++ lit "@" ++ fmt2 (true_div price 10000))%list)])
  else Done record.

Definition cross_trade (payload : bytes) (record : Decoders.record)
  : outcome Decoders.record :=
  if 43 <=? len payload then
    qty <- unpack_uint 4 (slice payload 11 15) ;;
    let symbol := field payload 15 27 in
    price <- unpack_uint 4 (slice payload 27 31) ;;
    Done (assign record
            [("quantity", VInt qty); ("symbol", VStr symbol);
             ("price", VFloat (true_div price 10000));
             ("description",
              VStr (lit "Cross Trade: " ++ symbol ++ lit " " ++ str qty
                    ++ lit "@" ++ fmt2 (true_div price 10000))%list)])
  else Done record.

Definition broken_trade (payload : bytes) (record : Decoders.record)
  : outcome Decoders.record :=
  if 19 <=? len payload then
    order_id <- unpack_uint 8 (slice payload 11 19) ;;
    Done (assign record
            [("order_id", VInt order_id);
             ("description",
              VStr (lit "Broken Trade: " ++ str order_id)%list)])
  else Done record.

(** The NOII branch of lines 192-206 tests for ['A'] a second time. *)
Definition noii (payload : bytes) (record : Decoders.record)
  : outcome Decoders.record :=
  if 49 <=? len payload then
    pairing_qty <- unpack_uint 8 (slice payload 11 19) ;;
    imbalance_qty <- unpack_uint 8 (slice payload 19 27) ;;
    imbalance_side <- chr_at payload 27 ;;
    let symbol := field payload 28 40 in
    far_price <- unpack_uint 4 (slice payload 40 44) ;;
    near_price <- unpack_uint 4 (slice payload 44 48) ;;
    Done (assign record
            [("pairing_qty", VInt pairing_qty);
             ("imbalance_qty", VInt imbalance_qty);
             ("imbalance_side", VStr imbalance_side);
             ("symbol", VStr symbol);
             ("far_price", VFloat (true_div far_price 10000));
             ("near_price", VFloat (true_div near_price 10000));
             ("description",
              VStr (lit "NOII: " ++ symbol ++ lit " Imbalance: "
                    ++ str imbalance_qty ++ lit " "
                    ++ imbalance_side)%list)])
  else Done record.

(** The chain of [if msg_type == ...] of lines 31-206; [t] is the code
    point of [msg_type]. *)
Definition by_type (t : N) (payload : bytes) (record : Decoders.record)
  : outcome Decoders.record :=
  if (t =? 84)%N then seconds_timestamp payload record
  else if (t =? 82)%N then stock_directory payload record
  else if (t =? 83)%N then system_event payload record
  else if (t =? 72)%N then trading_status payload record
  else if (t =? 89)%N then reg_sho payload record
  else if (t =? 76)%N then symbol_only 20 "IPO: " payload record
  else if (t =? 86)%N then symbol_only 35 "LULD: " payload record
  else if (t =? 87)%N then symbol_only 20 "IPO Quoting: " payload record
  else if (t =? 65)%N then add_order payload record
  else if (t =? 101)%N then order_executed_pse payload record
  else if (t =? 69)%N then order_executed 30 "Executed: " payload record
  else if (t =? 67)%N then
    order_executed 35 "Executed (Partial): " payload record
  else if (t =? 88)%N then cancel_order payload record
  else if (t =? 68)%N then delete_order payload record
  else if (t =? 85)%N then replace_order payload record
  else if (t =? 80)%N then trade payload record
  else if (t =? 81)%N then cross_trade payload record
  else if (t =? 66)%N then broken_trade payload record
  else if (t =? 65)%N then noii payload record
  else Done record.

(** Lines 25-212 for a payload that starts with [b0]: the record appended
    to [records].  Every branch assigns after its last step that can
    raise, so a caught exception finds the record as line 28 made it. *)
Definition parse_message (b0 : Byte.byte) (payload : bytes) (msg_len : Z)
  : record :=
  let record := [("message_type", VStr [Byte.to_N b0]);
                 ("raw_length", VInt msg_len)] in
  match by_type (Byte.to_N b0) payload record with
  | Done record' => record'
  | Failed message => setitem record "error" (VStr message)
  end.

(** [struct.unpack('>H', b)[0]] outside the [try]. *)
Definition unpack_H (b : bytes) : result Z :=
  if Nat.eqb (List.length b) 2 then Ok (from_bytes_big b)
  else Raise StructError.

(** The loop of lines 12-212 on the bytes not yet read.  Each pass reads at
    least two bytes, so [fuel] above the number of bytes is never used
    up. *)
Fixpoint read_messages (fuel : nat) (f : bytes) (records : list record)
  : option (result (list record)) :=
  match fuel with
  | O => None
  | S fuel' =>
      match firstn 2 f with
      | [] => Some (Ok records)
      | len_bytes =>
          match unpack_H len_bytes with
          | Raise e => Some (Raise e)
          | Ok msg_len =>
              match firstn (Z.to_nat msg_len) (skipn 2 f) with
              | [] => Some (Ok records)
              | b0 :: rest =>
                  read_messages fuel'
                    (skipn (Z.to_nat msg_len) (skipn 2 f))
                    (records ++ [parse_message b0 (b0 :: rest) msg_len])
              end
          end
      end
  end.

(** [parse_itch]: the records it returns, or the exception it raises. *)
Definition parse_itch (f : bytes) : option (result (list record)) :=
  read_messages (S (List.length f)) f [].

End Parser.

(* ================================================================= *)
(** ** Notions about the framing *)

Module ParserSpec.
Import Py Decoders Parser.

(** The byte of a number below 256. *)
Definition byte_of (n : Z) : Byte.byte :=
  match Byte.of_N (Z.to_N n) with
  | Some b => b
  | None => Byte.x00
  end.

(** The two bytes of a length, big-endian. *)
Definition length_word (n : Z) : bytes :=
  [byte_of (n / 256); byte_of (n mod 256)].

(** A message as the file holds it: its length, then its payload. *)
Definition framed (payload : bytes) : bytes :=
  (length_word (len payload) ++ payload)%list.

(** A payload a length word can announce: not empty, below 65536 bytes. *)
Definition sendable (payload : bytes) : Prop :=
  0 < len payload < 65536.

(** The record of a whole payload. *)
Definition record_of (payload : bytes) : record :=
  match payload with
  | b0 :: _ => parse_message b0 payload (len payload)
  | [] => []
  end.

End ParserSpec.

(* ================================================================= *)
(** ** Sample rows and frames *)

Module Samples.
Import Py OrderBook.

(** A complete row: every cell is text. *)
Definition cells (l : list (string * string)) : row :=
  map (fun kv => (fst kv, Some (snd kv))) l.

Definition add (id sym sd p q : string) : row :=
  cells [("message_type", "A"); ("order_id", id); ("symbol", sym);
         ("side", sd); ("price", p); ("quantity", q)].

Definition execute (id q : string) : row :=
  cells [("message_type", "e"); ("order_id", id); ("quantity", q)].

Definition delete (id : string) : row :=
  cells [("message_type", "D"); ("order_id", id)].

Definition replace (old new p q : string) : row :=
  cells [("message_type", "U"); ("old_order_id", old); ("order_id", new);
         ("price", p); ("quantity", q)].

Definition trigger (seconds : string) : row :=
  cells [("message_type", "T"); ("seconds", seconds)].

(** A line cut short after the identifier: the remaining cells are [None]. *)
Definition truncated_add : row :=
  [("message_type", Some "A"); ("order_id", Some "1"); ("symbol", None);
   ("side", None); ("price", None); ("quantity", None)].

(** The float [10.0]. *)
Definition ten : float := S754_finite false 5629499534213120 (-49).

(** Order 1 of the scenarios: 100 of ABC bid at 10.00. *)
Definition order1 : order := mkOrder "ABC" "B" ten 100 0.

Definition book1 : state := mkState [(Some "1", order1)] [].


(** Eight bids of ABC at eight prices, 1.00 to 8.00, and one ask. *)
Definition rows8 : list row :=
  [add "1" "ABC" "B" "3.00" "10"; add "2" "ABC" "B" "8.00" "20";
   add "3" "ABC" "B" "1.00" "30"; add "4" "ABC" "B" "6.00" "40";
   add "5" "ABC" "B" "2.00" "50"; add "6" "ABC" "B" "7.00" "60";
   add "7" "ABC" "B" "5.00" "70"; add "8" "ABC" "B" "4.00" "80";
   add "9" "ABC" "S" "9.00" "90"].


End Samples.

(* ================================================================= *)
(** ** Order and equality of floats *)

Module FloatFacts.
Import Py.

Ltac cmp_cases :=
  repeat match goal with
  | |- context [Z.compare ?a ?b] => destruct (Z.compare_spec a b)
  | H : context [Z.compare ?a ?b] |- _ => destruct (Z.compare_spec a b)
  | |- context [Pos.compare_cont Eq ?a ?b] =>
      change (Pos.compare_cont Eq a b) with (Pos.compare a b);
      destruct (Pos.compare_spec a b)
  | H : context [Pos.compare_cont Eq ?a ?b] |- _ =>
      change (Pos.compare_cont Eq a b) with (Pos.compare a b) in H;
      destruct (Pos.compare_spec a b)
  end.

Lemma SFcompare_some a b :
  is_nan a = false -> is_nan b = false -> exists c, SFcompare a b = Some c.
Proof. destruct a, b; simpl; intros; try discriminate; eauto. Qed.

Lemma SFcompare_sym a b c :
  SFcompare a b = Some c -> SFcompare b a = Some (CompOpp c).
Proof.
  destruct a as [sa|sa| |sa ma ea], b as [sb|sb| |sb mb eb]; simpl;
    intros H; try discriminate;
    try (destruct sa); try (destruct sb); simpl in *;
    inversion H; subst; clear H; try reflexivity;
    f_equal; cmp_cases; subst; simpl; try reflexivity; try lia.
Qed.

Lemma SFcompare_trans a b c x :
  SFcompare a b = Some x -> SFcompare b c = Some x -> SFcompare a c = Some x.
Proof.
  destruct a as [sa|sa| |sa ma ea], b as [sb|sb| |sb mb eb],
           c as [sc|sc| |sc mc ec]; simpl; intros H1 H2; try discriminate;
    try (destruct sa); try (destruct sb); try (destruct sc); simpl in *;
    try congruence;
    inversion H1; subst; clear H1; inversion H2 as [H3]; clear H2; f_equal;
    cmp_cases; subst; simpl in *; try reflexivity; try discriminate; try lia.
Qed.

Lemma SFcompare_eq_l a b c :
  SFcompare a b = Some Eq -> SFcompare a c = SFcompare b c.
Proof.
  destruct a as [sa|sa| |sa ma ea], b as [sb|sb| |sb mb eb],
           c as [sc|sc| |sc mc ec]; simpl; intros H1; try discriminate;
    try reflexivity;
    try (destruct sa); try (destruct sb); try (destruct sc); simpl in *;
    try congruence; try reflexivity;
    inversion H1 as [H2]; clear H1; f_equal;
    cmp_cases; subst; simpl in *; try reflexivity; try discriminate; try lia.
Qed.

Lemma SFcompare_refl a : is_nan a = false -> SFcompare a a = Some Eq.
Proof.
  destruct a as [s|s| |s m e]; simpl; intros H; try discriminate;
    try reflexivity; destruct s; try reflexivity;
    rewrite Z.compare_refl;
    change (Pos.compare_cont Eq m m) with (Pos.compare m m);
    rewrite Pos.compare_refl; reflexivity.
Qed.

Lemma float_eq_refl a : is_nan a = false -> float_eq a a = true.
Proof.
  intros H. unfold float_eq, SFeqb. rewrite SFcompare_refl by assumption.
  reflexivity.
Qed.

Lemma float_eq_sym a b : float_eq a b = float_eq b a.
Proof.
  unfold float_eq, SFeqb.
  destruct (SFcompare a b) as [c|] eqn:E.
  - rewrite (SFcompare_sym _ _ _ E). destruct c; reflexivity.
  - destruct (SFcompare b a) as [c|] eqn:E'; [|reflexivity].
    rewrite (SFcompare_sym _ _ _ E') in E. discriminate.
Qed.

Lemma float_eq_compare a b : float_eq a b = true <-> SFcompare a b = Some Eq.
Proof.
  unfold float_eq, SFeqb. destruct (SFcompare a b) as [[]|]; split;
    intros; try reflexivity; try discriminate.
Qed.

Lemma float_lt_compare a b : float_lt a b = true <-> SFcompare a b = Some Lt.
Proof.
  unfold float_lt, SFltb. destruct (SFcompare a b) as [[]|]; split;
    intros; try reflexivity; try discriminate.
Qed.


Lemma float_lt_trans a b c :
  float_lt a b = true -> float_lt b c = true -> float_lt a c = true.
Proof.
  rewrite !float_lt_compare. apply SFcompare_trans.
Qed.

Lemma float_eq_not_nan a b :
  float_eq a b = true -> is_nan a = false /\ is_nan b = false.
Proof.
  rewrite float_eq_compare. destruct a, b; simpl; intros; try discriminate;
    split; reflexivity.
Qed.

Lemma float_lt_eq_l a b c :
  float_eq a b = true -> float_lt a c = float_lt b c.
Proof.
  rewrite float_eq_compare. intros H. unfold float_lt, SFltb.
  rewrite (SFcompare_eq_l _ _ c H). reflexivity.
Qed.

Lemma float_lt_eq_r a b c :
  float_eq a b = true -> float_lt c a = float_lt c b.
Proof.
  intros H. unfold float_lt, SFltb.
  assert (Hc : forall x y, SFcompare x y =
                 match SFcompare y x with Some k => Some (CompOpp k) | None => None end).
  { intros x y. destruct (SFcompare y x) as [k|] eqn:E.
    - apply SFcompare_sym. assumption.
    - destruct (SFcompare x y) as [k|] eqn:E'; [|reflexivity].
      rewrite (SFcompare_sym _ _ _ E') in E. discriminate. }
  rewrite (Hc c a), (Hc c b).
  apply float_eq_compare in H. rewrite (SFcompare_eq_l _ _ c H). reflexivity.
Qed.

Lemma float_lt_not_eq a b : float_lt a b = true -> float_eq a b = false.
Proof.
  unfold float_lt, float_eq, SFltb, SFeqb.
  destruct (SFcompare a b) as [[]|]; intros; try reflexivity; discriminate.
Qed.

Lemma float_lt_asym a b : float_lt a b = true -> float_lt b a = false.
Proof.
  rewrite float_lt_compare. intros H. unfold float_lt, SFltb.
  rewrite (SFcompare_sym _ _ _ H). reflexivity.
Qed.

(** On numbers, [<] is total up to [==]. *)
Lemma float_total a b :
  is_nan a = false -> is_nan b = false ->
  float_lt a b = true \/ float_eq a b = true \/ float_lt b a = true.
Proof.
  intros Ha Hb. destruct (SFcompare_some a b Ha Hb) as [c E].
  unfold float_lt, float_eq, SFltb, SFeqb.
  rewrite (SFcompare_sym _ _ _ E), E. destruct c; simpl; auto.
Qed.

End FloatFacts.

(* ================================================================= *)
(** ** Facts about dictionaries *)

Module DictFacts.
Import BookSpec.

Section Facts.
Context {K V : Type}.
Variable eqb : K -> K -> bool.
Hypothesis eqb_sym : forall a b, eqb a b = eqb b a.
Hypothesis eqb_trans :
  forall a b c, eqb a b = true -> eqb b c = true -> eqb a c = true.

Implicit Types (d : list (K * V)) (k : K) (v : V).

Lemma eqb_false_l a b c : eqb a b = true -> eqb a c = false -> eqb b c = false.
Proof.
  intros Hab Hac. destruct (eqb b c) eqn:E; [|reflexivity].
  rewrite (eqb_trans _ _ _ Hab E) in Hac. discriminate.
Qed.

Lemma get_set d k v k' :
  Dict.get eqb (Dict.set eqb d k v) k'
  = if eqb k k' then Some v else Dict.get eqb d k'.
Proof.
  induction d as [|[j w] d IH]; simpl.
  - reflexivity.
  - destruct (eqb j k) eqn:Ejk; simpl.
    + destruct (eqb k k') eqn:Ekk.
      * rewrite (eqb_trans _ _ _ Ejk Ekk). reflexivity.
      * rewrite (eqb_false_l k j k'); [reflexivity| |assumption].
        rewrite eqb_sym. assumption.
    + destruct (eqb j k') eqn:Ejk'.
      * destruct (eqb k k') eqn:Ekk; [|reflexivity].
        rewrite eqb_sym in Ekk.
        rewrite (eqb_trans _ _ _ Ejk' Ekk) in Ejk. discriminate.
      * apply IH.
Qed.

Lemma get_In d k v : Dict.get eqb d k = Some v -> exists j, In (j, v) d /\ eqb j k = true.
Proof.
  induction d as [|[j w] d IH]; simpl; intros H.
  - discriminate.
  - destruct (eqb j k) eqn:E.
    + inversion H; subst. exists j. auto.
    + destruct (IH H) as [j' [Hin Hj]]. exists j'. auto.
Qed.

Lemma get_none d k :
  Dict.get eqb d k = None <-> Forall (fun j => eqb j k = false) (Dict.keys d).
Proof.
  induction d as [|[j w] d IH]; simpl.
  - split; intros; [constructor|reflexivity].
  - destruct (eqb j k) eqn:E; split; intros H.
    + discriminate.
    + inversion H; subst. congruence.
    + constructor; [assumption|]. apply IH. assumption.
    + inversion H; subst. apply IH. assumption.
Qed.

Lemma keys_set d k v :
  Dict.keys (Dict.set eqb d k v)
  = if Dict.mem eqb d k then Dict.keys d else (Dict.keys d ++ [k])%list.
Proof.
  unfold Dict.mem. induction d as [|[j w] d IH]; simpl.
  - reflexivity.
  - destruct (eqb j k) eqn:E; simpl; [reflexivity|].
    rewrite IH. destruct (Dict.get eqb d k); reflexivity.
Qed.

Lemma wf_set d k v : wf eqb d -> wf eqb (Dict.set eqb d k v).
Proof.
  unfold wf. rewrite keys_set. unfold Dict.mem.
  destruct (Dict.get eqb d k) eqn:E; [trivial|].
  apply get_none in E. revert E.
  induction (Dict.keys d) as [|j ks IH]; simpl; intros E Hwf.
  - constructor; constructor.
  - inversion E; subst. inversion Hwf; subst.
    constructor.
    + apply Forall_app. split; [assumption|]. constructor; [assumption|constructor].
    + apply IH; assumption.
Qed.

Lemma keys_remove_incl d k : incl (Dict.keys (Dict.remove eqb d k)) (Dict.keys d).
Proof.
  induction d as [|[j w] d IH]; simpl.
  - apply incl_refl.
  - destruct (eqb j k); simpl.
    + apply incl_tl, incl_refl.
    + intros x [Hx|Hx]; [left; assumption|right; apply IH; assumption].
Qed.

Lemma wf_remove d k : wf eqb d -> wf eqb (Dict.remove eqb d k).
Proof.
  unfold wf. induction d as [|[j w] d IH]; simpl; intros H.
  - constructor.
  - inversion H; subst. destruct (eqb j k); simpl; [assumption|].
    constructor; [|apply IH; assumption].
    rewrite Forall_forall in *. intros x Hx.
    match goal with H : forall _, In _ _ -> _ |- _ => apply H end.
    apply (keys_remove_incl d k). assumption.
Qed.

Lemma get_remove d k k' :
  wf eqb d ->
  Dict.get eqb (Dict.remove eqb d k) k'
  = if eqb k k' then None else Dict.get eqb d k'.
Proof.
  unfold wf. induction d as [|[j w] d IH]; simpl; intros Hwf.
  - destruct (eqb k k'); reflexivity.
  - inversion Hwf as [|? ? Hj Hd]; subst.
    destruct (eqb j k) eqn:Ejk; simpl.
    + destruct (eqb k k') eqn:Ekk.
      * apply get_none. rewrite Forall_forall in *. intros x Hx.
        specialize (Hj x Hx).
        destruct (eqb x k') eqn:Ex; [|reflexivity].
        rewrite eqb_sym in Ekk. rewrite eqb_sym in Ejk.
        pose proof (eqb_trans _ _ _ Ex Ekk) as Hxk.
        pose proof (eqb_trans _ _ _ Hxk Ejk) as Hxj.
        rewrite eqb_sym in Hxj. congruence.
      * rewrite (eqb_false_l k j k'); [reflexivity| |assumption].
        rewrite eqb_sym. assumption.
    + rewrite (IH Hd).
      destruct (eqb j k') eqn:Ejk'; [|reflexivity].
      destruct (eqb k k') eqn:Ekk; [|reflexivity].
      rewrite eqb_sym in Ekk.
      rewrite (eqb_trans _ _ _ Ejk' Ekk) in Ejk. discriminate.
Qed.

Lemma remove_set d k v :
  eqb k k = true ->
  Dict.remove eqb (Dict.set eqb d k v) k = Dict.remove eqb d k.
Proof.
  intros Hk. induction d as [|[j w] d IH]; simpl.
  - rewrite Hk. reflexivity.
  - destruct (eqb j k) eqn:E; simpl; rewrite E; [reflexivity|].
    rewrite IH. reflexivity.
Qed.

Lemma remove_absent d k : Dict.get eqb d k = None -> Dict.remove eqb d k = d.
Proof.
  induction d as [|[j w] d IH]; simpl; intros H; [reflexivity|].
  destruct (eqb j k); [discriminate|]. rewrite IH by assumption. reflexivity.
Qed.

End Facts.

(** The three key equalities in use. *)
Lemma id_eqb_eq a b : OrderBook.id_eqb a b = true <-> a = b.
Proof.
  destruct a, b; simpl; split; intros H; try discriminate; try reflexivity.
  - apply String.eqb_eq in H. congruence.
  - inversion H; subst. apply String.eqb_refl.
Qed.

Lemma id_eqb_refl a : OrderBook.id_eqb a a = true.
Proof. apply id_eqb_eq. reflexivity. Qed.

Lemma id_eqb_sym a b : OrderBook.id_eqb a b = OrderBook.id_eqb b a.
Proof.
  destruct (OrderBook.id_eqb a b) eqn:E1, (OrderBook.id_eqb b a) eqn:E2;
    try reflexivity.
  - apply id_eqb_eq in E1. subst. rewrite id_eqb_refl in E2. discriminate.
  - apply id_eqb_eq in E2. subst. rewrite id_eqb_refl in E1. discriminate.
Qed.

Lemma id_eqb_trans a b c :
  OrderBook.id_eqb a b = true -> OrderBook.id_eqb b c = true ->
  OrderBook.id_eqb a c = true.
Proof. rewrite !id_eqb_eq. congruence. Qed.

Lemma str_eqb_trans (a b c : string) :
  String.eqb a b = true -> String.eqb b c = true -> String.eqb a c = true.
Proof. rewrite !String.eqb_eq. congruence. Qed.

End DictFacts.

(* ================================================================= *)
(** ** Properties of the order store *)

Module OrderBookProps.
Import Py OrderBook BookSpec DictFacts.

Ltac run :=
  unfold Stmt.try_pass, Stmt.bind, Stmt.eval, Stmt.ret, get_orders, set_orders in *;
  simpl in *.


Lemma int_raise s e : Py.int s = Raise e -> e = ValueError.
Proof.
  unfold Py.int. destruct (sign_of _) as [neg l1].
  destruct (digitpart l1 0) as [[[v c] [|x l']]|]; congruence.
Qed.

Lemma float_raise s e : float_of_str s = Raise e -> e = ValueError.
Proof.
  unfold float_of_str. destruct (sign_of _) as [neg l1].
  destruct (_ || _)%bool; [discriminate|].
  destruct (_ =? "nan")%string; [discriminate|].
  destruct (int_part l1) as [[m0 n0] l2].
  destruct (frac_part m0 l2) as [[m n1] l3].
  destruct (n0 + n1 =? 0); [congruence|].
  destruct (exponent_part l3); congruence.
Qed.

Lemma int_of_raise c e : truthy c = true -> int_of c = Raise e -> e = ValueError.
Proof. destruct c; simpl; [intros _; apply int_raise|discriminate]. Qed.

Lemma float_of_raise c e : truthy c = true -> float_of c = Raise e -> e = ValueError.
Proof. destruct c; simpl; [intros _; apply float_raise|discriminate]. Qed.

Lemma process_row_is r t :
  is_type r t = true ->
  row_get r "message_type" None = Some t.
Proof.
  unfold is_type, cell_is. destruct (row_get r "message_type" None); [|discriminate].
  intros H. apply String.eqb_eq in H. congruence.
Qed.

Lemma process_row_A r : is_type r "A" = true -> process_row r = add_order r.
Proof. intros H. unfold process_row. rewrite (process_row_is _ _ H). reflexivity. Qed.

Lemma process_row_e r : is_type r "e" = true -> process_row r = execute_order r.
Proof. intros H. unfold process_row. rewrite (process_row_is _ _ H). reflexivity. Qed.

Lemma process_row_D r : is_type r "D" = true -> process_row r = delete_order r.
Proof. intros H. unfold process_row. rewrite (process_row_is _ _ H). reflexivity. Qed.

Lemma process_row_U r : is_type r "U" = true -> process_row r = replace_order r.
Proof. intros H. unfold process_row. rewrite (process_row_is _ _ H). reflexivity. Qed.

Lemma process_row_T r : is_type r "T" = true -> process_row r = snapshot_book r.
Proof. intros H. unfold process_row. rewrite (process_row_is _ _ H). reflexivity. Qed.

Lemma get_set_id (d : store) k v k' :
  Dict.get id_eqb (Dict.set id_eqb d k v) k'
  = if id_eqb k k' then Some v else Dict.get id_eqb d k'.
Proof. apply get_set; [apply id_eqb_sym|apply id_eqb_trans]. Qed.

Lemma get_remove_id (d : store) k k' :
  wf id_eqb d ->
  Dict.get id_eqb (Dict.remove id_eqb d k) k'
  = if id_eqb k k' then None else Dict.get id_eqb d k'.
Proof. apply get_remove; [apply id_eqb_sym|apply id_eqb_trans]. Qed.

(** *** Delete *)

Lemma delete_order_eq r s :
  delete_order r s =
  (Ok tt,
   if truthy (row_id r) && Dict.mem id_eqb (orders s) (row_id r)
   then mkState (Dict.remove id_eqb (orders s) (row_id r)) (snapshots_by_ticker s)
   else s).
Proof.
  unfold delete_order, row_id, Dict.delitem. run.
  destruct (truthy _); simpl; [|reflexivity].
  destruct (Dict.mem _ _ _) eqn:E; simpl; reflexivity.
Qed.

(** *** Execute *)

Lemma execute_absent r s :
  Dict.get id_eqb (orders s) (row_id r) = None ->
  execute_order r s = (Ok tt, s).
Proof.
  intros H. unfold execute_order, row_id, Dict.mem in *. run. rewrite H.
  reflexivity.
Qed.

Lemma execute_malformed r s e :
  executed_quantity r = Raise e -> execute_order r s = (Ok tt, s).
Proof.
  unfold executed_quantity, execute_order, Dict.mem. run. intros H.
  destruct (Dict.get id_eqb (orders s) _); [|reflexivity].
  destruct (truthy (row_get r "quantity" (Some "0"))) eqn:T; [|discriminate].
  rewrite H. rewrite (int_of_raise _ _ T H). reflexivity.
Qed.

Lemma execute_present r s o e :
  Dict.get id_eqb (orders s) (row_id r) = Some o ->
  executed_quantity r = Ok e ->
  execute_order r s =
  (Ok tt,
   mkState
     (if qty o - e <=? 0
      then Dict.remove id_eqb (orders s) (row_id r)
      else Dict.set id_eqb (orders s) (row_id r)
             (mkOrder (symbol o) (side o) (price o) (qty o - e) (timestamp o)))
     (snapshots_by_ticker s)).
Proof.
  unfold executed_quantity, execute_order, row_id, Dict.mem, Dict.getitem, Dict.delitem.
  run. intros Hg He. rewrite Hg. rewrite He. simpl.
  unfold Dict.mem. rewrite !get_set_id, id_eqb_refl. simpl.
  destruct (qty o - e <=? 0); simpl; [|reflexivity].
  rewrite remove_set; [reflexivity|apply id_eqb_refl].
Qed.


(** *** Add *)

Lemma add_order_state r s :
  snd (add_order r s) = s \/
  exists o,
    snd (add_order r s)
    = mkState (Dict.set id_eqb (orders s) (row_id r) o) (snapshots_by_ticker s)
    /\ truthy (row_id r) = true
    /\ cell_strip (row_get r "symbol" (Some "")) = Ok (symbol o)
    /\ str_truthy (symbol o) = true
    /\ (let q := row_get r "quantity" (Some "0") in
        (if truthy q then int_of q else Ok 0) = Ok (qty o))
    /\ (let p := row_get r "price" (Some "0") in
        (if truthy p then float_of p else Ok zero) = Ok (price o)).
Proof.
  unfold add_order, row_id. run.
  destruct (cell_strip (row_get r "symbol" (Some ""))) as [sy|e]; simpl; [|auto].
  destruct (cell_strip (row_get r "side" (Some "B"))) as [sd|e]; simpl; [|auto].
  destruct (truthy (row_get r "order_id" None)) eqn:Tid; simpl; [|auto].
  destruct (str_truthy sy) eqn:Tsy; simpl; [|auto].
  destruct (if truthy (row_get r "price" (Some "0")) then _ else _) as [p|e]
    eqn:Ep; simpl; [|destruct e; simpl; auto].
  destruct (if truthy (row_get r "quantity" (Some "0")) then _ else _) as [q|e]
    eqn:Eq; simpl; [|destruct e; simpl; auto].
  destruct (if truthy (row_get r "timestamp" _) then _ else _) as [t|e];
    simpl; [|destruct e; simpl; auto].
  right. eexists. split; [reflexivity|]. simpl. auto.
Qed.


(** *** Replace *)

Lemma replace_absent r s :
  Dict.get id_eqb (orders s) (row_old_id r) = None ->
  replace_order r s = (Ok tt, s).
Proof.
  intros H. unfold replace_order, row_old_id, Dict.mem in *. run. rewrite H.
  reflexivity.
Qed.

Lemma replace_present r s old p q :
  Dict.get id_eqb (orders s) (row_old_id r) = Some old ->
  replaced_price r old = Ok p ->
  replaced_quantity r old = Ok q ->
  replace_order r s =
  (Ok tt,
   mkState
     (Dict.set id_eqb (Dict.remove id_eqb (orders s) (row_old_id r)) (row_id r)
        (mkOrder (symbol old) (side old) p q (timestamp old)))
     (snapshots_by_ticker s)).
Proof.
  unfold replaced_price, replaced_quantity, replace_order, row_old_id, row_id,
    Dict.mem, Dict.getitem, Dict.delitem.
  run. intros Hg Hp Hq. unfold Dict.mem. rewrite Hg. simpl.
  rewrite Hp. simpl. rewrite Hq. reflexivity.
Qed.

Lemma replace_malformed r s old :
  Dict.get id_eqb (orders s) (row_old_id r) = Some old ->
  (exists e, replaced_price r old = Raise e) \/
  (exists e, replaced_quantity r old = Raise e) ->
  replace_order r s =
  (Ok tt,
   mkState (Dict.remove id_eqb (orders s) (row_old_id r)) (snapshots_by_ticker s)).
Proof.
  unfold replaced_price, replaced_quantity, replace_order, row_old_id, row_id,
    Dict.mem, Dict.getitem, Dict.delitem.
  run. intros Hg H. unfold Dict.mem. rewrite Hg. simpl.
  destruct (truthy (row_get r "price" (Some "0")) && _)%bool eqn:Tp.
  - apply andb_prop in Tp. destruct Tp as [Tp _].
    destruct (float_of (row_get r "price" (Some "0"))) as [p|e] eqn:Ep; simpl.
    + destruct H as [[e H]|[e H]]; [discriminate|].
      destruct (truthy (row_get r "quantity" (Some "0"))) eqn:Tq; [|discriminate].
      rewrite H. rewrite (int_of_raise _ _ Tq H). reflexivity.
    + rewrite (float_of_raise _ _ Tp Ep). reflexivity.
  - simpl. destruct H as [[e H]|[e H]]; [discriminate|].
    destruct (truthy (row_get r "quantity" (Some "0"))) eqn:Tq; [|discriminate].
    rewrite H. rewrite (int_of_raise _ _ Tq H). reflexivity.
Qed.

(** *** Snapshot: the store is only read *)

Lemma store_snapshot_orders ts entry s :
  orders (snd (store_snapshot ts entry s)) = orders s.
Proof.
  unfold store_snapshot. destruct entry as [ticker lv]. run.
  destruct (bid_levels (fst lv)); simpl; [|reflexivity].
  destruct (ask_levels (snd lv)); reflexivity.
Qed.

Lemma for_each_snapshot_orders ts l s :
  orders (snd (Stmt.for_each l (store_snapshot ts) s)) = orders s.
Proof.
  revert s. induction l as [|x l IH]; intros s; simpl; [reflexivity|].
  unfold Stmt.bind. pose proof (store_snapshot_orders ts x s) as H.
  destruct (store_snapshot ts x s) as [[u|e] s']; simpl in *.
  - rewrite IH. assumption.
  - assumption.
Qed.

Lemma snapshot_book_orders r s : orders (snd (snapshot_book r s)) = orders s.
Proof.
  unfold snapshot_book. run. apply for_each_snapshot_orders.
Qed.

(** *** The loop over the rows *)

Lemma process_rows_cons r rs s :
  process_rows (r :: rs) s =
  match process_row r s with
  | (Ok _, s') => process_rows rs s'
  | (Raise e, s') => (Raise e, s')
  end.
Proof. reflexivity. Qed.


(** *** Claim C9 *)

(** C9 (idempotent delete).  On every store, a Delete row applied twice
    leaves the state the first application left; a Delete row whose
    identifier is not in the store leaves the state as it was. *)
Theorem delete_idempotent r s :
  is_type r "D" = true ->
  wf id_eqb (orders s) ->
  exists s1,
    process_row r s = (Ok tt, s1)
    /\ process_row r s1 = (Ok tt, s1)
    /\ (Dict.get id_eqb (orders s) (row_id r) = None -> s1 = s).
Proof.
  intros HD Hwf. rewrite (process_row_D r HD). rewrite !delete_order_eq.
  eexists. split; [reflexivity|]. rewrite delete_order_eq.
  unfold Dict.mem.
  destruct (truthy (row_id r)) eqn:T; simpl.
  - destruct (Dict.get id_eqb (orders s) (row_id r)) eqn:G; simpl.
    + rewrite get_remove_id by assumption. rewrite id_eqb_refl.
      split; [reflexivity|discriminate].
    + rewrite G. simpl. split; reflexivity.
  - split; reflexivity.
Qed.

Lemma delete_idempotent_witness :
  process_row (Samples.delete "1") Samples.book1 = (Ok tt, init)
  /\ process_row (Samples.delete "1") init = (Ok tt, init).
Proof.
  destruct (delete_idempotent (Samples.delete "1") Samples.book1) as [s1 [H1 [H2 _]]].
  - reflexivity.
  - repeat constructor.
  - vm_compute in H1. inversion H1; subst. split; [reflexivity|exact H2].
Defined.

(** *** Claim C4 *)




(** Scenario A, from the rows themselves. *)
Lemma scenario_A :
  let add := Samples.add "1" "ABC" "B" "10.00" "100" in
  let e40 := Samples.execute "1" "40" in
  let e60 := Samples.execute "1" "60" in
  build_level2_simple [add] = (Ok tt, Samples.book1)
  /\ build_level2_simple [add; e40]
     = (Ok tt, mkState [(Some "1", mkOrder "ABC" "B" Samples.ten 60 0)] [])
  /\ build_level2_simple [add; e40; e60] = (Ok tt, init).
Proof. vm_compute. repeat split. Qed.


(** *** Claim C10 *)



(** *** Claim C1 *)

(** C1 (atomic replace), at a failing input.  With order 1 in the book, a
    Replace row of order 1 by order 2 whose quantity cell is not an integer
    removes order 1 and inserts nothing: the old order is retired without
    the new one being inserted. *)
Theorem replace_malformed_retires_without_insert :
  let r := Samples.replace "1" "2" "" "12.5" in
  exists s',
    process_row r Samples.book1 = (Ok tt, s')
    /\ Dict.get id_eqb (orders Samples.book1) (Some "1") = Some Samples.order1
    /\ Dict.get id_eqb (orders s') (Some "1") = None
    /\ Dict.get id_eqb (orders s') (Some "2") = None.
Proof.
  simpl. eexists. split; [vm_compute; reflexivity|]. repeat split.
Qed.

(** The part of C1 the code keeps: a Replace row whose old identifier is
    absent changes nothing, and one with well-formed fields retires the old
    order and inserts the new one in the same step. *)
Lemma replace_absent_or_well_formed r s :
  is_type r "U" = true ->
  match Dict.get id_eqb (orders s) (row_old_id r) with
  | None => process_row r s = (Ok tt, s)
  | Some old =>
      forall p q,
        replaced_price r old = Ok p ->
        replaced_quantity r old = Ok q ->
        process_row r s =
        (Ok tt,
         mkState
           (Dict.set id_eqb (Dict.remove id_eqb (orders s) (row_old_id r))
              (row_id r) (mkOrder (symbol old) (side old) p q (timestamp old)))
           (snapshots_by_ticker s))
  end.
Proof.
  intros Ht. rewrite (process_row_U r Ht).
  destruct (Dict.get id_eqb (orders s) (row_old_id r)) as [old|] eqn:G.
  - intros p q Hp Hq. apply replace_present; assumption.
  - apply replace_absent. assumption.
Qed.

(** *** Claim C2 *)

(** C2 as stated fails: an Add row of quantity 0 is stored as it is. *)
Lemma add_zero_quantity_breaks_invariant :
  build_level2_simple [Samples.add "1" "ABC" "B" "10.00" "0"]
  = (Ok tt, mkState [(Some "1", mkOrder "ABC" "B" Samples.ten 0 0)] [])
  /\ ~ positive_quantities
         (orders (snd (build_level2_simple
                         [Samples.add "1" "ABC" "B" "10.00" "0"]))).
Proof.
  split; [vm_compute; reflexivity|].
  intros H. specialize (H (Some "1") (mkOrder "ABC" "B" Samples.ten 0 0)).
  assert (E : Dict.get id_eqb
                (orders (snd (build_level2_simple
                                [Samples.add "1" "ABC" "B" "10.00" "0"])))
                (Some "1") = Some (mkOrder "ABC" "B" Samples.ten 0 0))
    by (vm_compute; reflexivity).
  specialize (H E). simpl in H. lia.
Qed.

Lemma inv_set st id o :
  store_inv st -> 0 < qty o -> store_inv (Dict.set id_eqb st id o).
Proof.
  intros [Hwf Hpos] Hq. split.
  - apply wf_set. assumption.
  - intros id' o'. rewrite get_set_id. destruct (id_eqb id id').
    + intros E. inversion E; subst. assumption.
    + apply Hpos.
Qed.

Lemma inv_remove st id : store_inv st -> store_inv (Dict.remove id_eqb st id).
Proof.
  intros [Hwf Hpos]. split.
  - apply wf_remove. assumption.
  - intros id' o'. rewrite get_remove_id by assumption.
    destruct (id_eqb id id'); [discriminate|apply Hpos].
Qed.

(** Every row acts on the store by one of the steps of [store_step]. *)
Lemma process_row_step r s :
  store_step r (orders s) (orders (snd (process_row r s))).
Proof.
  unfold process_row.
  change (cell_is (row_get r "message_type" None)) with (is_type r).
  destruct (is_type r "A") eqn:TA.
  { destruct (add_order_state r s) as [H|[o [H [_ [_ [_ [Hq Hp]]]]]]];
      rewrite H; [constructor|].
    simpl. apply step_add; assumption. }
  destruct (is_type r "e") eqn:Te.
  { destruct (Dict.get id_eqb (orders s) (row_id r)) as [o|] eqn:G.
    - destruct (executed_quantity r) as [e|e] eqn:E.
      + rewrite (execute_present r s o e G E). simpl.
        destruct (qty o - e <=? 0) eqn:L; [constructor|].
        apply Z.leb_gt in L. apply step_execute; assumption.
      + rewrite (execute_malformed r s e E). constructor.
    - rewrite (execute_absent r s G). constructor. }
  destruct (is_type r "D") eqn:TD.
  { rewrite delete_order_eq. simpl.
    destruct (truthy (row_id r) && _)%bool; constructor. }
  destruct (is_type r "U") eqn:TU.
  { destruct (Dict.get id_eqb (orders s) (row_old_id r)) as [old|] eqn:G.
    - destruct (replaced_price r old) as [p|e] eqn:Ep.
      + destruct (replaced_quantity r old) as [q|e] eqn:Eq.
        * rewrite (replace_present r s old p q G Ep Eq). simpl.
          apply step_replace; assumption.
        * rewrite (replace_malformed r s old G) by eauto. constructor.
      + rewrite (replace_malformed r s old G) by eauto. constructor.
    - rewrite (replace_absent r s G). constructor. }
  destruct (is_type r "T") eqn:TT.
  { rewrite snapshot_book_orders. constructor. }
  constructor.
Qed.

(** A property of the store that every step of the accepted rows keeps
    holds after the whole input, however the run ends. *)
Lemma process_rows_invariant (P : store -> Prop) (ok : row -> Prop) :
  (forall r st st', ok r -> P st -> store_step r st st' -> P st') ->
  forall rows, Forall ok rows ->
  forall s, P (orders s) -> P (orders (snd (process_rows rows s))).
Proof.
  intros Hstep. induction 1 as [|r rows Hr _ IH]; intros s HP; [assumption|].
  rewrite process_rows_cons.
  pose proof (Hstep r _ _ Hr HP (process_row_step r s)) as H.
  destruct (process_row r s) as [[u|e] s']; simpl in *; [apply IH|]; assumption.
Qed.

Lemma step_wf r st st' : wf id_eqb st -> store_step r st st' -> wf id_eqb st'.
Proof.
  intros Hwf H. destruct H; try assumption;
    repeat first [apply wf_set | apply wf_remove]; assumption.
Qed.

(** The keys of the store are pairwise different after any input. *)
Lemma store_wf_reachable rows :
  wf id_eqb (orders (snd (build_level2_simple rows))).
Proof.
  apply (process_rows_invariant (wf id_eqb) (fun _ => True)).
  - intros r st st' _. apply step_wf.
  - apply Forall_forall. trivial.
  - constructor.
Qed.

Lemma step_positive r st st' :
  quantity_ok r = true -> store_inv st -> store_step r st st' -> store_inv st'.
Proof.
  intros Hok Hinv H. unfold quantity_ok in Hok.
  destruct H as [|id|o TA Hq Hp|o e G L|old p q TA TU G Ep Eq].
  - assumption.
  - apply inv_remove. assumption.
  - apply inv_set; [assumption|]. rewrite TA in Hok. simpl in Hq.
    rewrite Hq in Hok. apply Z.ltb_lt. assumption.
  - apply inv_set; [assumption|]. simpl. assumption.
  - apply inv_set; [apply inv_remove; assumption|]. simpl.
    rewrite TA, TU in Hok. unfold replaced_quantity in Eq.
    destruct (truthy (row_get r "quantity" (Some "0"))).
    + rewrite Eq in Hok. apply Z.ltb_lt. assumption.
    + inversion Eq; subst. destruct Hinv as [_ Hpos]. apply (Hpos _ _ G).
Qed.

Lemma no_nan_set (st : store) id o :
  no_nan st -> is_nan (price o) = false -> no_nan (Dict.set id_eqb st id o).
Proof.
  unfold no_nan. intros H Ho. induction st as [|[k v] st IH]; simpl.
  - constructor; [assumption|constructor].
  - inversion H; subst. destruct (id_eqb k id); constructor; auto.
Qed.

Lemma no_nan_remove (st : store) id :
  no_nan st -> no_nan (Dict.remove id_eqb st id).
Proof.
  unfold no_nan. intros H. induction st as [|[k v] st IH]; simpl.
  - constructor.
  - inversion H; subst. destruct (id_eqb k id); [assumption|].
    constructor; auto.
Qed.

Lemma no_nan_get (st : store) id o :
  no_nan st -> Dict.get id_eqb st id = Some o -> is_nan (price o) = false.
Proof.
  unfold no_nan. intros H. induction st as [|[k v] st IH]; simpl;
    [discriminate|].
  inversion H; subst. destruct (id_eqb k id).
  - intros E. inversion E; subst. assumption.
  - apply IH. assumption.
Qed.

Lemma step_numbers r st st' :
  price_ok r = true -> no_nan st -> store_step r st st' -> no_nan st'.
Proof.
  intros Hok Hn H. unfold price_ok in Hok.
  destruct H as [|id|o TA Hq Hp|o e G L|old p q TA TU G Ep Eq].
  - assumption.
  - apply no_nan_remove. assumption.
  - apply no_nan_set; [assumption|]. rewrite TA in Hok. simpl in Hp.
    rewrite Hp in Hok. apply negb_true_iff. assumption.
  - apply no_nan_set; [assumption|]. simpl. apply (no_nan_get _ _ _ Hn G).
  - apply no_nan_set; [apply no_nan_remove; assumption|]. simpl.
    rewrite TA, TU in Hok. unfold replaced_price in Ep.
    destruct (truthy (row_get r "price" (Some "0")) && _)%bool.
    + rewrite Ep in Hok. apply negb_true_iff. assumption.
    + inversion Ep; subst. apply (no_nan_get _ _ _ Hn G).
Qed.

(** When no Add or Replace row gives a NaN price, every price of the store
    is a number after any input. *)
Lemma numbers_reachable rows :
  Forall (fun r => price_ok r = true) rows ->
  no_nan (orders (snd (build_level2_simple rows))).
Proof.
  intros H.
  apply (process_rows_invariant no_nan (fun r => price_ok r = true));
    [|assumption|constructor].
  intros r st st' Hok Hn. apply step_numbers; assumption.
Qed.

(** C2, amended (invariant I1).  From the empty book, after any sequence of
    rows in which every Add row and every Replace row that gives a quantity
    gives a positive one, every order of the store has a positive quantity
    (so an Execute row that takes a quantity to zero or below has removed
    the entry by the end of its own step). *)
Theorem positive_quantities_invariant rows :
  Forall (fun r => quantity_ok r = true) rows ->
  positive_quantities (orders (snd (build_level2_simple rows)))
  /\ wf id_eqb (orders (snd (build_level2_simple rows))).
Proof.
  intros H.
  destruct (process_rows_invariant store_inv (fun r => quantity_ok r = true))
    with (rows := rows) (s := init) as [Hwf Hpos].
  - intros r st st' Hok Hinv. apply step_positive; assumption.
  - assumption.
  - split; [constructor|]. intros id o. discriminate.
  - split; assumption.
Qed.

Lemma positive_quantities_invariant_witness :
  positive_quantities
    (orders (snd (build_level2_simple
                    [Samples.add "1" "ABC" "B" "10.00" "100";
                     Samples.execute "1" "40";
                     Samples.replace "1" "2" "" "200";
                     Samples.trigger "7";
                     Samples.execute "2" "200"]))).
Proof.
  apply positive_quantities_invariant. repeat constructor.
Defined.

(** *** Claim C3 *)


(** A Replace row of a file without a quantity column reads the default
    text ["0"] and stores the quantity 0 instead of the old one. *)
Lemma replace_without_quantity_column :
  process_row
    (Samples.cells [("message_type", "U"); ("old_order_id", "1");
                    ("order_id", "2")])
    Samples.book1
  = (Ok tt, mkState [(Some "2", mkOrder "ABC" "B" Samples.ten 0 0)] []).
Proof. vm_compute. reflexivity. Qed.



End OrderBookProps.

(* ================================================================= *)
(** ** Properties of the depth aggregation *)

Module DepthProps.
Import Py OrderBook BookSpec DictFacts FloatFacts OrderBookProps.

(** *** Grouping by ticker and side *)

Lemma get_set_str {V : Type} (d : list (string * V)) k v k' :
  Dict.get String.eqb (Dict.set String.eqb d k v) k'
  = if String.eqb k k' then Some v else Dict.get String.eqb d k'.
Proof. apply get_set; [apply String.eqb_sym|apply str_eqb_trans]. Qed.


Lemma get_default_set_str {V : Type} (d : list (string * V)) k v k' dflt :
  Dict.get_default String.eqb (Dict.set String.eqb d k v) k' dflt
  = if String.eqb k k' then v else Dict.get_default String.eqb d k' dflt.
Proof.
  unfold Dict.get_default. rewrite get_set_str.
  destruct (String.eqb k k'); reflexivity.
Qed.

(** What the grouping loop leaves under a ticker, from any starting table. *)
Lemma group_fold os :
  forall acc sym,
  Dict.get_default String.eqb (fold_left group_order os acc) sym ([], [])
  = (fold_left (fun lv o => add_level lv (price o) (qty o))
       (filter (on_side sym true) os)
       (fst (Dict.get_default String.eqb acc sym ([], []))),
     fold_left (fun lv o => add_level lv (price o) (qty o))
       (filter (on_side sym false) os)
       (snd (Dict.get_default String.eqb acc sym ([], [])))).
Proof.
  induction os as [|o os IH]; intros acc sym; simpl.
  - destruct (Dict.get_default String.eqb acc sym ([], [])); reflexivity.
  - rewrite IH. unfold on_side, group_order.
    destruct (String.eqb (side o) "B") eqn:Eb; simpl;
      rewrite !get_default_set_str;
      destruct (String.eqb (symbol o) sym) eqn:Es; simpl;
      try reflexivity;
      apply String.eqb_eq in Es; subst sym; reflexivity.
Qed.

Lemma group_orders_book st sym :
  Dict.get_default String.eqb (group_orders st) sym ([], [])
  = (side_levels (live st sym true), side_levels (live st sym false)).
Proof. unfold group_orders. rewrite group_fold. reflexivity. Qed.

Lemma group_fold_mem os :
  forall acc sym,
  Dict.mem String.eqb (fold_left group_order os acc) sym
  = Dict.mem String.eqb acc sym
    || existsb (fun o => String.eqb (symbol o) sym) os.
Proof.
  induction os as [|o os IH]; intros acc sym; simpl.
  - rewrite orb_false_r. reflexivity.
  - rewrite IH. unfold group_order, Dict.mem.
    destruct (String.eqb (side o) "B"); rewrite get_set_str;
      destruct (String.eqb (symbol o) sym); simpl;
      destruct (Dict.get String.eqb acc sym); reflexivity.
Qed.

Lemma group_fold_wf os :
  forall acc, wf String.eqb acc -> wf String.eqb (fold_left group_order os acc).
Proof.
  induction os as [|o os IH]; intros acc H; simpl; [assumption|].
  apply IH. unfold group_order.
  destruct (String.eqb (side o) "B"); apply wf_set; assumption.
Qed.

Lemma group_orders_wf st : wf String.eqb (group_orders st).
Proof. apply group_fold_wf. constructor. Qed.

(** *** The levels of one side *)

Lemma mem_existsb (lv : levels) p :
  Dict.mem float_eq lv p = existsb (fun k => float_eq k p) (Dict.keys lv).
Proof.
  unfold Dict.mem. induction lv as [|[k v] lv IH]; simpl; [reflexivity|].
  destruct (float_eq k p); [reflexivity|apply IH].
Qed.

Lemma keys_add_level lv p q :
  Dict.keys (add_level lv p q) = add_price (Dict.keys lv) p.
Proof.
  unfold add_level, add_price. rewrite keys_set, mem_existsb. reflexivity.
Qed.

Lemma keys_fold_levels os :
  forall lv,
  Dict.keys (fold_left (fun lv o => add_level lv (price o) (qty o)) os lv)
  = fold_left add_price (map price os) (Dict.keys lv).
Proof.
  induction os as [|o os IH]; intros lv; simpl; [reflexivity|].
  rewrite IH, keys_add_level. reflexivity.
Qed.

Lemma keys_side_levels os : Dict.keys (side_levels os) = distinct_prices os.
Proof. unfold side_levels, distinct_prices. apply keys_fold_levels. Qed.

Lemma wf_fold_levels os :
  forall lv, wf float_eq lv ->
  wf float_eq (fold_left (fun lv o => add_level lv (price o) (qty o)) os lv).
Proof.
  induction os as [|o os IH]; intros lv H; simpl; [assumption|].
  apply IH. apply wf_set. assumption.
Qed.

Lemma wf_side_levels os : wf float_eq (side_levels os).
Proof. apply wf_fold_levels. constructor. Qed.




(** The distinct prices are prices of the orders, and every price that is a
    number is [==] to one of them. *)
Lemma add_price_In ks p k : In k (add_price ks p) -> In k ks \/ k = p.
Proof.
  unfold add_price. destruct (existsb _ ks); [auto|].
  intros H. apply in_app_or in H. destruct H as [H|[H|[]]]; auto.
Qed.

Lemma fold_add_price_In ps :
  forall ks k, In k (fold_left add_price ps ks) -> In k ks \/ In k ps.
Proof.
  induction ps as [|p ps IH]; intros ks k H; simpl in *; [auto|].
  destruct (IH _ _ H) as [H'|H']; [|auto].
  destruct (add_price_In _ _ _ H'); auto.
Qed.

Lemma distinct_prices_In os k :
  In k (distinct_prices os) -> exists o, In o os /\ price o = k.
Proof.
  unfold distinct_prices. intros H.
  destruct (fold_add_price_In _ _ _ H) as [[]|H'].
  apply in_map_iff in H'. destruct H' as [o [E Ho]]. eauto.
Qed.




(** *** Sorting *)

Lemma insert_perm x l : Permutation (insert x l) (x :: l).
Proof.
  induction l as [|y l IH]; simpl; [apply Permutation_refl|].
  destruct (float_lt y x); [|apply Permutation_refl].
  eapply perm_trans; [apply perm_skip, IH|apply perm_swap].
Qed.

Lemma sort_perm l : Permutation (sort l) l.
Proof.
  induction l as [|x l IH]; simpl; [constructor|].
  eapply perm_trans; [apply insert_perm|]. apply perm_skip. assumption.
Qed.

Lemma sorted_perm l reverse : Permutation (sorted l reverse) l.
Proof.
  unfold sorted. destruct reverse; [|apply sort_perm].
  eapply perm_trans; [apply Permutation_sym, Permutation_rev|].
  eapply perm_trans; [apply sort_perm|].
  apply Permutation_sym, Permutation_rev.
Qed.

Lemma insert_sorted x l :
  number x -> Forall number l ->
  Forall (fun y => float_eq x y = false) l ->
  StronglySorted lt l -> StronglySorted lt (insert x l).
Proof.
  intros Hx. induction l as [|y l IH]; intros Hn Hne Hs; simpl.
  - constructor; constructor.
  - inversion Hn as [|? ? Hy Hn']; subst.
    inversion Hne as [|? ? Hxy Hne']; subst.
    inversion Hs as [|? ? Hs' Hyl]; subst.
    destruct (float_lt y x) eqn:E.
    + constructor; [apply IH; assumption|].
      rewrite Forall_forall in *. intros z Hz.
      apply (Permutation_in _ (insert_perm x l)) in Hz.
      destruct Hz as [Hz|Hz]; [subst; assumption|apply Hyl; assumption].
    + assert (Hlt : float_lt x y = true).
      { destruct (float_total x y Hx Hy) as [H|[H|H]]; congruence. }
      constructor; [assumption|].
      constructor; [assumption|].
      rewrite Forall_forall in *. intros z Hz.
      apply (float_lt_trans _ _ _ Hlt). apply Hyl. assumption.
Qed.

Lemma distinct_cons x l :
  distinct (x :: l) -> distinct l /\ Forall (fun y => float_eq x y = false) l.
Proof.
  intros [Hnd Heq]. inversion Hnd as [|? ? Hx Hl]; subst. split.
  - split; [assumption|]. intros a b Ha Hb. apply Heq; right; assumption.
  - rewrite Forall_forall. intros y Hy.
    destruct (float_eq x y) eqn:E; [|reflexivity].
    assert (x = y) by (apply Heq; [left; reflexivity|right; assumption|assumption]).
    subst. contradiction.
Qed.

Lemma distinct_perm l l' : Permutation l l' -> distinct l -> distinct l'.
Proof.
  intros P [Hnd Heq]. split.
  - apply (Permutation_NoDup P). assumption.
  - intros a b Ha Hb. apply Heq; apply (Permutation_in _ (Permutation_sym P));
      assumption.
Qed.

Lemma sort_sorted l :
  distinct l -> Forall number l -> StronglySorted lt (sort l).
Proof.
  induction l as [|x l IH]; intros Hd Hn; simpl; [constructor|].
  inversion Hn; subst. destruct (distinct_cons _ _ Hd) as [Hd' Hne].
  apply insert_sorted.
  - assumption.
  - rewrite Forall_forall in *. intros y Hy.
    apply (Permutation_in _ (sort_perm l)) in Hy. auto.
  - rewrite Forall_forall in *. intros y Hy.
    apply (Permutation_in _ (sort_perm l)) in Hy. auto.
  - apply IH; assumption.
Qed.

Lemma StronglySorted_app {A : Type} (R : A -> A -> Prop) l1 l2 :
  StronglySorted R l1 -> StronglySorted R l2 ->
  (forall a b, In a l1 -> In b l2 -> R a b) ->
  StronglySorted R (l1 ++ l2).
Proof.
  induction l1 as [|x l1 IH]; intros H1 H2 H; simpl; [assumption|].
  inversion H1; subst. constructor.
  - apply IH; [assumption|assumption|]. intros a b Ha Hb. apply H;
      [right|]; assumption.
  - apply Forall_app. split; [assumption|].
    rewrite Forall_forall. intros b Hb. apply H; [left; reflexivity|assumption].
Qed.

Lemma StronglySorted_rev {A : Type} (R : A -> A -> Prop) l :
  StronglySorted R l -> StronglySorted (fun a b => R b a) (rev l).
Proof.
  induction 1 as [|x l Hs IH Hx]; simpl; [constructor|].
  apply StronglySorted_app.
  - assumption.
  - constructor; constructor.
  - intros a b Ha [Hb|[]]. subst b. rewrite Forall_forall in Hx.
    apply Hx. apply in_rev. assumption.
Qed.

Lemma StronglySorted_split {A : Type} (R : A -> A -> Prop) l1 l2 :
  StronglySorted R (l1 ++ l2) ->
  StronglySorted R l1 /\ (forall a b, In a l1 -> In b l2 -> R a b).
Proof.
  induction l1 as [|x l1 IH]; simpl; intros H.
  - split; [constructor|]. intros a b [].
  - inversion H as [|? ? Hs Hx]; subst. destruct (IH Hs) as [H1 H2]. split.
    + constructor; [assumption|]. rewrite Forall_forall in *.
      intros y Hy. apply Hx. apply in_or_app. auto.
    + intros a b [Ha|Ha] Hb.
      * subst a. rewrite Forall_forall in Hx. apply Hx. apply in_or_app. auto.
      * apply H2; assumption.
Qed.

Lemma sorted_ascending l :
  distinct l -> Forall number l -> StronglySorted lt (sorted l false).
Proof. apply sort_sorted. Qed.

Lemma sorted_descending l :
  distinct l -> Forall number l -> StronglySorted gt (sorted l true).
Proof.
  intros Hd Hn. unfold sorted, float_gt.
  apply (StronglySorted_rev (fun a b => float_lt a b = true)).
  apply sort_sorted.
  - apply (distinct_perm l); [apply Permutation_rev|assumption].
  - rewrite Forall_forall in *. intros x Hx. apply Hn. apply in_rev. assumption.
Qed.

(** Keys that are numbers and pairwise different under [==] are distinct. *)
Lemma wf_distinct ks :
  ForallOrdPairs (fun a b => float_eq a b = false) ks ->
  Forall number ks -> distinct ks.
Proof.
  induction 1 as [|x ks Hx Hks IH]; intros Hn.
  - split; [constructor|]. intros a b [].
  - inversion Hn as [|? ? Hnx Hn']; subst. destruct (IH Hn') as [Hnd Heq].
    rewrite Forall_forall in Hx. split.
    + constructor; [|assumption]. intros Hin.
      specialize (Hx x Hin). rewrite float_eq_refl in Hx by assumption.
      discriminate.
    + intros a b [Ha|Ha] [Hb|Hb] E.
      * congruence.
      * subst a. rewrite (Hx b Hb) in E. discriminate.
      * subst b. rewrite float_eq_sym in E. rewrite (Hx a Ha) in E. discriminate.
      * apply Heq; assumption.
Qed.

(** *** The truncated view of one side *)

Lemma distinct_app_l l1 l2 : distinct (l1 ++ l2) -> distinct l1.
Proof.
  intros [Hnd Heq]. split.
  - apply NoDup_app_remove_r in Hnd. assumption.
  - intros a b Ha Hb. apply Heq; apply in_or_app; auto.
Qed.

Lemma In_firstn {A : Type} n (l : list A) x : In x (firstn n l) -> In x l.
Proof.
  intros H. rewrite <- (firstn_skipn n l). apply in_or_app. auto.
Qed.

Lemma distinct_firstn n l : distinct l -> distinct (firstn n l).
Proof.
  intros H. rewrite <- (firstn_skipn n l) in H.
  apply distinct_app_l in H. assumption.
Qed.

Lemma set_append (acc : levels) p v :
  Forall (fun k => float_eq k p = false) (Dict.keys acc) ->
  Dict.set float_eq acc p v = (acc ++ [(p, v)])%list.
Proof.
  induction acc as [|[k w] acc IH]; simpl; intros H; [reflexivity|].
  inversion H as [|? ? Hk H']; subst. rewrite Hk. rewrite IH by assumption.
  reflexivity.
Qed.

Lemma level_data_ok lv ps :
  forall acc,
  (forall p, In p ps -> Dict.mem float_eq lv p = true) ->
  distinct (Dict.keys acc ++ ps) ->
  level_data lv ps acc
  = Ok (acc ++ map (fun p => (p, Dict.get_default float_eq lv p 0)) ps)%list.
Proof.
  induction ps as [|p ps IH]; intros acc Hmem Hd; simpl.
  - rewrite app_nil_r. reflexivity.
  - unfold Dict.getitem, Dict.get_default.
    pose proof (Hmem p (or_introl eq_refl)) as Hp. unfold Dict.mem in Hp.
    destruct (Dict.get float_eq lv p) as [v|] eqn:G; [|discriminate].
    rewrite set_append.
    + rewrite IH.
      * rewrite <- app_assoc. reflexivity.
      * intros q Hq. apply Hmem. right. assumption.
      * unfold Dict.keys in *. rewrite map_app, <- app_assoc. exact Hd.
    + destruct Hd as [Hnd Heq]. rewrite Forall_forall. intros k Hk.
      destruct (float_eq k p) eqn:E; [|reflexivity].
      assert (k = p).
      { apply Heq; [apply in_or_app; left; assumption
                   |apply in_or_app; right; left; reflexivity|assumption]. }
      subst k. apply NoDup_remove_2 in Hnd. exfalso. apply Hnd.
      apply in_or_app. left. assumption.
Qed.

Lemma number_mem (lv : levels) p :
  In p (Dict.keys lv) -> number p -> Dict.mem float_eq lv p = true.
Proof.
  intros Hin Hn. rewrite mem_existsb. apply existsb_exists.
  exists p. split; [assumption|apply float_eq_refl; assumption].
Qed.

Lemma level_view_ok lv reverse :
  wf float_eq lv -> Forall number (Dict.keys lv) ->
  level_data lv (firstn depth (sorted (Dict.keys lv) reverse)) []
  = Ok (levels_of lv reverse).
Proof.
  intros Hwf Hn. rewrite level_data_ok; [reflexivity| |].
  - intros p Hp. apply In_firstn in Hp.
    apply (Permutation_in _ (sorted_perm _ _)) in Hp.
    apply number_mem; [assumption|]. rewrite Forall_forall in Hn. auto.
  - unfold Dict.keys at 1. cbn [map app]. apply distinct_firstn.
    apply (distinct_perm (Dict.keys lv));
      [apply Permutation_sym, sorted_perm|].
    apply wf_distinct; assumption.
Qed.

Lemma bid_levels_ok lv :
  wf float_eq lv -> Forall number (Dict.keys lv) ->
  bid_levels lv = Ok (levels_of lv true).
Proof. apply level_view_ok. Qed.

Lemma ask_levels_ok lv :
  wf float_eq lv -> Forall number (Dict.keys lv) ->
  ask_levels lv = Ok (levels_of lv false).
Proof. apply level_view_ok. Qed.

Lemma keys_levels_of lv reverse :
  map fst (levels_of lv reverse)
  = firstn depth (sorted (Dict.keys lv) reverse).
Proof.
  unfold levels_of. rewrite map_map. simpl. apply map_id.
Qed.

(** *** Taking the snapshots of a trigger *)

Lemma wf_In_get {V : Type} (l : list (string * V)) k v :
  wf String.eqb l -> In (k, v) l -> Dict.get String.eqb l k = Some v.
Proof.
  unfold wf. induction l as [|[j w] l IH]; simpl; intros Hwf Hin; [contradiction|].
  inversion Hwf as [|? ? Hj Hl]; subst. destruct Hin as [Hin|Hin].
  - inversion Hin; subst. rewrite String.eqb_refl. reflexivity.
  - destruct (String.eqb j k) eqn:E; [|apply IH; assumption].
    apply String.eqb_eq in E. subst j. rewrite Forall_forall in Hj.
    assert (Hk : In k (Dict.keys l)) by (apply (in_map fst _ _ Hin)).
    specialize (Hj k Hk). rewrite String.eqb_refl in Hj. discriminate.
Qed.

Lemma store_snapshot_ok ts ticker book s :
  good_book book ->
  store_snapshot ts (ticker, book) s
  = (Ok tt,
     mkState (orders s)
       (Dict.set String.eqb (snapshots_by_ticker s) ticker
          (Dict.get_default String.eqb (snapshots_by_ticker s) ticker []
             ++ [snapshot_of ts book])%list)).
Proof.
  intros [[Hb1 Hb2] [Ha1 Ha2]]. unfold store_snapshot. run.
  rewrite bid_levels_ok, ask_levels_ok by assumption. reflexivity.
Qed.

Lemma for_each_snapshots ts l :
  wf String.eqb l ->
  (forall k book, In (k, book) l -> good_book book) ->
  forall s,
  exists s',
    Stmt.for_each l (store_snapshot ts) s = (Ok tt, s')
    /\ orders s' = orders s
    /\ forall t,
         Dict.get String.eqb (snapshots_by_ticker s') t
         = match Dict.get String.eqb l t with
           | Some book =>
               Some (Dict.get_default String.eqb (snapshots_by_ticker s) t []
                       ++ [snapshot_of ts book])%list
           | None => Dict.get String.eqb (snapshots_by_ticker s) t
           end.
Proof.
  unfold wf. induction l as [|[k book] l IH]; intros Hwf Hgood s.
  - exists s. simpl. auto.
  - inversion Hwf as [|? ? Hk Hl]; subst.
    cbn [Stmt.for_each]. unfold Stmt.bind at 1.
    rewrite store_snapshot_ok by (apply (Hgood k); left; reflexivity).
    destruct (IH Hl (fun k' b H => Hgood k' b (or_intror H))
                (mkState (orders s)
                   (Dict.set String.eqb (snapshots_by_ticker s) k
                      (Dict.get_default String.eqb (snapshots_by_ticker s) k []
                         ++ [snapshot_of ts book])%list)))
      as [s' [Hrun [Hord Hget]]].
    exists s'. split; [exact Hrun|]. split; [exact Hord|].
    intros t. rewrite Hget. simpl. unfold Dict.get_default.
    rewrite !get_set_str.
    destruct (String.eqb k t) eqn:E.
    + apply String.eqb_eq in E. subst t.
      assert (Hnone : Dict.get String.eqb l k = None).
      { apply get_none. rewrite Forall_forall in *. intros j Hj.
        rewrite String.eqb_sym. apply Hk. assumption. }
      rewrite Hnone. reflexivity.
    + reflexivity.
Qed.

Lemma numbers_live st sym bid :
  no_nan st -> Forall number (distinct_prices (live st sym bid)).
Proof.
  intros Hn. rewrite Forall_forall. intros k Hk.
  destruct (distinct_prices_In _ _ Hk) as [o [Ho E]]. subst k.
  unfold live in Ho. apply filter_In in Ho. destruct Ho as [Ho _].
  apply in_map_iff in Ho. destruct Ho as [[id o'] [E Hin]]. simpl in E. subst o'.
  unfold no_nan in Hn. rewrite Forall_forall in Hn. apply (Hn _ Hin).
Qed.

Lemma good_side_levels st sym :
  no_nan st ->
  good_book (side_levels (live st sym true), side_levels (live st sym false)).
Proof.
  intros Hn. unfold good_book. simpl. rewrite !keys_side_levels.
  repeat split; try apply wf_side_levels; apply numbers_live; assumption.
Qed.

(** The book the grouping loop holds for a symbol. *)
Lemma group_orders_get st sym :
  Dict.get String.eqb (group_orders st) sym
  = if existsb (fun o => String.eqb (symbol o) sym) (map snd st)
    then Some (side_levels (live st sym true), side_levels (live st sym false))
    else None.
Proof.
  pose proof (group_orders_book st sym) as Hb.
  pose proof (group_fold_mem (map snd st) [] sym) as Hm.
  fold (group_orders st) in Hm. unfold Dict.mem, Dict.get_default in *.
  simpl in Hm.
  destruct (Dict.get String.eqb (group_orders st) sym) as [book|];
    rewrite <- Hm; [rewrite Hb|]; reflexivity.
Qed.

(** What a trigger row does on a store whose prices are numbers: the store
    is untouched, and each symbol with an order gets one more snapshot. *)
Lemma snapshot_book_spec r s :
  no_nan (orders s) ->
  exists s',
    snapshot_book r s = (Ok tt, s')
    /\ orders s' = orders s
    /\ forall sym,
         Dict.get String.eqb (snapshots_by_ticker s') sym
         = if existsb (fun o => String.eqb (symbol o) sym) (map snd (orders s))
           then Some (Dict.get_default String.eqb (snapshots_by_ticker s) sym []
                        ++ [snapshot_of (row_get r "seconds" (Some "0"))
                              (side_levels (live (orders s) sym true),
                               side_levels (live (orders s) sym false))])%list
           else Dict.get String.eqb (snapshots_by_ticker s) sym.
Proof.
  intros Hn. unfold snapshot_book. run.
  destruct (for_each_snapshots (row_get r "seconds" (Some "0"))
              (group_orders (orders s)) (group_orders_wf _)) with (s := s)
    as [s' [Hrun [Hord Hget]]].
  - intros k book Hin.
    apply (wf_In_get _ _ _ (group_orders_wf _)) in Hin.
    rewrite group_orders_get in Hin.
    destruct (existsb _ _); [|discriminate].
    inversion Hin; subst. apply good_side_levels. assumption.
  - exists s'. split; [exact Hrun|]. split; [exact Hord|].
    intros sym. rewrite Hget, group_orders_get.
    destruct (existsb _ _); reflexivity.
Qed.

Lemma StronglySorted_firstn {A : Type} (R : A -> A -> Prop) n l :
  StronglySorted R l -> StronglySorted R (firstn n l).
Proof.
  intros H. rewrite <- (firstn_skipn n l) in H.
  apply StronglySorted_split in H. tauto.
Qed.

Lemma StronglySorted_fst {A B : Type} (R : A -> A -> Prop) (l : list (A * B)) :
  StronglySorted R (map fst l) ->
  StronglySorted (fun a b => R (fst a) (fst b)) l.
Proof.
  induction l as [|x l IH]; simpl; intros H; [constructor|].
  inversion H as [|? ? Hs Hx]; subst. constructor; [apply IH; assumption|].
  rewrite Forall_forall in *. intros y Hy. apply Hx. apply in_map. assumption.
Qed.

Lemma levels_of_descending lv :
  wf float_eq lv -> Forall number (Dict.keys lv) ->
  descending (levels_of lv true).
Proof.
  intros Hwf Hn. unfold descending. apply (StronglySorted_fst gt).
  rewrite keys_levels_of. apply StronglySorted_firstn.
  apply sorted_descending; [apply wf_distinct|]; assumption.
Qed.

Lemma levels_of_ascending lv :
  wf float_eq lv -> Forall number (Dict.keys lv) ->
  ascending (levels_of lv false).
Proof.
  intros Hwf Hn. unfold ascending. apply (StronglySorted_fst lt).
  rewrite keys_levels_of. apply StronglySorted_firstn.
  apply sorted_ascending; [apply wf_distinct|]; assumption.
Qed.


Lemma sorted_no_equal (R : float -> float -> Prop) (lv : levels) :
  (forall a b, R a b -> float_eq a b = false) ->
  StronglySorted (fun a b => R (fst a) (fst b)) lv ->
  ForallOrdPairs (fun a b => float_eq (fst a) (fst b) = false) lv.
Proof.
  intros HR. induction 1 as [|x l Hs IH Hx]; constructor.
  - rewrite Forall_forall in *. intros y Hy. apply HR. apply Hx. assumption.
  - assumption.
Qed.


(** *** Claim C6 *)



(** *** Claim C7 *)




End DepthProps.

(* ================================================================= *)
(** ** Properties of the decoders *)

Module DecoderProps.
Import Py Decoders DecoderSpec BookSpec.

Lemma length_slice (msg : bytes) lo hi :
  (lo <= hi)%nat -> Z.of_nat hi <= len msg ->
  List.length (slice msg lo hi) = (hi - lo)%nat.
Proof.
  unfold slice, len. intros H1 H2. rewrite length_firstn, length_skipn. lia.
Qed.

Lemma unpack_I_slice (msg : bytes) lo hi :
  hi = (lo + 4)%nat -> Z.of_nat hi <= len msg ->
  unpack_I (slice msg lo hi) = Ok (from_bytes_big (slice msg lo hi)).
Proof.
  intros E H. unfold unpack_I. rewrite length_slice by lia.
  replace (hi - lo)%nat with 4%nat by lia. reflexivity.
Qed.

Lemma when_ge_pure msg n k v rec :
  when_ge msg n k (Ok v) rec
  = Ok (if n <=? len msg then setitem rec k v else rec).
Proof. unfold when_ge. destruct (n <=? len msg); reflexivity. Qed.

Lemma when_gt_pure msg n k v rec :
  when_gt msg n k (Ok v) rec
  = Ok (if n + 1 <=? len msg then setitem rec k v else rec).
Proof.
  unfold when_gt.
  destruct (Z.ltb_spec n (len msg)), (Z.leb_spec (n + 1) (len msg));
    try reflexivity; lia.
Qed.

Lemma when_ge_unpack msg lo hi n k rec :
  hi = (lo + 4)%nat -> n = Z.of_nat hi ->
  when_ge msg n k (vint (unpack_I (slice msg lo hi))) rec
  = Ok (if n <=? len msg
        then setitem rec k (VInt (from_bytes_big (slice msg lo hi)))
        else rec).
Proof.
  intros E1 E2. unfold when_ge, vint.
  destruct (Z.leb_spec n (len msg)); [|reflexivity].
  rewrite unpack_I_slice by lia. reflexivity.
Qed.

Ltac parser_keys msg :=
  cbn [Py.bind];
  repeat (first [ rewrite when_ge_pure
                | rewrite when_gt_pure
                | rewrite (when_ge_unpack msg 21 25) by reflexivity
                | rewrite (when_ge_unpack msg 1 5) by reflexivity ];
          cbn [Py.bind]);
  eexists; split; [reflexivity|];
  unfold fitting_keys; cbn;
  repeat match goal with
         | |- context [Z.leb ?a (len msg)] => destruct (Z.leb a (len msg))
         end;
  reflexivity.

Lemma parse_a_keys msg :
  exists rec, parse_message_type_a msg = Ok rec
              /\ Dict.keys rec = fitting_keys (lit "A") (len msg).
Proof. unfold parse_message_type_a. parser_keys msg. Qed.

Lemma parse_r_keys msg :
  exists rec, parse_message_type_r msg = Ok rec
              /\ Dict.keys rec = fitting_keys (lit "R") (len msg).
Proof. unfold parse_message_type_r. parser_keys msg. Qed.

Lemma parse_k_keys msg :
  exists rec, parse_message_type_k msg = Ok rec
              /\ Dict.keys rec = fitting_keys (lit "k") (len msg).
Proof. unfold parse_message_type_k. parser_keys msg. Qed.

Lemma parse_h_keys msg :
  exists rec, parse_message_type_h msg = Ok rec
              /\ Dict.keys rec = fitting_keys (lit "H") (len msg).
Proof. unfold parse_message_type_h. parser_keys msg. Qed.

Lemma parse_f_keys msg :
  exists rec, parse_message_type_f msg = Ok rec
              /\ Dict.keys rec = fitting_keys (lit "f") (len msg).
Proof. unfold parse_message_type_f. parser_keys msg. Qed.

Lemma parse_l_keys msg :
  exists rec, parse_message_type_l msg = Ok rec
              /\ Dict.keys rec = fitting_keys (lit "L") (len msg).
Proof. unfold parse_message_type_l. parser_keys msg. Qed.

Lemma parse_s_keys msg :
  exists rec, parse_message_type_s msg = Ok rec
              /\ Dict.keys rec = fitting_keys (lit "s") (len msg).
Proof. unfold parse_message_type_s. parser_keys msg. Qed.

Lemma parse_m_keys msg :
  exists rec, parse_message_type_m msg = Ok rec
              /\ Dict.keys rec = fitting_keys (lit "M") (len msg).
Proof. unfold parse_message_type_m. parser_keys msg. Qed.

Lemma parse_s_stock_keys msg :
  exists rec, parse_message_type_s_stock msg = Ok rec
              /\ Dict.keys rec = fitting_keys (lit "S") (len msg).
Proof. unfold parse_message_type_s_stock. parser_keys msg. Qed.

Lemma parse_t_keys msg :
  exists rec, parse_message_type_t msg = Ok rec
              /\ Dict.keys rec = fitting_keys (lit "T") (len msg).
Proof. unfold parse_message_type_t. parser_keys msg. Qed.

Lemma text_eqb_eq a b : text_eqb a b = true <-> a = b.
Proof.
  revert b. induction a as [|x a IH]; intros [|y b]; simpl; split; intros H;
    try discriminate; try reflexivity.
  - apply andb_prop in H. destruct H as [H1 H2].
    apply N.eqb_eq in H1. apply IH in H2. congruence.
  - inversion H; subst. rewrite N.eqb_refl. apply IH. reflexivity.
Qed.

(** Every registered parser returns a record with exactly the fitting
    keys. *)
Lemma decoders_known tag parser :
  Dict.get text_eqb decoders tag = Some parser ->
  forall msg, exists rec,
    parser msg = Ok rec /\ Dict.keys rec = fitting_keys tag (len msg).
Proof.
  unfold decoders. cbn [Dict.get].
  repeat match goal with
         | |- (if text_eqb ?t tag then _ else _) = _ -> _ =>
             let E := fresh "E" in
             destruct (text_eqb t tag) eqn:E;
             [apply text_eqb_eq in E; subst tag;
              intros H; inversion H; subst parser; clear H|]
         end;
    try discriminate.
  - apply parse_a_keys.
  - apply parse_r_keys.
  - apply parse_k_keys.
  - apply parse_h_keys.
  - apply parse_f_keys.
  - apply parse_l_keys.
  - apply parse_s_keys.
  - apply parse_m_keys.
  - apply parse_s_stock_keys.
  - apply parse_t_keys.
Qed.

(** *** Claim C5 *)


(** A seven-byte Add Order frame keeps the header and the two fields that
    fit. *)
Lemma short_add_order_frame :
  decode_message (frame [65; 0; 0; 0; 7; 0; 0]%N)
  = Ok [("message_type", VStr (lit "A")); ("type_name", VStr (lit "Add Order"));
        ("message_length", VInt 30);
        ("msg_type_byte", VBytes (frame [65]%N)); ("timestamp", VInt 7)].
Proof. vm_compute. reflexivity. Qed.

(** Scenario E: the tag 'Z' is not registered. *)
Lemma unknown_tag_Z :
  decode_message (frame [90; 1; 255]%N)
  = Ok [("message_type", VStr (lit "Z")); ("type_name", VStr (lit "Unknown"));
        ("message_length", VInt 3); ("raw", VStr (lit "5a01ff"))].
Proof. vm_compute. reflexivity. Qed.

(** *** Claim C8 *)


Lemma byte_val_range b : 0 <= byte_val b < 256.
Proof.
  unfold byte_val. pose proof (Byte.to_N_bounded b). lia.
Qed.

Lemma from_bytes_fold b :
  forall acc k, 0 <= k -> 0 <= acc < 256 ^ k ->
  0 <= fold_left (fun a x => 256 * a + byte_val x) b acc
    < 256 ^ (k + Z.of_nat (List.length b)).
Proof.
  induction b as [|x b IH]; intros acc k Hk Hacc; cbn [fold_left List.length].
  - rewrite Z.add_0_r. assumption.
  - replace (k + Z.of_nat (S (List.length b)))
      with ((k + 1) + Z.of_nat (List.length b)) by lia.
    apply IH; [lia|]. pose proof (byte_val_range x).
    replace (k + 1) with (Z.succ k) by lia. rewrite Z.pow_succ_r by lia.
    lia.
Qed.

Lemma from_bytes_big_range b :
  0 <= from_bytes_big b < 256 ^ Z.of_nat (List.length b).
Proof.
  unfold from_bytes_big.
  apply (from_bytes_fold b 0 0); [lia|]. simpl. lia.
Qed.


(** Rounding a non-negative mantissa never produces a NaN. *)
Lemma iter_pos_inv {A : Type} (P : A -> Prop) (f : A -> A) :
  (forall x, P x -> P (f x)) -> forall n x, P x -> P (iter_pos f n x).
Proof.
  intros Hf. induction n as [n IH|n IH|]; intros x Hx; simpl; auto.
Qed.

Lemma shr_1_nonneg mrs : 0 <= shr_m mrs -> 0 <= shr_m (shr_1 mrs).
Proof.
  destruct mrs as [m r s]. simpl. destruct m as [|[p|p|]|p]; simpl; lia.
Qed.

Lemma shr_nonneg mrs e n : 0 <= shr_m mrs -> 0 <= shr_m (fst (shr mrs e n)).
Proof.
  intros H. unfold shr. destruct n; simpl; try assumption.
  apply (iter_pos_inv (fun x => 0 <= shr_m x)); [apply shr_1_nonneg|assumption].
Qed.

Lemma shr_fexp_nonneg m e l :
  0 <= m -> 0 <= shr_m (fst (shr_fexp prec emax m e l)).
Proof.
  intros H. unfold shr_fexp. apply shr_nonneg.
  destruct l as [|[]]; simpl; assumption.
Qed.

Lemma round_nonneg m l : 0 <= m -> 0 <= round_nearest_even m l.
Proof.
  intros H. unfold round_nearest_even. destruct l as [|[]]; try assumption;
    [destruct (Z.even m)|]; lia.
Qed.

Lemma binary_round_aux_number s m e l :
  0 <= m -> is_nan (binary_round_aux prec emax s m e l) = false.
Proof.
  intros H. unfold binary_round_aux.
  pose proof (shr_fexp_nonneg m e l H) as H1.
  destruct (shr_fexp prec emax m e l) as [mrs' e'].
  simpl in H1.
  pose proof (shr_fexp_nonneg _ e' loc_Exact
                (round_nonneg _ (loc_of_shr_record mrs') H1)) as H2.
  destruct (shr_fexp prec emax _ e' loc_Exact) as [mrs'' e''].
  simpl in H2. destruct (shr_m mrs'') as [|p|p]; [reflexivity| |lia].
  destruct (e'' <=? emax - prec); reflexivity.
Qed.

Lemma float_div_number sx mx ex sy my ey :
  is_nan (float_div (S754_finite sx mx ex) (S754_finite sy my ey)) = false.
Proof.
  unfold float_div, SFdiv.
  destruct (SFdiv_core_binary prec emax (Z.pos mx) ex (Z.pos my) ey)
    as [[mz ez] lz] eqn:E.
  apply binary_round_aux_number.
  unfold SFdiv_core_binary in E.
  match type of E with
  | (let '(q, r) := Z.div_eucl ?a ?b in _) = _ =>
      assert (Ha : 0 <= a);
      [|pose proof (Z.div_pos a b Ha) as Hq; unfold Z.div in Hq;
        destruct (Z.div_eucl a b) as [q r]; inversion E; subst; apply Hq; lia]
  end.
  match goal with
  | |- 0 <= match ?s with _ => _ end => destruct s
  end; try lia.
  apply Z.shiftl_nonneg. lia.
Qed.

Lemma true_div_number a b : is_nan (true_div a b) = false.
Proof.
  unfold true_div. destruct a; [reflexivity| |]; apply float_div_number.
Qed.



End DecoderProps.

(* ================================================================= *)
(** ** Further properties of the order book *)

Module BookExtras.
Import Py OrderBook BookSpec BookMore DictFacts FloatFacts OrderBookProps DepthProps.

(** *** Add *)

Lemma add_order_eq r s sy sd :
  row_get r "symbol" (Some "") = Some sy ->
  row_get r "side" (Some "B") = Some sd ->
  add_order r s =
  (Ok tt,
   if truthy (row_id r) && str_truthy (strip sy) then
     match added_price r, added_quantity r, added_timestamp r with
     | Ok p, Ok q, Ok t =>
         mkState (Dict.set id_eqb (orders s) (row_id r)
                    (mkOrder (strip sy) (strip sd) p q t))
           (snapshots_by_ticker s)
     | _, _, _ => s
     end
   else s).
Proof.
  intros Hs Hd. unfold add_order, row_id, added_price, added_quantity,
    added_timestamp. rewrite Hs, Hd. run.
  destruct (truthy (row_get r "order_id" None) && str_truthy (strip sy))%bool;
    [|reflexivity].
  destruct (truthy (row_get r "price" (Some "0"))) eqn:Tp.
  - destruct (float_of (row_get r "price" (Some "0"))) as [p|e] eqn:Ep; simpl.
    + destruct (truthy (row_get r "quantity" (Some "0"))) eqn:Tq.
      * destruct (int_of (row_get r "quantity" (Some "0"))) as [q|e] eqn:Eq;
          simpl.
        -- destruct (truthy (row_get r "timestamp" _)) eqn:Tt.
           ++ destruct (int_of (row_get r "timestamp" _)) as [t|e] eqn:Et;
                simpl; [reflexivity|].
              rewrite (int_of_raise _ _ Tt Et). reflexivity.
           ++ reflexivity.
        -- rewrite (int_of_raise _ _ Tq Eq). reflexivity.
      * simpl. destruct (truthy (row_get r "timestamp" _)) eqn:Tt.
        -- destruct (int_of (row_get r "timestamp" _)) as [t|e] eqn:Et;
             simpl; [reflexivity|].
           rewrite (int_of_raise _ _ Tt Et). reflexivity.
        -- reflexivity.
    + rewrite (float_of_raise _ _ Tp Ep). reflexivity.
  - simpl. destruct (truthy (row_get r "quantity" (Some "0"))) eqn:Tq.
    + destruct (int_of (row_get r "quantity" (Some "0"))) as [q|e] eqn:Eq;
        simpl.
      * destruct (truthy (row_get r "timestamp" _)) eqn:Tt.
        -- destruct (int_of (row_get r "timestamp" _)) as [t|e] eqn:Et;
             simpl; [reflexivity|].
           rewrite (int_of_raise _ _ Tt Et). reflexivity.
        -- reflexivity.
      * rewrite (int_of_raise _ _ Tq Eq). reflexivity.
    + simpl. destruct (truthy (row_get r "timestamp" _)) eqn:Tt.
      * destruct (int_of (row_get r "timestamp" _)) as [t|e] eqn:Et;
          simpl; [reflexivity|].
        rewrite (int_of_raise _ _ Tt Et). reflexivity.
      * reflexivity.
Qed.






(** *** Execute *)

(** X3.  An Execute row whose quantity cell is not an integer changes
    nothing and raises nothing, whether or not its order is in the store. *)
Theorem execute_order_malformed_dropped r s e :
  is_type r "e" = true ->
  executed_quantity r = Raise e ->
  process_row r s = (Ok tt, s).
Proof.
  intros Ht H. rewrite (process_row_e r Ht). apply (execute_malformed r s e H).
Qed.

Lemma execute_order_malformed_dropped_witness :
  process_row (Samples.execute "1" "4.5") Samples.book1 = (Ok tt, Samples.book1).
Proof.
  apply (execute_order_malformed_dropped _ _ ValueError); reflexivity.
Defined.

(** *** Delete *)

(** X4.  A Delete row with a non-empty identifier leaves no entry under it
    and touches no other entry; a Delete row whose identifier is missing or
    empty removes nothing, even when the store holds an order under that
    very key (a Replace row without an [order_id] cell creates one). *)
Theorem delete_order_spec r s :
  is_type r "D" = true ->
  wf id_eqb (orders s) ->
  exists s',
    process_row r s = (Ok tt, s')
    /\ snapshots_by_ticker s' = snapshots_by_ticker s
    /\ (truthy (row_id r) = true ->
        Dict.get id_eqb (orders s') (row_id r) = None
        /\ forall id, id <> row_id r ->
             Dict.get id_eqb (orders s') id = Dict.get id_eqb (orders s) id)
    /\ (truthy (row_id r) = false -> s' = s).
Proof.
  intros Ht Hwf. rewrite (process_row_D r Ht), delete_order_eq.
  eexists. split; [reflexivity|]. unfold Dict.mem.
  destruct (truthy (row_id r)) eqn:T; simpl.
  - destruct (Dict.get id_eqb (orders s) (row_id r)) as [o|] eqn:G; simpl.
    + split; [reflexivity|]. split; [|discriminate]. intros _. split.
      * rewrite get_remove_id by assumption. rewrite id_eqb_refl. reflexivity.
      * intros id Hne. rewrite get_remove_id by assumption.
        destruct (id_eqb (row_id r) id) eqn:E; [|reflexivity].
        apply id_eqb_eq in E. congruence.
    + split; [reflexivity|]. split; [|discriminate]. intros _. split;
        [assumption|reflexivity].
  - split; [reflexivity|]. split; [discriminate|reflexivity].
Qed.

Lemma delete_order_spec_witness :
  let s := mkState [(None, Samples.order1); (Some "1", Samples.order1)] [] in
  process_row (Samples.cells [("message_type", "D")]) s = (Ok tt, s)
  /\ exists s', process_row (Samples.delete "1") s = (Ok tt, s')
                /\ Dict.get id_eqb (orders s') (Some "1") = None
                /\ Dict.get id_eqb (orders s') None = Some Samples.order1.
Proof.
  intros s. split.
  - destruct (delete_order_spec (Samples.cells [("message_type", "D")]) s)
      as [s' [H1 [_ [_ H2]]]]; [reflexivity|repeat constructor|].
    rewrite H1. rewrite H2; reflexivity.
  - destruct (delete_order_spec (Samples.delete "1") s)
      as [s' [H1 [_ [H2 _]]]]; [reflexivity|repeat constructor|].
    destruct H2 as [H2 H3]; [reflexivity|].
    exists s'. split; [exact H1|]. split; [exact H2|].
    rewrite H3; [reflexivity|discriminate].
Defined.

(** X5.  Adding an order under an identifier the store does not hold and
    then deleting it gives back the state exactly, whether the Add row was
    stored or dropped. *)
Theorem add_then_delete r d s :
  is_type r "A" = true ->
  is_type d "D" = true ->
  row_id d = row_id r ->
  has_symbol_and_side r = true ->
  Dict.get id_eqb (orders s) (row_id r) = None ->
  process_rows [r; d] s = (Ok tt, s).
Proof.
  intros Hr Hd Hid Hc Hg. rewrite process_rows_cons, (process_row_A r Hr).
  unfold has_symbol_and_side in Hc.
  destruct (row_get r "symbol" (Some "")) as [sy|] eqn:Hs; [|discriminate].
  destruct (row_get r "side" (Some "B")) as [sd|] eqn:Hsd; [|discriminate].
  rewrite (add_order_eq r s sy sd Hs Hsd).
  rewrite process_rows_cons, (process_row_D d Hd), delete_order_eq, Hid.
  unfold process_rows. cbn [Stmt.for_each Stmt.ret].
  destruct (truthy (row_id r) && str_truthy (strip sy))%bool eqn:T.
  - apply andb_prop in T. destruct T as [Tid _]. rewrite Tid.
    destruct (added_price r) as [p|]; [|unfold Dict.mem; rewrite Hg; reflexivity].
    destruct (added_quantity r) as [q|];
      [|unfold Dict.mem; rewrite Hg; reflexivity].
    destruct (added_timestamp r) as [t|];
      [|unfold Dict.mem; rewrite Hg; reflexivity].
    cbn [orders snapshots_by_ticker andb]. unfold Dict.mem.
    rewrite get_set_id, id_eqb_refl.
    rewrite remove_set by apply id_eqb_refl.
    rewrite remove_absent by assumption. destruct s; reflexivity.
  - unfold Dict.mem. rewrite Hg. rewrite andb_false_r. reflexivity.
Qed.

Lemma add_then_delete_witness :
  process_rows [Samples.add "2" "ABC" "S" "10.50" "5"; Samples.delete "2"]
    Samples.book1
  = (Ok tt, Samples.book1).
Proof. apply add_then_delete; reflexivity. Defined.

(** *** Which rows touch what *)

Lemma execute_order_snapshots r s :
  snapshots_by_ticker (snd (execute_order r s)) = snapshots_by_ticker s.
Proof.
  destruct (Dict.get id_eqb (orders s) (row_id r)) as [o|] eqn:G.
  - destruct (executed_quantity r) as [e|e] eqn:E.
    + rewrite (execute_present r s o e G E). reflexivity.
    + rewrite (execute_malformed r s e E). reflexivity.
  - rewrite (execute_absent r s G). reflexivity.
Qed.

Lemma replace_order_snapshots r s :
  snapshots_by_ticker (snd (replace_order r s)) = snapshots_by_ticker s.
Proof.
  destruct (Dict.get id_eqb (orders s) (row_old_id r)) as [old|] eqn:G.
  - destruct (replaced_price r old) as [p|e] eqn:Ep.
    + destruct (replaced_quantity r old) as [q|e] eqn:Eq.
      * rewrite (replace_present r s old p q G Ep Eq). reflexivity.
      * rewrite (replace_malformed r s old G) by eauto. reflexivity.
    + rewrite (replace_malformed r s old G) by eauto. reflexivity.
  - rewrite (replace_absent r s G). reflexivity.
Qed.

(** X6.  A trigger row never changes the store, every other row never
    changes the snapshots, and a row of any other message type than A, e,
    D, U and T changes nothing at all. *)
Theorem rows_touch_one_component r s :
  (is_type r "T" = true -> orders (snd (process_row r s)) = orders s)
  /\ (is_type r "T" = false ->
      snapshots_by_ticker (snd (process_row r s)) = snapshots_by_ticker s)
  /\ (is_type r "A" = false -> is_type r "e" = false ->
      is_type r "D" = false -> is_type r "U" = false ->
      is_type r "T" = false -> process_row r s = (Ok tt, s)).
Proof.
  split; [|split].
  - intros Ht. rewrite (process_row_T r Ht). apply snapshot_book_orders.
  - intros Ht. unfold process_row.
    change (cell_is (row_get r "message_type" None)) with (is_type r).
    rewrite Ht.
    destruct (is_type r "A").
    { destruct (add_order_state r s) as [H|[o [H _]]]; rewrite H; reflexivity. }
    destruct (is_type r "e"); [apply execute_order_snapshots|].
    destruct (is_type r "D"); [rewrite delete_order_eq; simpl|].
    { destruct (truthy (row_id r) && _)%bool; reflexivity. }
    destruct (is_type r "U"); [apply replace_order_snapshots|reflexivity].
  - intros HA He HD HU HT. unfold process_row.
    change (cell_is (row_get r "message_type" None)) with (is_type r).
    rewrite HA, He, HD, HU, HT. reflexivity.
Qed.

Lemma rows_touch_one_component_witness :
  process_row (Samples.cells [("message_type", "R"); ("order_id", "1")])
    Samples.book1
  = (Ok tt, Samples.book1).
Proof.
  destruct (rows_touch_one_component
              (Samples.cells [("message_type", "R"); ("order_id", "1")])
              Samples.book1) as [_ [_ H]].
  apply H; reflexivity.
Defined.

(** *** Snapshots only grow *)

Lemma prefix_refl {A : Type} (l : list A) : prefix l l.
Proof. exists []. rewrite app_nil_r. reflexivity. Qed.

Lemma prefix_trans {A : Type} (l1 l2 l3 : list A) :
  prefix l1 l2 -> prefix l2 l3 -> prefix l1 l3.
Proof.
  intros [m1 H1] [m2 H2]. exists (m1 ++ m2)%list. subst.
  rewrite app_assoc. reflexivity.
Qed.

Lemma store_snapshot_prefix ts entry s t :
  prefix (Dict.get_default String.eqb (snapshots_by_ticker s) t [])
    (Dict.get_default String.eqb
       (snapshots_by_ticker (snd (store_snapshot ts entry s))) t []).
Proof.
  unfold store_snapshot. destruct entry as [ticker lv]. run.
  destruct (bid_levels (fst lv)); simpl; [|apply prefix_refl].
  destruct (ask_levels (snd lv)); simpl; [|apply prefix_refl].
  rewrite get_default_set_str.
  destruct (String.eqb ticker t) eqn:E; [|apply prefix_refl].
  apply String.eqb_eq in E. subst t. eexists. reflexivity.
Qed.

Lemma for_each_snapshot_prefix ts l t :
  forall s,
  prefix (Dict.get_default String.eqb (snapshots_by_ticker s) t [])
    (Dict.get_default String.eqb
       (snapshots_by_ticker (snd (Stmt.for_each l (store_snapshot ts) s))) t []).
Proof.
  induction l as [|x l IH]; intros s; [apply prefix_refl|].
  cbn [Stmt.for_each]. unfold Stmt.bind.
  pose proof (store_snapshot_prefix ts x s t) as H.
  destruct (store_snapshot ts x s) as [[u|e] s']; simpl in *; [|assumption].
  apply (prefix_trans _ _ _ H). apply IH.
Qed.

Lemma process_row_prefix r s t :
  prefix (Dict.get_default String.eqb (snapshots_by_ticker s) t [])
    (Dict.get_default String.eqb
       (snapshots_by_ticker (snd (process_row r s))) t []).
Proof.
  destruct (is_type r "T") eqn:Ht.
  - rewrite (process_row_T r Ht). unfold snapshot_book. run.
    apply for_each_snapshot_prefix.
  - destruct (rows_touch_one_component r s) as [_ [H _]].
    rewrite (H Ht). apply prefix_refl.
Qed.

(** X7.  Snapshots are append-only: whatever the rows and however the run
    ends, the snapshots a ticker had before are still there, in order, at
    the beginning of its list. *)
Theorem snapshots_append_only rows s ticker :
  prefix (Dict.get_default String.eqb (snapshots_by_ticker s) ticker [])
    (Dict.get_default String.eqb
       (snapshots_by_ticker (snd (process_rows rows s))) ticker []).
Proof.
  revert s. induction rows as [|r rows IH]; intros s; [apply prefix_refl|].
  rewrite process_rows_cons.
  pose proof (process_row_prefix r s ticker) as H.
  destruct (process_row r s) as [[u|e] s']; simpl in *; [|assumption].
  apply (prefix_trans _ _ _ H). apply IH.
Qed.

(** *** When the loop raises *)

Lemma add_order_cut_short r s :
  has_symbol_and_side r = false ->
  add_order r s = (Raise AttributeError, s).
Proof.
  unfold has_symbol_and_side, add_order. run.
  destruct (row_get r "symbol" (Some "")) as [sy|]; simpl; [|reflexivity].
  destruct (row_get r "side" (Some "B")) as [sd|]; simpl;
    [discriminate|reflexivity].
Qed.

Lemma process_row_result r s :
  no_nan (orders s) ->
  if is_type r "A" && negb (has_symbol_and_side r)
  then process_row r s = (Raise AttributeError, s)
  else fst (process_row r s) = Ok tt.
Proof.
  intros Hn. unfold process_row.
  change (cell_is (row_get r "message_type" None)) with (is_type r).
  destruct (is_type r "A") eqn:TA; simpl.
  { destruct (has_symbol_and_side r) eqn:Hc; simpl.
    - unfold has_symbol_and_side in Hc.
      destruct (row_get r "symbol" (Some "")) as [sy|] eqn:Hs; [|discriminate].
      destruct (row_get r "side" (Some "B")) as [sd|] eqn:Hd; [|discriminate].
      rewrite (add_order_eq r s sy sd Hs Hd). reflexivity.
    - apply add_order_cut_short. assumption. }
  destruct (is_type r "e").
  { destruct (Dict.get id_eqb (orders s) (row_id r)) as [o|] eqn:G.
    - destruct (executed_quantity r) as [e|e] eqn:E.
      + rewrite (execute_present r s o e G E). reflexivity.
      + rewrite (execute_malformed r s e E). reflexivity.
    - rewrite (execute_absent r s G). reflexivity. }
  destruct (is_type r "D"); [rewrite delete_order_eq; reflexivity|].
  destruct (is_type r "U").
  { destruct (Dict.get id_eqb (orders s) (row_old_id r)) as [old|] eqn:G.
    - destruct (replaced_price r old) as [p|e] eqn:Ep.
      + destruct (replaced_quantity r old) as [q|e] eqn:Eq.
        * rewrite (replace_present r s old p q G Ep Eq). reflexivity.
        * rewrite (replace_malformed r s old G) by eauto. reflexivity.
      + rewrite (replace_malformed r s old G) by eauto. reflexivity.
    - rewrite (replace_absent r s G). reflexivity. }
  destruct (is_type r "T"); [|reflexivity].
  destruct (snapshot_book_spec r s Hn) as [s' [H _]]. rewrite H. reflexivity.
Qed.

(** X8.  The loop body raises in one case only: an Add row whose symbol or
    side cell is [None] (a line cut short) raises [AttributeError] and
    leaves the state untouched.  Every other row, on a store whose prices
    are numbers, completes. *)
Theorem process_row_raises_only r s e :
  no_nan (orders s) ->
  fst (process_row r s) = Raise e ->
  e = AttributeError
  /\ is_type r "A" = true
  /\ has_symbol_and_side r = false
  /\ snd (process_row r s) = s.
Proof.
  intros Hn He. pose proof (process_row_result r s Hn) as H.
  destruct (is_type r "A" && negb (has_symbol_and_side r))%bool eqn:C.
  - apply andb_prop in C. destruct C as [CA Cc].
    apply negb_true_iff in Cc. rewrite H in He. simpl in He.
    inversion He. subst. rewrite H. auto.
  - congruence.
Qed.

Lemma process_row_raises_only_witness :
  process_row Samples.truncated_add Samples.book1
  = (Raise AttributeError, Samples.book1).
Proof.
  destruct (process_row Samples.truncated_add Samples.book1) as [res s'] eqn:E.
  assert (R : fst (process_row Samples.truncated_add Samples.book1)
              = Raise AttributeError) by reflexivity.
  destruct (process_row_raises_only Samples.truncated_add Samples.book1
              AttributeError) as [_ [_ [_ H]]].
  - repeat constructor.
  - exact R.
  - rewrite E in R, H. simpl in R, H. subst. reflexivity.
Defined.

(** X9.  An input whose Add rows all have their symbol and side cells and
    whose rows bring no NaN price is processed to the end: the loop raises
    nothing. *)
Theorem run_completes rows :
  Forall (fun r => row_ok r = true) rows ->
  fst (build_level2_simple rows) = Ok tt.
Proof.
  unfold build_level2_simple.
  assert (H : forall s, no_nan (orders s) ->
                Forall (fun r => row_ok r = true) rows ->
                fst (process_rows rows s) = Ok tt).
  { induction rows as [|r rows IH]; intros s Hn Hok; [reflexivity|].
    inversion Hok as [|? ? Hr Hrest]; subst.
    unfold row_ok in Hr. apply andb_prop in Hr. destruct Hr as [Hp Hc].
    rewrite process_rows_cons.
    pose proof (process_row_result r s Hn) as Hres.
    pose proof (step_numbers r _ _ Hp Hn (process_row_step r s)) as Hn'.
    assert (C : (is_type r "A" && negb (has_symbol_and_side r))%bool = false).
    { destruct (is_type r "A"); simpl in *; [|reflexivity].
      rewrite Hc. reflexivity. }
    rewrite C in Hres.
    destruct (process_row r s) as [[u|e] s']; simpl in *; [|discriminate].
    apply IH; assumption. }
  intros Hok. apply H; [constructor|assumption].
Qed.

Lemma run_completes_witness :
  fst (build_level2_simple
         (Samples.rows8 ++ [Samples.trigger "7"; Samples.execute "3" "x";
                            Samples.replace "1" "10" "" "5";
                            Samples.delete "2"]))
  = Ok tt.
Proof. apply run_completes. repeat constructor. Defined.

(** *** How many levels, and what they add up to *)





Lemma total_app l1 l2 : total (l1 ++ l2) = total l1 + total l2.
Proof.
  unfold total. induction l1 as [|x l1 IH]; simpl; [reflexivity|].
  rewrite IH. lia.
Qed.









End BookExtras.

(* ================================================================= *)
(** ** Further properties of the decoders *)

Module DecoderExtras.
Import Py Decoders DecoderSpec DecoderMore BookSpec DictFacts DepthProps DecoderProps.

(** *** Slices of a frame *)

Lemma when_ge_true msg n k v rec :
  n <= len msg ->
  when_ge msg n k v rec = Py.bind v (fun x => Ok (setitem rec k x)).
Proof.
  intros H. unfold when_ge. destruct (Z.leb_spec n (len msg)); [reflexivity|lia].
Qed.

Lemma when_ge_false msg n k v rec :
  len msg < n -> when_ge msg n k v rec = Ok rec.
Proof.
  intros H. unfold when_ge. destruct (Z.leb_spec n (len msg)); [lia|reflexivity].
Qed.

Lemma decode_timestamp_slice (msg : bytes) lo hi :
  hi = (lo + 4)%nat -> Z.of_nat hi <= len msg ->
  decode_timestamp (slice msg lo hi) = VInt (from_bytes_big (slice msg lo hi)).
Proof.
  intros E H. unfold decode_timestamp.
  assert (L : List.length (slice msg lo hi) = 4%nat)
    by (rewrite length_slice by lia; lia).
  rewrite L. cbn [Nat.ltb Nat.leb].
  assert (S : slice (slice msg lo hi) 0 4 = slice msg lo hi).
  { unfold slice at 1. cbn [skipn Nat.sub]. rewrite <- L. apply firstn_all. }
  rewrite S. unfold unpack_I. rewrite L. reflexivity.
Qed.

Lemma from_bytes_slice_range (msg : bytes) lo hi :
  (lo <= hi)%nat -> Z.of_nat hi <= len msg ->
  0 <= from_bytes_big (slice msg lo hi) < 256 ^ Z.of_nat (hi - lo).
Proof.
  intros H1 H2. pose proof (from_bytes_big_range (slice msg lo hi)) as R.
  rewrite length_slice in R by assumption. exact R.
Qed.

(** *** Padding and decoding *)

Lemma length_drop_pad b : (List.length (drop_pad b) <= List.length b)%nat.
Proof.
  induction b as [|x b IH]; simpl; [lia|].
  destruct (is_pad x); simpl; lia.
Qed.

Lemma length_rstrip_pad b : (List.length (rstrip_pad b) <= List.length b)%nat.
Proof.
  unfold rstrip_pad. rewrite length_rev.
  pose proof (length_drop_pad (rev b)) as H. rewrite length_rev in H. exact H.
Qed.

Lemma drop_pad_head b :
  match drop_pad b with
  | x :: _ => is_pad x = false
  | [] => True
  end.
Proof.
  induction b as [|x b IH]; simpl; [exact I|].
  destruct (is_pad x) eqn:E; [exact IH|exact E].
Qed.

Lemma decode_replace_chars b : forallb decoded_char (decode_replace b) = true.
Proof.
  unfold decode_replace. induction b as [|x b IH]; simpl; [reflexivity|].
  rewrite IH, andb_true_r. unfold decoded_char.
  destruct (N.ltb_spec (Byte.to_N x) 128) as [H|H].
  - apply N.ltb_lt in H. rewrite H. reflexivity.
  - reflexivity.
Qed.

Lemma decode_ignore_chars b : forallb ascii_char (decode_ignore b) = true.
Proof.
  unfold decode_ignore. induction b as [|x b IH]; simpl; [reflexivity|].
  destruct (Byte.to_N x <? 128)%N eqn:E; simpl; [|exact IH].
  unfold ascii_char at 1. rewrite E. exact IH.
Qed.

Lemma length_decode_ignore b :
  (List.length (decode_ignore b) <= List.length b)%nat.
Proof.
  unfold decode_ignore. rewrite length_map. apply filter_length_le.
Qed.

Lemma decode_replace_unpadded b :
  unpadded (decode_replace (rstrip_pad b)) = true.
Proof.
  unfold unpadded, decode_replace, rstrip_pad.
  rewrite <- map_rev, rev_involutive.
  pose proof (drop_pad_head (rev b)) as H.
  destruct (drop_pad (rev b)) as [|x l]; [reflexivity|].
  cbn [map]. unfold is_pad in H.
  destruct (N.ltb_spec (Byte.to_N x) 128) as [L|L].
  - rewrite H. reflexivity.
  - reflexivity.
Qed.

(** *** What the entries of a record hold *)

Lemma entries_set rec k v :
  entries_ok rec -> entry_ok k v -> entries_ok (setitem rec k v).
Proof.
  intros Hr Hv k' v'. unfold setitem. rewrite get_set_str.
  destruct (String.eqb k k') eqn:E.
  - apply String.eqb_eq in E. subst k'. intros H. inversion H; subst. exact Hv.
  - apply Hr.
Qed.

Lemma when_ge_entries msg n k v rec :
  entries_ok rec ->
  (n <= len msg -> exists x, v = Ok x /\ entry_ok k x) ->
  exists rec', when_ge msg n k v rec = Ok rec' /\ entries_ok rec'.
Proof.
  intros Hr Hv. destruct (Z.le_gt_cases n (len msg)) as [H|H].
  - rewrite when_ge_true by assumption.
    destruct (Hv H) as [x [E Hx]]. subst v. cbn [Py.bind].
    eexists. split; [reflexivity|]. apply entries_set; assumption.
  - rewrite when_ge_false by lia. eexists. split; [reflexivity|assumption].
Qed.

Lemma when_gt_entries msg n k v rec :
  entries_ok rec -> entry_ok k v ->
  exists rec', when_gt msg n k (Ok v) rec = Ok rec' /\ entries_ok rec'.
Proof.
  intros Hr Hv. rewrite when_gt_pure. eexists. split; [reflexivity|].
  destruct (n + 1 <=? len msg); [apply entries_set|]; assumption.
Qed.

Ltac entry_other :=
  unfold entry_ok; repeat split;
  [ discriminate
  | cbn; intros ? ?; discriminate
  | unfold replaced_fields; cbn [In]; intros F; exfalso;
    repeat (destruct F as [F|F]; [discriminate F|]); exact F
  | unfold filtered_fields; cbn [In]; intros F; exfalso;
    repeat (destruct F as [F|F]; [discriminate F|]); exact F
  | intros F; discriminate F ].

Lemma header_entries tag name n : entries_ok (header tag name n).
Proof.
  intros k v. unfold header. cbn [Dict.get].
  repeat match goal with
         | |- (if String.eqb ?a k then _ else _) = _ -> _ =>
             let E := fresh "E" in
             destruct (String.eqb a k) eqn:E;
             [apply String.eqb_eq in E; subst k; intros H; inversion H; subst v;
              clear H; entry_other|]
         end.
  discriminate.
Qed.

Lemma entry_uint (msg : bytes) k bound lo hi :
  Dict.get String.eqb int_fields k = Some bound ->
  (lo <= hi)%nat -> 256 ^ Z.of_nat (hi - lo) = bound ->
  Z.of_nat hi <= len msg ->
  entry_ok k (VInt (from_bytes_big (slice msg lo hi))).
Proof.
  intros Hk Hlo Hb Hlen.
  pose proof (from_bytes_slice_range msg lo hi Hlo Hlen) as R. rewrite Hb in R.
  clear Hb. unfold int_fields in Hk. cbn [Dict.get] in Hk.
  repeat match type of Hk with
         | (if String.eqb ?a k then _ else _) = _ =>
             let E := fresh "E" in
             destruct (String.eqb a k) eqn:E;
             [apply String.eqb_eq in E; subst k|]
         end;
    try discriminate Hk;
    (injection Hk as Hbd; rewrite <- Hbd in R; unfold entry_ok; repeat split;
     [ discriminate
     | intros b' Hb'; vm_compute in Hb'; inversion Hb'; subst b';
       eexists; split; [reflexivity|exact R]
     | unfold replaced_fields; cbn [In]; intros F; exfalso;
       repeat (destruct F as [F|F]; [discriminate F|]); exact F
     | unfold filtered_fields; cbn [In]; intros F; exfalso;
       repeat (destruct F as [F|F]; [discriminate F|]); exact F
     | intros F; discriminate F ]).
Qed.

Lemma entry_replaced k b :
  In k replaced_fields -> (List.length b <= 8)%nat ->
  entry_ok k (VStr (decode_replace (rstrip_pad b))).
Proof.
  intros Hk Hb.
  assert (T : exists t, VStr (decode_replace (rstrip_pad b)) = VStr t
                        /\ (List.length t <= 8)%nat
                        /\ forallb decoded_char t = true /\ unpadded t = true).
  { eexists. split; [reflexivity|]. split; [|split].
    - unfold decode_replace. rewrite length_map.
      pose proof (length_rstrip_pad b). lia.
    - apply decode_replace_chars.
    - apply decode_replace_unpadded. }
  unfold replaced_fields in Hk. cbn [In] in Hk.
  destruct Hk as [Hk|[Hk|[]]]; subst k;
    (unfold entry_ok; repeat split;
     [ discriminate
     | cbn; intros ? ?; discriminate
     | intros _; exact T
     | unfold filtered_fields; cbn [In]; intros F; exfalso;
       repeat (destruct F as [F|F]; [discriminate F|]); exact F
     | intros F; discriminate F ]).
Qed.

Lemma entry_filtered k b :
  In k filtered_fields -> (List.length b <= 8)%nat ->
  entry_ok k (VStr (decode_ignore (rstrip_pad b))).
Proof.
  intros Hk Hb.
  assert (T : exists t, VStr (decode_ignore (rstrip_pad b)) = VStr t
                        /\ (List.length t <= 8)%nat
                        /\ forallb ascii_char t = true).
  { eexists. split; [reflexivity|]. split.
    - pose proof (length_decode_ignore (rstrip_pad b)).
      pose proof (length_rstrip_pad b). lia.
    - apply decode_ignore_chars. }
  unfold filtered_fields in Hk. cbn [In] in Hk.
  destruct Hk as [Hk|[Hk|[]]]; subst k;
    (unfold entry_ok; repeat split;
     [ discriminate
     | cbn; intros ? ?; discriminate
     | unfold replaced_fields; cbn [In]; intros F; exfalso;
       repeat (destruct F as [F|F]; [discriminate F|]); exact F
     | intros _; exact T
     | intros F; discriminate F ]).
Qed.

Lemma decode_price_slice (msg : bytes) lo hi scale :
  hi = (lo + 4)%nat -> Z.of_nat hi <= len msg ->
  exists cents,
    unpack_i (slice msg lo hi) = Ok cents
    /\ decode_price (slice msg lo hi) scale
       = VFloat (true_div cents (Z.to_pos (10 ^ Z.of_N scale))).
Proof.
  intros E H. unfold decode_price.
  assert (L : List.length (slice msg lo hi) = 4%nat)
    by (rewrite length_slice by lia; lia).
  rewrite L. cbn [Nat.ltb Nat.leb].
  assert (S : slice (slice msg lo hi) 0 4 = slice msg lo hi).
  { unfold slice at 1. cbn [skipn Nat.sub]. rewrite <- L. apply firstn_all. }
  rewrite S. unfold unpack_i. rewrite L. cbn [Nat.eqb].
  eexists. split; reflexivity.
Qed.

Lemma entry_price (msg : bytes) lo hi scale :
  hi = (lo + 4)%nat -> Z.of_nat hi <= len msg ->
  entry_ok "price" (decode_price (slice msg lo hi) scale).
Proof.
  intros E H. destruct (decode_price_slice msg lo hi scale E H) as [c [_ P]].
  rewrite P. unfold entry_ok; repeat split.
  - discriminate.
  - cbn. intros ? ?. discriminate.
  - unfold replaced_fields; cbn [In]; intros F; exfalso;
      repeat (destruct F as [F|F]; [discriminate F|]); exact F.
  - unfold filtered_fields; cbn [In]; intros F; exfalso;
      repeat (destruct F as [F|F]; [discriminate F|]); exact F.
  - intros _. eexists. split; [reflexivity|apply true_div_number].
Qed.

Lemma decode_side_text (msg : bytes) lo :
  Z.of_nat (S lo) <= len msg ->
  exists t, decode_side (slice msg lo (S lo)) = VStr t.
Proof.
  intros H.
  assert (L : List.length (slice msg lo (S lo)) = 1%nat)
    by (rewrite length_slice by lia; lia).
  destruct (slice msg lo (S lo)) as [|b l]; [discriminate L|].
  unfold decode_side.
  destruct ((Byte.to_N b =? 66) || (Byte.to_N b =? 83))%N; eexists; reflexivity.
Qed.

Lemma entry_side (msg : bytes) lo :
  Z.of_nat (S lo) <= len msg ->
  entry_ok "side" (decode_side (slice msg lo (S lo))).
Proof.
  intros H. destruct (decode_side_text msg lo H) as [t E]. rewrite E.
  entry_other.
Qed.

Ltac entry msg Hlen :=
  first
    [ apply (entry_uint msg "timestamp" (2 ^ 32) 1 5);
      [reflexivity|lia|reflexivity|exact Hlen]
    | apply (entry_uint msg "order_id" (2 ^ 64) 5 13);
      [reflexivity|lia|reflexivity|exact Hlen]
    | apply (entry_uint msg "quantity" (2 ^ 32) 21 25);
      [reflexivity|lia|reflexivity|exact Hlen]
    | apply (entry_uint msg "counter" (2 ^ 32) 1 5);
      [reflexivity|lia|reflexivity|exact Hlen]
    | apply entry_replaced;
      [cbn; tauto|rewrite length_slice by (lia || exact Hlen); lia]
    | apply entry_filtered;
      [cbn; tauto|rewrite length_slice by (lia || exact Hlen || (unfold len in *; lia)); lia]
    | apply (entry_price msg 25 29); [reflexivity|exact Hlen]
    | apply (entry_side msg 29); exact Hlen
    | entry_other ].

Ltac field msg Hlen :=
  try rewrite (decode_timestamp_slice msg 1 5) by (reflexivity || exact Hlen);
  try (rewrite (unpack_I_slice msg 21 25) by (reflexivity || exact Hlen);
       cbn [vint Py.bind]);
  try (rewrite (unpack_I_slice msg 1 5) by (reflexivity || exact Hlen);
       cbn [vint Py.bind]);
  eexists; split; [reflexivity|]; entry msg Hlen.

Ltac parser_step msg :=
  match goal with
  | Hr : entries_ok ?rec
    |- exists r, Py.bind (when_ge msg ?n ?k ?v ?rec) _ = Ok r /\ _ =>
      let rec' := fresh "rec" in
      let E := fresh "E" in
      let Hr' := fresh "Hr" in
      destruct (when_ge_entries msg n k v rec Hr) as [rec' [E Hr']];
      [ let Hlen := fresh "Hlen" in intros Hlen; field msg Hlen
      | rewrite E; cbn [Py.bind]; clear E Hr ]
  | Hr : entries_ok ?rec
    |- exists r, Py.bind (when_gt msg ?n ?k (Ok ?v) ?rec) _ = Ok r /\ _ =>
      let rec' := fresh "rec" in
      let E := fresh "E" in
      let Hr' := fresh "Hr" in
      destruct (when_gt_entries msg n k v rec Hr) as [rec' [E Hr']];
      [ entry_other
      | rewrite E; cbn [Py.bind]; clear E Hr ]
  | Hr : entries_ok ?rec |- exists r, Ok ?rec = Ok r /\ _ =>
      exists rec; split; [reflexivity|exact Hr]
  end.

Ltac parser_entries msg tag name n :=
  pose proof (header_entries tag name n) as Hr;
  cbn [Py.bind];
  repeat parser_step msg.

Lemma parse_a_entries msg :
  exists rec, parse_message_type_a msg = Ok rec /\ entries_ok rec.
Proof.
  unfold parse_message_type_a. parser_entries msg "A" "Add Order" 30.
Qed.

Lemma parse_r_entries msg :
  exists rec, parse_message_type_r msg = Ok rec /\ entries_ok rec.
Proof.
  unfold parse_message_type_r.
  parser_entries msg "R" "Trade Report (PSE-specific)" (len msg).
Qed.

Lemma parse_k_entries msg :
  exists rec, parse_message_type_k msg = Ok rec /\ entries_ok rec.
Proof.
  unfold parse_message_type_k.
  parser_entries msg "k" "Order Book/Quote Update (PSE-specific)" 30.
Qed.

Lemma parse_h_entries msg :
  exists rec, parse_message_type_h msg = Ok rec /\ entries_ok rec.
Proof.
  unfold parse_message_type_h. parser_entries msg "H" "Trading Status" 11.
Qed.

Lemma parse_f_entries msg :
  exists rec, parse_message_type_f msg = Ok rec /\ entries_ok rec.
Proof.
  unfold parse_message_type_f. parser_entries msg "f" "Unknown PSE Type (f)" 24.
Qed.

Lemma parse_l_entries msg :
  exists rec, parse_message_type_l msg = Ok rec /\ entries_ok rec.
Proof.
  unfold parse_message_type_l. parser_entries msg "L" "Listing/IPO" 17.
Qed.

Lemma parse_s_entries msg :
  exists rec, parse_message_type_s msg = Ok rec /\ entries_ok rec.
Proof.
  unfold parse_message_type_s. parser_entries msg "s" "Unknown PSE Type (s)" 22.
Qed.

Lemma parse_m_entries msg :
  exists rec, parse_message_type_m msg = Ok rec /\ entries_ok rec.
Proof.
  unfold parse_message_type_m. parser_entries msg "M" "Unknown PSE Type (M)" 25.
Qed.

Lemma parse_s_stock_entries msg :
  exists rec, parse_message_type_s_stock msg = Ok rec /\ entries_ok rec.
Proof.
  unfold parse_message_type_s_stock.
  parser_entries msg "S" "Stock Trade" (len msg).
  match goal with
  | Hr : entries_ok ?rec |- context [when_ge msg ?n ?k ?v ?rec] =>
      destruct (when_ge_entries msg n k v rec Hr) as [rec' [E Hr']];
      [intros Hlen; field msg Hlen|rewrite E]
  end.
  eexists. split; [reflexivity|exact Hr'].
Qed.

Lemma parse_t_entries msg :
  exists rec, parse_message_type_t msg = Ok rec /\ entries_ok rec.
Proof.
  unfold parse_message_type_t. parser_entries msg "T" "System Sync" 5.
Qed.

Lemma decoders_entries tag parser :
  Dict.get text_eqb decoders tag = Some parser ->
  forall msg, exists rec, parser msg = Ok rec /\ entries_ok rec.
Proof.
  unfold decoders. cbn [Dict.get].
  repeat match goal with
         | |- (if text_eqb ?t tag then _ else _) = _ -> _ =>
             let E := fresh "E" in
             destruct (text_eqb t tag) eqn:E;
             [intros H; inversion H; subst parser; clear H|]
         end;
    try discriminate.
  - apply parse_a_entries.
  - apply parse_r_entries.
  - apply parse_k_entries.
  - apply parse_h_entries.
  - apply parse_f_entries.
  - apply parse_l_entries.
  - apply parse_s_entries.
  - apply parse_m_entries.
  - apply parse_s_stock_entries.
  - apply parse_t_entries.
Qed.

Lemma decode_message_entries msg rec :
  decode_message msg = Ok rec -> entries_ok rec.
Proof.
  destruct msg as [|b rest]; unfold decode_message.
  - intros H. inversion H; subst. intros k v. cbn [Dict.get].
    destruct (String.eqb "error" k) eqn:E; [|discriminate].
    apply String.eqb_eq in E. subst k. intros H'. inversion H'; subst.
    entry_other.
  - destruct (Dict.get text_eqb decoders (type_tag b)) as [parser|] eqn:G.
    + destruct (decoders_entries _ _ G (b :: rest)) as [rec' [E Hr]].
      rewrite E. intros H. inversion H; subst. exact Hr.
    + intros H. inversion H; subst. intros k v. cbn [Dict.get].
      repeat match goal with
             | |- (if String.eqb ?a k then _ else _) = _ -> _ =>
                 let E := fresh "E" in
                 destruct (String.eqb a k) eqn:E;
                 [apply String.eqb_eq in E; subst k; intros H'; inversion H';
                  subst v; clear H'; entry_other|]
             end.
      discriminate.
Qed.

(** *** The header of a record *)

Ltac parser_header msg :=
  cbn [Py.bind];
  repeat (first [ rewrite when_ge_pure
                | rewrite when_gt_pure
                | rewrite (when_ge_unpack msg 21 25) by reflexivity
                | rewrite (when_ge_unpack msg 1 5) by reflexivity ];
          cbn [Py.bind]);
  eexists; split; [reflexivity|];
  repeat match goal with
         | |- context [Z.leb ?a (len msg)] => destruct (Z.leb a (len msg))
         end;
  split; reflexivity.

Lemma decoders_header tag parser :
  Dict.get text_eqb decoders tag = Some parser ->
  forall msg, exists rec,
    parser msg = Ok rec
    /\ Dict.get String.eqb rec "message_type" = Some (VStr tag)
    /\ Dict.get String.eqb rec "message_length"
       = Some (VInt (reported_length tag (len msg))).
Proof.
  unfold decoders. cbn [Dict.get].
  repeat match goal with
         | |- (if text_eqb ?t tag then _ else _) = _ -> _ =>
             let E := fresh "E" in
             destruct (text_eqb t tag) eqn:E;
             [apply text_eqb_eq in E; subst tag;
              intros H; inversion H; subst parser; clear H; intros msg|]
         end;
    try discriminate.
  - unfold parse_message_type_a. parser_header msg.
  - unfold parse_message_type_r. parser_header msg.
  - unfold parse_message_type_k. parser_header msg.
  - unfold parse_message_type_h. parser_header msg.
  - unfold parse_message_type_f. parser_header msg.
  - unfold parse_message_type_l. parser_header msg.
  - unfold parse_message_type_s. parser_header msg.
  - unfold parse_message_type_m. parser_header msg.
  - unfold parse_message_type_s_stock. parser_header msg.
  - unfold parse_message_type_t. parser_header msg.
Qed.

Lemma unregistered_length tag n :
  Dict.get text_eqb decoders tag = None -> reported_length tag n = n.
Proof.
  unfold decoders, reported_length, Dict.get_default, nominal_length.
  cbn [Dict.get].
  repeat match goal with
         | |- context [text_eqb ?t tag] => destruct (text_eqb t tag)
         end;
    try discriminate; reflexivity.
Qed.

(** X12.  Every record of a non-empty frame carries the type tag of its
    first byte under [message_type].  Its [message_length] is not always
    the length of the frame: for the types A, k, H, f, L, s, M and T it is
    the constant the parser was written with, whatever the frame holds;
    only for R, S and the unregistered tags is it the number of bytes. *)
Theorem record_header b rest :
  exists rec,
    decode_message (b :: rest) = Ok rec
    /\ Dict.get String.eqb rec "message_type" = Some (VStr (type_tag b))
    /\ Dict.get String.eqb rec "message_length"
       = Some (VInt (reported_length (type_tag b) (len (b :: rest)))).
Proof.
  unfold decode_message.
  destruct (Dict.get text_eqb decoders (type_tag b)) as [parser|] eqn:G.
  - apply (decoders_header _ _ G).
  - eexists. split; [reflexivity|]. split; [reflexivity|].
    rewrite (unregistered_length _ _ G). reflexivity.
Qed.

(** An Add Order frame of seven bytes is reported as 30 bytes long. *)
Lemma short_frame_reports_nominal_length :
  exists rec,
    decode_message (frame [65; 0; 0; 0; 7; 0; 0]%N) = Ok rec
    /\ Dict.get String.eqb rec "message_length" = Some (VInt 30).
Proof. eexists. split; vm_compute; reflexivity. Qed.

(** *** The entries of a record *)

(** X13.  The integer entries of a record are unsigned and bounded by the
    width of their field: [timestamp], [quantity] and [counter] lie below
    2^32 and [order_id] below 2^64.  In particular the timestamp is never
    [None], since the guard on the frame length leaves [decode_timestamp]
    four bytes. *)
Theorem integer_entries_in_range msg rec k bound v :
  decode_message msg = Ok rec ->
  In (k, bound) int_fields ->
  Dict.get String.eqb rec k = Some v ->
  exists z, v = VInt z /\ 0 <= z < bound.
Proof.
  intros D Hk G.
  destruct (decode_message_entries _ _ D k v G) as [_ [Hint _]].
  apply Hint. unfold int_fields in *. cbn [In] in Hk.
  repeat (destruct Hk as [Hk|Hk]; [inversion Hk; subst; reflexivity|]).
  destruct Hk.
Qed.

Lemma integer_entries_in_range_witness :
  exists z, VInt 7 = VInt z /\ 0 <= z < 2 ^ 32.
Proof.
  apply (integer_entries_in_range (frame [65; 0; 0; 0; 7; 0; 0]%N)
           [("message_type", VStr (lit "A"));
            ("type_name", VStr (lit "Add Order"));
            ("message_length", VInt 30);
            ("msg_type_byte", VBytes (frame [65]%N)); ("timestamp", VInt 7)]
           "timestamp" (2 ^ 32) (VInt 7)).
  - vm_compute. reflexivity.
  - simpl. left. reflexivity.
  - reflexivity.
Defined.

(** X14.  The text entries of a record come from a field of at most eight
    bytes.  Those decoded with [errors='replace'] ([symbol], [identifier])
    hold at most eight code points, each ASCII or U+FFFD, and do not end
    with NUL or a space; those decoded with [errors='ignore']
    ([status_code], [symbol_raw]) hold at most eight ASCII code points. *)
Theorem text_entries msg rec k v :
  decode_message msg = Ok rec ->
  Dict.get String.eqb rec k = Some v ->
  (In k replaced_fields ->
   exists t, v = VStr t /\ (List.length t <= 8)%nat
             /\ forallb decoded_char t = true /\ unpadded t = true)
  /\ (In k filtered_fields ->
      exists t, v = VStr t /\ (List.length t <= 8)%nat
                /\ forallb ascii_char t = true).
Proof.
  intros D G.
  destruct (decode_message_entries _ _ D k v G) as [_ [_ [Hr [Hf _]]]].
  split; assumption.
Qed.

(** The symbol "AB" padded with spaces, in a Listing frame. *)
Lemma text_entries_witness :
  exists t, VStr (lit "AB") = VStr t /\ (List.length t <= 8)%nat
            /\ forallb decoded_char t = true /\ unpadded t = true.
Proof.
  apply (text_entries
           (frame [76; 0; 0; 0; 7; 65; 66; 32; 32; 32; 32; 32; 32]%N)
           [("message_type", VStr (lit "L"));
            ("type_name", VStr (lit "Listing/IPO"));
            ("message_length", VInt 17);
            ("msg_type_byte", VBytes (frame [76]%N)); ("timestamp", VInt 7);
            ("symbol", VStr (lit "AB"))]
           "symbol" (VStr (lit "AB"))).
  - vm_compute. reflexivity.
  - reflexivity.
  - simpl. left. reflexivity.
Defined.

(** With [errors='ignore'] a byte that is not ASCII disappears after the
    padding was stripped, so a [status_code] can end with a space. *)
Lemma ignored_byte_uncovers_padding :
  exists rec,
    decode_message (frame [72; 0; 0; 0; 7; 79; 75; 32; 32; 32; 255]%N) = Ok rec
    /\ Dict.get String.eqb rec "status_code" = Some (VStr (lit "OK   ")).
Proof. eexists. split; vm_compute; reflexivity. Qed.

(** X15.  No entry of a record is [None], and a [price] entry is a float
    that is a number: the guards on the frame length leave every field
    decoder enough bytes, so the [None] branches of [decode_timestamp],
    [decode_price] and [decode_side] are never taken from
    [decode_message]. *)
Theorem entries_never_none msg rec k v :
  decode_message msg = Ok rec ->
  Dict.get String.eqb rec k = Some v ->
  v <> VNone
  /\ (k = "price" -> exists f, v = VFloat f /\ is_nan f = false).
Proof.
  intros D G.
  destruct (decode_message_entries _ _ D k v G) as [Hn [_ [_ [_ Hp]]]].
  split; assumption.
Qed.

Lemma entries_never_none_witness :
  VInt 7 <> VNone
  /\ ("timestamp" = "price" -> exists f, VInt 7 = VFloat f /\ is_nan f = false).
Proof.
  apply (entries_never_none (frame [65; 0; 0; 0; 7; 0; 0]%N)
           [("message_type", VStr (lit "A"));
            ("type_name", VStr (lit "Add Order"));
            ("message_length", VInt 30);
            ("msg_type_byte", VBytes (frame [65]%N)); ("timestamp", VInt 7)]
           "timestamp" (VInt 7)).
  - vm_compute. reflexivity.
  - reflexivity.
Defined.

(** *** The dispatcher *)

Lemma registered_dispatch b :
  Dict.mem text_eqb decoders (type_tag b) = registered b.
Proof. destruct b; vm_compute; reflexivity. Qed.

Lemma unregistered_record b rest :
  registered b = false ->
  decode_message (b :: rest) = Ok (unrecognized (b :: rest) (type_tag b)).
Proof.
  intros H. rewrite <- registered_dispatch in H. unfold Dict.mem in H.
  unfold decode_message.
  destruct (Dict.get text_eqb decoders (type_tag b)); [discriminate|reflexivity].
Qed.

Lemma no_raw_field tag :
  ~ In "raw" (map fst (Dict.get_default text_eqb field_table tag [])).
Proof.
  unfold field_table, Dict.get_default. cbn [Dict.get].
  repeat match goal with
         | |- context [text_eqb ?t tag] => destruct (text_eqb t tag)
         end;
    cbn [map fst In]; intros F;
    repeat (destruct F as [F|F]; [discriminate F|]); exact F.
Qed.

(** X16.  [decode_message] gives the "Unknown" record exactly when the
    first byte is none of A, R, k, H, f, L, s, M, S, T.  The types e, D and
    U, which the order book consumes, have no decoder here. *)
Theorem unknown_iff_unregistered b rest :
  decode_message (b :: rest) = Ok (unrecognized (b :: rest) (type_tag b))
  <-> registered b = false.
Proof.
  split; [|apply unregistered_record].
  intros H. destruct (registered b) eqn:R; [|reflexivity]. exfalso.
  rewrite <- registered_dispatch in R. unfold Dict.mem in R.
  unfold decode_message in H.
  destruct (Dict.get text_eqb decoders (type_tag b)) as [parser|] eqn:G;
    [|discriminate].
  destruct (decoders_known _ _ G (b :: rest)) as [rec [E K]].
  rewrite E in H. inversion H; subst rec. clear H E.
  unfold unrecognized, fitting_keys in K. cbn [Dict.keys map fst app] in K.
  inversion K as [K'].
  apply (no_raw_field (type_tag b)).
  assert (I : In "raw" ["raw"]) by (left; reflexivity).
  rewrite K' in I. apply in_map_iff in I. destruct I as [kn [E I]].
  apply filter_In in I. destruct I as [I _].
  apply in_map_iff. exists kn. split; assumption.
Qed.

Lemma unknown_iff_unregistered_witness :
  decode_message (frame [101; 0; 0; 0; 7]%N)
  = Ok (unrecognized (frame [101; 0; 0; 0; 7]%N) (lit "e")).
Proof.
  apply (proj2 (unknown_iff_unregistered Byte.x65 (frame [0; 0; 0; 7]%N))).
  reflexivity.
Defined.

(** *** Bytes past the layout *)

Lemma slice_app (msg extra : bytes) lo hi :
  Z.of_nat hi <= len msg -> slice (msg ++ extra)%list lo hi = slice msg lo hi.
Proof.
  unfold slice, len. intros H. rewrite skipn_app, firstn_app.
  rewrite length_skipn.
  replace (hi - lo - (List.length msg - lo))%nat with 0%nat by lia.
  cbn [firstn]. apply app_nil_r.
Qed.

Lemma leb_len_true n (msg : bytes) : n <= len msg -> (n <=? len msg) = true.
Proof. intros H. apply Z.leb_le. exact H. Qed.

Lemma leb_len_app_true n (msg extra : bytes) :
  n <= len msg -> (n <=? len (msg ++ extra)%list) = true.
Proof.
  intros H. apply Z.leb_le. unfold len in *. rewrite length_app. lia.
Qed.

Ltac parser_app :=
  cbn [Py.bind];
  repeat (first [ rewrite when_ge_pure
                | rewrite (when_ge_unpack _ 21 25) by reflexivity
                | rewrite (when_ge_unpack _ 1 5) by reflexivity ];
          cbn [Py.bind]);
  rewrite !leb_len_app_true by lia;
  rewrite !leb_len_true by lia;
  rewrite !slice_app by lia;
  reflexivity.

Lemma parse_a_app msg extra :
  30 <= len msg -> parse_message_type_a (msg ++ extra)%list = parse_message_type_a msg.
Proof. intros H. unfold parse_message_type_a. parser_app. Qed.

Lemma parse_k_app msg extra :
  30 <= len msg -> parse_message_type_k (msg ++ extra)%list = parse_message_type_k msg.
Proof. intros H. unfold parse_message_type_k. parser_app. Qed.

Lemma parse_h_app msg extra :
  11 <= len msg -> parse_message_type_h (msg ++ extra)%list = parse_message_type_h msg.
Proof. intros H. unfold parse_message_type_h. parser_app. Qed.

Lemma parse_l_app msg extra :
  17 <= len msg -> parse_message_type_l (msg ++ extra)%list = parse_message_type_l msg.
Proof. intros H. unfold parse_message_type_l. parser_app. Qed.

Lemma parse_t_app msg extra :
  5 <= len msg -> parse_message_type_t (msg ++ extra)%list = parse_message_type_t msg.
Proof. intros H. unfold parse_message_type_t. parser_app. Qed.

(** X17.  For the types A, k, H, L and T the parser reads a fixed layout
    (30, 30, 11, 17 and 5 bytes): whatever follows a frame that is at least
    that long changes nothing in the record. *)
Theorem trailing_bytes_ignored b rest extra n :
  Dict.get N.eqb fixed_layout (Byte.to_N b) = Some n ->
  n <= len (b :: rest) ->
  decode_message ((b :: rest) ++ extra)%list = decode_message (b :: rest).
Proof.
  intros L H.
  assert (T : (b = Byte.x41 /\ n = 30) \/ (b = Byte.x6b /\ n = 30)
              \/ (b = Byte.x48 /\ n = 11) \/ (b = Byte.x4c /\ n = 17)
              \/ (b = Byte.x54 /\ n = 5)).
  { destruct b; vm_compute in L; try discriminate L;
      injection L as L; subst n; tauto. }
  destruct T as [[Eb En]|[[Eb En]|[[Eb En]|[[Eb En]|[Eb En]]]]]; subst b n.
  - apply (parse_a_app (Byte.x41 :: rest) extra H).
  - apply (parse_k_app (Byte.x6b :: rest) extra H).
  - apply (parse_h_app (Byte.x48 :: rest) extra H).
  - apply (parse_l_app (Byte.x4c :: rest) extra H).
  - apply (parse_t_app (Byte.x54 :: rest) extra H).
Qed.

Lemma trailing_bytes_ignored_witness :
  decode_message (frame [84; 0; 0; 0; 7; 1; 2; 3]%N)
  = decode_message (frame [84; 0; 0; 0; 7]%N).
Proof.
  apply (trailing_bytes_ignored Byte.x54 (frame [0; 0; 0; 7]%N)
           (frame [1; 2; 3]%N) 5).
  - reflexivity.
  - vm_compute. discriminate.
Defined.

(** For the types f, s and M the bytes that follow do show, in
    [raw_payload]. *)
Lemma trailing_bytes_kept_by_f :
  decode_message (frame [102; 0; 0; 0; 7; 1; 2]%N)
  <> decode_message (frame [102; 0; 0; 0; 7; 1]%N).
Proof. vm_compute. discriminate. Qed.

(** *** Hexadecimal text *)

Lemma hex_digit_inj upper d1 d2 :
  (d1 < 16)%N -> (d2 < 16)%N ->
  hex_digit upper d1 = hex_digit upper d2 -> d1 = d2.
Proof.
  unfold hex_digit. intros H1 H2.
  destruct (N.ltb_spec d1 10), (N.ltb_spec d2 10), upper; lia.
Qed.

Lemma to_N_inj a b : Byte.to_N a = Byte.to_N b -> a = b.
Proof.
  intros H. pose proof (Byte.of_to_N a) as Ha. rewrite H in Ha.
  rewrite Byte.of_to_N in Ha. inversion Ha. reflexivity.
Qed.

Lemma hex_byte_inj upper a b : hex_byte upper a = hex_byte upper b -> a = b.
Proof.
  unfold hex_byte. intros H. injection H as H1 H2.
  pose proof (Byte.to_N_bounded a) as Ba.
  pose proof (Byte.to_N_bounded b) as Bb.
  apply hex_digit_inj in H1;
    [|apply N.Div0.div_lt_upper_bound; lia|apply N.Div0.div_lt_upper_bound; lia].
  apply hex_digit_inj in H2; [|apply N.mod_lt; lia|apply N.mod_lt; lia].
  apply to_N_inj.
  rewrite (N.div_mod (Byte.to_N a) 16) by lia.
  rewrite (N.div_mod (Byte.to_N b) 16) by lia.
  rewrite H1, H2. reflexivity.
Qed.

Lemma hex_inj a b : hex a = hex b -> a = b.
Proof.
  unfold hex. revert b.
  induction a as [|x a IH]; intros [|y b]; cbn [flat_map]; intros H.
  - reflexivity.
  - discriminate H.
  - discriminate H.
  - unfold hex_byte at 1 3 in H. cbn [app] in H. injection H as H1 H2 H3.
    assert (E : x = y) by (apply (hex_byte_inj false); unfold hex_byte; congruence).
    subst y. f_equal. apply IH. exact H3.
Qed.

(** X18.  The record of an unregistered frame loses nothing: two such
    frames with the same record are the same bytes, since [raw] spells
    every byte with two hexadecimal digits. *)
Theorem unknown_record_keeps_frame b1 rest1 b2 rest2 :
  registered b1 = false -> registered b2 = false ->
  decode_message (b1 :: rest1) = decode_message (b2 :: rest2) ->
  b1 :: rest1 = b2 :: rest2.
Proof.
  intros R1 R2. rewrite (unregistered_record _ _ R1), (unregistered_record _ _ R2).
  unfold unrecognized. intros H. apply hex_inj. congruence.
Qed.

Lemma unknown_record_keeps_frame_witness :
  frame [90; 1; 255]%N = frame [90; 1; 255]%N.
Proof.
  apply (unknown_record_keeps_frame Byte.x5a (frame [1; 255]%N)
           Byte.x5a (frame [1; 255]%N)).
  - reflexivity.
  - reflexivity.
  - reflexivity.
Defined.

(** *** The field decoders *)

Lemma binary_round_aux_sign s m e l :
  0 <= m -> negative (binary_round_aux prec emax s m e l) = s.
Proof.
  intros H. unfold binary_round_aux.
  pose proof (shr_fexp_nonneg m e l H) as H1.
  destruct (shr_fexp prec emax m e l) as [mrs' e'].
  simpl in H1.
  pose proof (shr_fexp_nonneg _ e' loc_Exact
                (round_nonneg _ (loc_of_shr_record mrs') H1)) as H2.
  destruct (shr_fexp prec emax _ e' loc_Exact) as [mrs'' e''].
  simpl in H2. destruct (shr_m mrs'') as [|p|p]; [reflexivity| |lia].
  destruct (e'' <=? emax - prec); reflexivity.
Qed.

Lemma float_div_sign sx mx ex sy my ey :
  negative (float_div (S754_finite sx mx ex) (S754_finite sy my ey))
  = xorb sx sy.
Proof.
  unfold float_div, SFdiv.
  destruct (SFdiv_core_binary prec emax (Z.pos mx) ex (Z.pos my) ey)
    as [[mz ez] lz] eqn:E.
  apply binary_round_aux_sign.
  unfold SFdiv_core_binary in E.
  match type of E with
  | (let '(q, r) := Z.div_eucl ?a ?b in _) = _ =>
      assert (Ha : 0 <= a);
      [|pose proof (Z.div_pos a b Ha) as Hq; unfold Z.div in Hq;
        destruct (Z.div_eucl a b) as [q r]; inversion E; subst; apply Hq; lia]
  end.
  match goal with
  | |- 0 <= match ?s with _ => _ end => destruct s
  end; try lia.
  apply Z.shiftl_nonneg. lia.
Qed.

Lemma true_div_sign a b : negative (true_div a b) = (a <? 0).
Proof.
  unfold true_div. destruct a; [reflexivity| |]; rewrite float_div_sign;
    reflexivity.
Qed.

(** X19.  A price is read as a signed number: [decode_price] gives a float
    whose sign bit is the top bit of the first byte, so a field from
    80 00 00 00 upwards decodes to a negative price, not to a large one. *)
Theorem price_sign_is_top_bit b0 b1 b2 b3 rest scale :
  exists f,
    decode_price (b0 :: b1 :: b2 :: b3 :: rest) scale = VFloat f
    /\ negative f = (128 <=? byte_val b0).
Proof.
  unfold decode_price. cbn [List.length Nat.ltb Nat.leb].
  change (slice (b0 :: b1 :: b2 :: b3 :: rest) 0 4) with [b0; b1; b2; b3].
  unfold unpack_i. cbn [List.length Nat.eqb].
  eexists. split; [reflexivity|]. rewrite true_div_sign.
  unfold from_bytes_big. cbn [fold_left].
  pose proof (byte_val_range b0). pose proof (byte_val_range b1).
  pose proof (byte_val_range b2). pose proof (byte_val_range b3).
  change (2 ^ 31) with 2147483648. change (2 ^ 32) with 4294967296.
  destruct (Z.ltb_spec
              (256 * (256 * (256 * (256 * 0 + byte_val b0) + byte_val b1)
                      + byte_val b2) + byte_val b3) 2147483648);
    destruct (Z.leb_spec 128 (byte_val b0));
    match goal with
    | |- (?x <? 0) = _ => destruct (Z.ltb_spec x 0)
    end; try reflexivity; lia.
Qed.

(** The four bytes FF FF FF FF are minus one cent. *)
Lemma price_of_all_ones_is_negative :
  decode_price (frame [255; 255; 255; 255]%N) 2
  = VFloat (S754_finite true 5764607523034235 (-59)).
Proof. vm_compute. reflexivity. Qed.

(** X20.  [decode_qty] and [decode_timestamp] are the same function: [None]
    for fewer than four bytes, and otherwise an unsigned integer below 2^32
    that depends on the first four bytes only. *)
Theorem decode_qty_timestamp data :
  decode_qty data = decode_timestamp data
  /\ ((List.length data < 4)%nat -> decode_qty data = VNone)
  /\ ((4 <= List.length data)%nat ->
      exists z, decode_qty data = VInt z /\ 0 <= z < 2 ^ 32
                /\ forall more, decode_qty (data ++ more)%list = VInt z).
Proof.
  split; [reflexivity|]. split.
  - intros H. unfold decode_qty. apply Nat.ltb_lt in H. rewrite H. reflexivity.
  - intros H. exists (from_bytes_big (slice data 0 4)).
    assert (L : List.length (slice data 0 4) = 4%nat)
      by (apply length_slice; unfold len; lia).
    assert (Q : forall d : bytes, (4 <= List.length d)%nat ->
                slice d 0 4 = slice data 0 4 ->
                decode_qty d = VInt (from_bytes_big (slice data 0 4))).
    { intros d Hd Hs. unfold decode_qty.
      assert (E : (List.length d <? 4)%nat = false) by (apply Nat.ltb_ge; lia).
      rewrite E, Hs. unfold unpack_I. rewrite L. reflexivity. }
    split; [apply Q; [assumption|reflexivity]|]. split.
    + pose proof (from_bytes_big_range (slice data 0 4)) as R.
      rewrite L in R. exact R.
    + intros more. apply Q.
      * rewrite length_app. lia.
      * apply slice_app. unfold len. lia.
Qed.

Lemma decode_qty_timestamp_witness :
  decode_qty (frame [0; 0; 1; 0; 9]%N) = VInt 256
  /\ decode_qty (frame [0; 0; 1]%N) = VNone.
Proof.
  destruct (decode_qty_timestamp (frame [0; 0; 1; 0; 9]%N)) as [_ [_ H]].
  destruct (decode_qty_timestamp (frame [0; 0; 1]%N)) as [_ [H' _]].
  split.
  - destruct H as [z [E _]]; [simpl; lia|]. vm_compute. reflexivity.
  - apply H'. simpl. lia.
Defined.

(** X21.  [decode_side] looks at the first byte only and loses nothing of
    it: B and S come back as they are, any other byte as 0x and its two
    hexadecimal digits, so equal results mean equal bytes. *)
Theorem decode_side_injective b1 rest1 b2 rest2 :
  decode_side (b1 :: rest1) = decode_side (b2 :: rest2) <-> b1 = b2.
Proof.
  split; [|intros E; subst; reflexivity].
  unfold decode_side.
  destruct ((Byte.to_N b1 =? 66) || (Byte.to_N b1 =? 83))%N;
    destruct ((Byte.to_N b2 =? 66) || (Byte.to_N b2 =? 83))%N;
    unfold hex_tag, hex_byte; cbn [lit map list_ascii_of_string app];
    intros H; inversion H.
  - apply to_N_inj. assumption.
  - apply (hex_byte_inj true). unfold hex_byte. congruence.
Qed.

Lemma decode_side_injective_witness :
  decode_side (frame [66; 1]%N) = decode_side (frame [66; 2]%N).
Proof.
  apply (proj2 (decode_side_injective Byte.x42 (frame [1]%N)
                  Byte.x42 (frame [2]%N))).
  reflexivity.
Defined.

End DecoderExtras.

(* ================================================================= *)
(** ** Properties of the writer *)

Module WriterProps.
Import Py OrderBook BookSpec BookMore Writer WriterSpec.
Import DictFacts FloatFacts OrderBookProps DepthProps.

(** *** Sorting what is sorted *)

Lemma sort_ascending_id l : StronglySorted lt l -> sort l = l.
Proof.
  unfold sort. induction 1 as [|x l Hs IH Hx]; [reflexivity|].
  cbn [fold_right]. rewrite IH. destruct l as [|y l']; [reflexivity|].
  cbn [insert]. inversion Hx as [|? ? Hxy _]; subst. unfold lt in Hxy.
  rewrite (float_lt_asym _ _ Hxy). reflexivity.
Qed.

Lemma sorted_ascending_id l : StronglySorted lt l -> sorted l false = l.
Proof. apply sort_ascending_id. Qed.

Lemma sorted_descending_id l : StronglySorted gt l -> sorted l true = l.
Proof.
  intros H. unfold sorted. rewrite sort_ascending_id.
  - apply rev_involutive.
  - apply (StronglySorted_rev gt) in H. exact H.
Qed.

Lemma keys_sorted (R : float -> float -> Prop) (lv : levels) :
  StronglySorted (fun a b => R (fst a) (fst b)) lv ->
  StronglySorted R (Dict.keys lv).
Proof.
  unfold Dict.keys. induction 1 as [|x l Hs IH Hx]; cbn [map]; constructor.
  - assumption.
  - rewrite Forall_forall in *. intros k Hk. apply in_map_iff in Hk.
    destruct Hk as [y [E Hy]]. subst k. apply Hx. assumption.
Qed.

Lemma get_nth (lv : levels) :
  ForallOrdPairs (fun a b => float_eq (fst a) (fst b) = false) lv ->
  forall i p q, number p -> nth_error lv i = Some (p, q) ->
  Dict.get float_eq lv p = Some q.
Proof.
  induction 1 as [|[k v] l Hk Hl IH]; intros i p q Hp Hn.
  - destruct i; discriminate Hn.
  - destruct i as [|i]; cbn [nth_error] in Hn; cbn [Dict.get].
    + inversion Hn; subst. rewrite float_eq_refl by assumption. reflexivity.
    + rewrite Forall_forall in Hk.
      pose proof (Hk _ (nth_error_In _ _ Hn)) as E. cbn [fst] in E.
      rewrite E. apply (IH i); assumption.
Qed.

(** *** The line of one snapshot *)

Lemma fill_level_sorted side (lv : levels) rd i :
  ForallOrdPairs (fun a b => float_eq (fst a) (fst b) = false) lv ->
  Forall number (Dict.keys lv) ->
  fill_level side lv (Dict.keys lv) rd i
  = Ok (Dict.set String.eqb
          (Dict.set String.eqb rd (level_key side i "price")
             (fst (level_cells lv i)))
          (level_key side i "qty") (snd (level_cells lv i))).
Proof.
  intros Hd Hn. unfold fill_level, level_cells, Dict.keys.
  rewrite nth_error_map.
  destruct (nth_error lv i) as [[p q]|] eqn:E; cbn [option_map fst snd];
    [|reflexivity].
  assert (Hp : number p).
  { rewrite Forall_forall in Hn. apply Hn.
    apply (in_map fst _ _ (nth_error_In _ _ E)). }
  unfold Dict.getitem. rewrite (get_nth lv Hd i p q Hp E). reflexivity.
Qed.

Lemma descending_no_equal (lv : levels) :
  descending lv ->
  ForallOrdPairs (fun a b => float_eq (fst a) (fst b) = false) lv.
Proof.
  apply (sorted_no_equal gt). intros a b H. unfold gt, float_gt in H.
  rewrite float_eq_sym. apply float_lt_not_eq. exact H.
Qed.

Lemma ascending_no_equal (lv : levels) :
  ascending lv ->
  ForallOrdPairs (fun a b => float_eq (fst a) (fst b) = false) lv.
Proof.
  apply (sorted_no_equal lt). intros a b H. apply float_lt_not_eq. exact H.
Qed.

Lemma make_row_shown ticker sn :
  shown sn ->
  exists rd,
    make_row ticker sn = Ok rd
    /\ Dict.keys rd = fieldnames
    /\ writerow rd = Ok (line_of ticker sn).
Proof.
  intros [[Hb Hbn] [Ha Han]]. unfold make_row.
  rewrite (sorted_descending_id _ (keys_sorted gt _ Hb)).
  rewrite (sorted_ascending_id _ (keys_sorted lt _ Ha)).
  cbn [seq fill_levels].
  repeat rewrite (fill_level_sorted "bid" _ _ _ (descending_no_equal _ Hb) Hbn).
  repeat rewrite (fill_level_sorted "ask" _ _ _ (ascending_no_equal _ Ha) Han).
  unfold line_of, side_cells. cbn [seq flat_map app].
  generalize (level_cells (bids sn) 0), (level_cells (bids sn) 1),
    (level_cells (bids sn) 2), (level_cells (bids sn) 3),
    (level_cells (bids sn) 4), (level_cells (asks sn) 0),
    (level_cells (asks sn) 1), (level_cells (asks sn) 2),
    (level_cells (asks sn) 3), (level_cells (asks sn) 4),
    (timestamp_cell (snap_timestamp sn)).
  intros b0 b1 b2 b3 b4 a0 a1 a2 a3 a4 ts.
  eexists. split; [reflexivity|]. split; vm_compute; reflexivity.
Qed.

(** X22.  The line of a snapshot.  For a snapshot as the loop stores it the
    writer builds a [row_data] whose keys are exactly the 22 field names, in
    the order of the header, so [DictWriter] accepts it and fills no column
    by default.  The line holds the ticker, the timestamp, and for each
    side the levels in stored order, best first: a price with two decimals
    and its quantity, then empty cells up to five levels. *)
Theorem snapshot_line ticker sn out :
  shown sn ->
  (exists rd, make_row ticker sn = Ok rd /\ Dict.keys rd = fieldnames)
  /\ write_snapshot ticker sn out = (Ok tt, (out ++ [line_of ticker sn])%list)
  /\ List.length (line_of ticker sn) = 22%nat.
Proof.
  intros H. destruct (make_row_shown ticker sn H) as [rd [E [K W]]].
  split; [exists rd; split; assumption|]. split; [|reflexivity].
  unfold write_snapshot, Stmt.bind, Stmt.eval. rewrite E, W. reflexivity.
Qed.

(** Two bids and no ask. *)
Lemma snapshot_line_witness :
  write_snapshot "ABC"
    (mkSnapshot (Some "7")
       [(Samples.ten, 150); (S754_finite false 5066549580791808 (-49), 20)] [])
    []
  = (Ok tt,
     [[CStr "ABC"; CStr "7"; CStr "10.00"; CInt 150; CStr "9.00"; CInt 20;
       CStr ""; CStr ""; CStr ""; CStr ""; CStr ""; CStr "";
       CStr ""; CStr ""; CStr ""; CStr ""; CStr ""; CStr "";
       CStr ""; CStr ""; CStr ""; CStr ""]]).
Proof.
  destruct (snapshot_line "ABC"
              (mkSnapshot (Some "7")
                 [(Samples.ten, 150);
                  (S754_finite false 5066549580791808 (-49), 20)] []) [])
    as [_ [H _]].
  - repeat split; repeat constructor.
  - exact H.
Defined.

(** *** The order of the lines *)

Lemma N_of_ascii_inj x y : N_of_ascii x = N_of_ascii y -> x = y.
Proof.
  intros H. rewrite <- (ascii_N_embedding x), <- (ascii_N_embedding y).
  rewrite H. reflexivity.
Qed.

Lemma str_lt_total a : forall b,
  str_lt a b = false -> str_lt b a = false -> a = b.
Proof.
  induction a as [|x a IH]; intros [|y b]; cbn [str_lt]; intros H1 H2;
    try discriminate; [reflexivity|].
  destruct (N.ltb_spec (N_of_ascii x) (N_of_ascii y)); [discriminate|].
  destruct (N.ltb_spec (N_of_ascii y) (N_of_ascii x)); [discriminate|].
  assert (E : x = y) by (apply N_of_ascii_inj; lia). subst y.
  f_equal. apply IH; assumption.
Qed.

Lemma str_lt_trans a : forall b c,
  str_lt a b = true -> str_lt b c = true -> str_lt a c = true.
Proof.
  induction a as [|x a IH]; intros [|y b] [|z c]; cbn [str_lt]; intros H1 H2;
    try discriminate; try reflexivity.
  destruct (N.ltb_spec (N_of_ascii x) (N_of_ascii y));
    destruct (N.ltb_spec (N_of_ascii y) (N_of_ascii z));
    destruct (N.ltb_spec (N_of_ascii x) (N_of_ascii z));
    try reflexivity; try lia;
    destruct (N.ltb_spec (N_of_ascii y) (N_of_ascii x));
    destruct (N.ltb_spec (N_of_ascii z) (N_of_ascii y));
    destruct (N.ltb_spec (N_of_ascii z) (N_of_ascii x));
    try discriminate; try lia.
  apply (IH b c); assumption.
Qed.

Lemma insert_item_perm x l : Permutation (insert_item x l) (x :: l).
Proof.
  induction l as [|y l IH]; cbn [insert_item]; [apply Permutation_refl|].
  destruct (str_lt (fst y) (fst x)); [|apply Permutation_refl].
  eapply perm_trans; [apply perm_skip, IH|apply perm_swap].
Qed.

Lemma sorted_items_perm l : Permutation (sorted_items l) l.
Proof.
  unfold sorted_items. induction l as [|x l IH]; cbn [fold_right];
    [constructor|].
  eapply perm_trans; [apply insert_item_perm|]. apply perm_skip. assumption.
Qed.

Lemma insert_item_sorted x l :
  Forall (fun y => fst x <> fst y) l ->
  by_ticker l -> by_ticker (insert_item x l).
Proof.
  unfold by_ticker. induction l as [|y l IH]; intros Hne Hs; cbn [insert_item].
  - constructor; constructor.
  - inversion Hne as [|? ? Hxy Hne']; subst.
    inversion Hs as [|? ? Hs' Hyl]; subst.
    destruct (str_lt (fst y) (fst x)) eqn:E.
    + constructor; [apply IH; assumption|].
      rewrite Forall_forall in *. intros z Hz.
      apply (Permutation_in _ (insert_item_perm x l)) in Hz.
      destruct Hz as [Hz|Hz]; [subst; assumption|apply Hyl; assumption].
    + assert (Hlt : str_lt (fst x) (fst y) = true).
      { destruct (str_lt (fst x) (fst y)) eqn:E'; [reflexivity|].
        exfalso. apply Hxy. apply str_lt_total; assumption. }
      constructor; [assumption|].
      constructor; [assumption|].
      rewrite Forall_forall in *. intros z Hz.
      apply (str_lt_trans _ _ _ Hlt). apply Hyl. assumption.
Qed.

Lemma sorted_items_sorted l : wf String.eqb l -> by_ticker (sorted_items l).
Proof.
  unfold wf, sorted_items, Dict.keys.
  induction l as [|x l IH]; intros Hwf; cbn [fold_right]; [constructor|].
  cbn [map] in Hwf. inversion Hwf as [|? ? Hx Hl]; subst.
  apply insert_item_sorted; [|apply IH; assumption].
  rewrite Forall_forall in *. intros y Hy E.
  apply (Permutation_in _ (sorted_items_perm l)) in Hy.
  specialize (Hx (fst y) (in_map fst _ _ Hy)).
  rewrite E, String.eqb_refl in Hx. discriminate.
Qed.

Lemma write_snapshots ticker snaps :
  Forall shown snaps ->
  forall out,
    Stmt.for_each snaps (write_snapshot ticker) out
    = (Ok tt, (out ++ map (line_of ticker) snaps)%list).
Proof.
  induction 1 as [|sn snaps Hsn _ IH]; intros out; cbn [Stmt.for_each map].
  - unfold Stmt.ret. rewrite app_nil_r. reflexivity.
  - unfold Stmt.bind at 1.
    destruct (make_row_shown ticker sn Hsn) as [rd [E [_ W]]].
    unfold write_snapshot at 1, Stmt.bind, Stmt.eval, write. rewrite E, W.
    rewrite IH, <- app_assoc. reflexivity.
Qed.

Lemma write_items items :
  all_shown items ->
  forall out,
    Stmt.for_each items
      (fun item => Stmt.for_each (snd item) (write_snapshot (fst item))) out
    = (Ok tt, (out ++ lines_of items)%list).
Proof.
  unfold all_shown, lines_of.
  induction 1 as [|item items Hi _ IH]; intros out;
    cbn [Stmt.for_each flat_map].
  - unfold Stmt.ret. rewrite app_nil_r. reflexivity.
  - unfold Stmt.bind at 1. rewrite (write_snapshots _ _ Hi).
    rewrite IH, <- app_assoc. reflexivity.
Qed.

Lemma write_level2_shown snapshots out :
  all_shown snapshots ->
  write_level2 snapshots out
  = (Ok tt, (out ++ header_line :: lines_of (sorted_items snapshots))%list).
Proof.
  intros H. unfold write_level2, Stmt.bind, write.
  rewrite write_items.
  - rewrite <- app_assoc. reflexivity.
  - unfold all_shown in *. rewrite Forall_forall in *. intros item Hi.
    apply H. apply (Permutation_in _ (sorted_items_perm snapshots)). assumption.
Qed.

(** X23.  The lines of the output.  When every stored snapshot is as the
    loop stores it, the writer raises nothing and writes the header and
    then one line per snapshot: the tickers in strictly increasing order of
    their code points, and under each ticker its snapshots in the order
    they were taken. *)
Theorem output_lines snapshots out :
  wf String.eqb snapshots -> all_shown snapshots ->
  exists items,
    Permutation items snapshots
    /\ by_ticker items
    /\ write_level2 snapshots out
       = (Ok tt, (out ++ header_line :: lines_of items)%list).
Proof.
  intros Hwf Hs. exists (sorted_items snapshots).
  split; [apply sorted_items_perm|].
  split; [apply sorted_items_sorted; assumption|].
  apply write_level2_shown. assumption.
Qed.

Lemma output_lines_witness :
  let zed := mkSnapshot (Some "1") [] [(Samples.ten, 5)] in
  let abc := mkSnapshot (Some "1") [(Samples.ten, 150)] [] in
  exists items,
    Permutation items [("ZED", [zed]); ("ABC", [abc; abc])]
    /\ by_ticker items
    /\ write_level2 [("ZED", [zed]); ("ABC", [abc; abc])] []
       = (Ok tt, header_line :: lines_of items).
Proof.
  intros zed abc.
  apply (output_lines [("ZED", [zed]); ("ABC", [abc; abc])] []).
  - repeat constructor.
  - repeat constructor.
Defined.

(** *** From the rows to the file *)

Lemma snapshot_of_shown ts book : good_book book -> shown (snapshot_of ts book).
Proof.
  intros [[Hb1 Hb2] [Ha1 Ha2]]. unfold shown, snapshot_of.
  cbn [bids asks]. repeat split.
  - apply levels_of_descending; assumption.
  - unfold Dict.keys. rewrite keys_levels_of. rewrite Forall_forall in *.
    intros p Hp. apply In_firstn in Hp.
    apply (Permutation_in _ (sorted_perm _ _)) in Hp. auto.
  - apply levels_of_ascending; assumption.
  - unfold Dict.keys. rewrite keys_levels_of. rewrite Forall_forall in *.
    intros p Hp. apply In_firstn in Hp.
    apply (Permutation_in _ (sorted_perm _ _)) in Hp. auto.
Qed.

Lemma all_shown_set d k v :
  all_shown d -> Forall shown v -> all_shown (Dict.set String.eqb d k v).
Proof.
  unfold all_shown. intros Hd Hv.
  induction d as [|[j w] d IH]; cbn [Dict.set].
  - constructor; [exact Hv|constructor].
  - inversion Hd as [|? ? Hw Hd']; subst.
    destruct (String.eqb j k); constructor; auto.
Qed.

Lemma all_shown_get d k :
  all_shown d -> Forall shown (Dict.get_default String.eqb d k []).
Proof.
  unfold all_shown, Dict.get_default. intros Hd.
  destruct (Dict.get String.eqb d k) as [v|] eqn:G; [|constructor].
  destruct (get_In _ _ _ _ G) as [j [Hin _]].
  rewrite Forall_forall in Hd. apply (Hd _ Hin).
Qed.

Lemma for_each_snapshots_shown ts l :
  (forall k book, In (k, book) l -> good_book book) ->
  forall s,
    wf String.eqb (snapshots_by_ticker s) ->
    all_shown (snapshots_by_ticker s) ->
    exists s',
      Stmt.for_each l (store_snapshot ts) s = (Ok tt, s')
      /\ wf String.eqb (snapshots_by_ticker s')
      /\ all_shown (snapshots_by_ticker s').
Proof.
  induction l as [|[k book] l IH]; intros Hgood s Hwf Hs.
  - exists s. cbn [Stmt.for_each]. unfold Stmt.ret. auto.
  - cbn [Stmt.for_each]. unfold Stmt.bind at 1.
    rewrite store_snapshot_ok by (apply (Hgood k); left; reflexivity).
    apply IH.
    + intros k' b H. apply (Hgood k'). right. assumption.
    + cbn [snapshots_by_ticker].
      apply wf_set. assumption.
    + cbn [snapshots_by_ticker]. apply all_shown_set; [assumption|].
      apply Forall_app. split; [apply all_shown_get; assumption|].
      constructor; [|constructor]. apply snapshot_of_shown.
      apply (Hgood k). left. reflexivity.
Qed.

Lemma process_row_snapshots r s :
  is_type r "T" = false ->
  snapshots_by_ticker (snd (process_row r s)) = snapshots_by_ticker s.
Proof.
  intros Ht. unfold process_row.
  change (cell_is (row_get r "message_type" None)) with (is_type r).
  rewrite Ht.
  destruct (is_type r "A").
  { destruct (add_order_state r s) as [H|[o [H _]]]; rewrite H; reflexivity. }
  destruct (is_type r "e"); [apply BookExtras.execute_order_snapshots|].
  destruct (is_type r "D"); [rewrite delete_order_eq; simpl|].
  { destruct (truthy (row_id r) && _)%bool; reflexivity. }
  destruct (is_type r "U"); [apply BookExtras.replace_order_snapshots|reflexivity].
Qed.

Lemma process_row_shown r s :
  no_nan (orders s) ->
  wf String.eqb (snapshots_by_ticker s) ->
  all_shown (snapshots_by_ticker s) ->
  wf String.eqb (snapshots_by_ticker (snd (process_row r s)))
  /\ all_shown (snapshots_by_ticker (snd (process_row r s))).
Proof.
  intros Hn Hwf Hs. destruct (is_type r "T") eqn:Ht.
  - unfold process_row.
    change (cell_is (row_get r "message_type" None)) with (is_type r).
    destruct (is_type r "A") eqn:TA.
    { unfold is_type in *. destruct (row_get r "message_type" None) as [m|];
        [|discriminate]. cbn [cell_is] in *.
      apply String.eqb_eq in Ht, TA. congruence. }
    destruct (is_type r "e") eqn:Te.
    { unfold is_type in *. destruct (row_get r "message_type" None) as [m|];
        [|discriminate]. cbn [cell_is] in *.
      apply String.eqb_eq in Ht, Te. congruence. }
    destruct (is_type r "D") eqn:TD.
    { unfold is_type in *. destruct (row_get r "message_type" None) as [m|];
        [|discriminate]. cbn [cell_is] in *.
      apply String.eqb_eq in Ht, TD. congruence. }
    destruct (is_type r "U") eqn:TU.
    { unfold is_type in *. destruct (row_get r "message_type" None) as [m|];
        [|discriminate]. cbn [cell_is] in *.
      apply String.eqb_eq in Ht, TU. congruence. }
    rewrite Ht. unfold snapshot_book, Stmt.bind, get_orders.
    destruct (for_each_snapshots_shown (row_get r "seconds" (Some "0"))
                (group_orders (orders s))) with (s := s)
      as [s' [E [Hwf' Hs']]]; try assumption.
    + intros k book Hin.
      apply (wf_In_get _ _ _ (group_orders_wf _)) in Hin.
      rewrite group_orders_get in Hin.
      destruct (existsb _ _); [|discriminate].
      inversion Hin; subst. apply good_side_levels. assumption.
    + rewrite E. split; assumption.
  - rewrite (process_row_snapshots r s Ht). split; assumption.
Qed.

Lemma process_rows_shown rows :
  Forall (fun r => row_ok r = true) rows ->
  forall s,
    no_nan (orders s) ->
    wf String.eqb (snapshots_by_ticker s) ->
    all_shown (snapshots_by_ticker s) ->
    fst (process_rows rows s) = Ok tt
    /\ wf String.eqb (snapshots_by_ticker (snd (process_rows rows s)))
    /\ all_shown (snapshots_by_ticker (snd (process_rows rows s))).
Proof.
  induction 1 as [|r rows Hr _ IH]; intros s Hn Hwf Hs.
  - cbn. auto.
  - unfold row_ok in Hr. apply andb_prop in Hr. destruct Hr as [Hp Hc].
    rewrite process_rows_cons.
    pose proof (BookExtras.process_row_result r s Hn) as Hres.
    pose proof (step_numbers r _ _ Hp Hn (process_row_step r s)) as Hn'.
    pose proof (process_row_shown r s Hn Hwf Hs) as [Hwf' Hs'].
    assert (C : (is_type r "A" && negb (has_symbol_and_side r))%bool = false).
    { destruct (is_type r "A"); simpl in *; [|reflexivity].
      rewrite Hc. reflexivity. }
    rewrite C in Hres.
    destruct (process_row r s) as [[u|e] s']; simpl in *; [|discriminate].
    apply IH; assumption.
Qed.

(** X24.  From the rows to the file.  An input whose Add rows all have
    their symbol and side cells and whose rows bring no NaN price is
    processed and written without an exception: the output holds the header
    and one line for every snapshot the loop stored, ticker by ticker in
    increasing order.  (When the loop raises, the output file is not even
    opened.) *)
Theorem run_writes_every_snapshot rows :
  Forall (fun r => row_ok r = true) rows ->
  exists items,
    Permutation items
      (snapshots_by_ticker (snd (OrderBook.build_level2_simple rows)))
    /\ by_ticker items
    /\ Writer.build_level2_simple rows
       = (Ok tt, Some (header_line :: lines_of items)).
Proof.
  intros Hok. unfold Writer.build_level2_simple.
  destruct (process_rows_shown rows Hok init) as [Hr [Hwf Hs]];
    try constructor.
  unfold OrderBook.build_level2_simple in *.
  destruct (process_rows rows init) as [[u|e] s]; cbn [fst snd] in *;
    [|discriminate].
  exists (sorted_items (snapshots_by_ticker s)).
  split; [apply sorted_items_perm|].
  split; [apply sorted_items_sorted; assumption|].
  rewrite (write_level2_shown _ [] Hs). reflexivity.
Qed.

Lemma run_writes_every_snapshot_witness :
  exists l1 l2,
    Writer.build_level2_simple
      (Samples.rows8 ++ [Samples.trigger "7"; Samples.delete "2";
                         Samples.trigger "8"])
    = (Ok tt, Some [header_line; l1; l2]).
Proof.
  destruct (run_writes_every_snapshot
              (Samples.rows8 ++ [Samples.trigger "7"; Samples.delete "2";
                                 Samples.trigger "8"]))
    as [items [P [_ R]]].
  - repeat constructor.
  - rewrite R. vm_compute in P.
    apply Permutation_sym in P. apply Permutation_length_1_inv in P.
    subst items. eexists. eexists. reflexivity.
Defined.

End WriterProps.

(* ================================================================= *)
(** ** Properties of the parser *)

Module ParserProps.
Import Py Decoders DecoderSpec DecoderMore Parser ParserSpec.
Import DictFacts DepthProps DecoderProps DecoderExtras.
Local Open Scope list_scope.

(** *** Reading one message *)

Lemma byte_val_of n : 0 <= n < 256 -> byte_val (byte_of n) = n.
Proof.
  intros H. unfold byte_val, byte_of.
  destruct (Byte.of_N (Z.to_N n)) as [b|] eqn:E.
  - apply Byte.to_of_N in E. rewrite E. lia.
  - apply Byte.of_N_None_iff in E. lia.
Qed.

Lemma unpack_length_word n :
  0 <= n < 65536 -> unpack_H (length_word n) = Ok n.
Proof.
  intros H. unfold unpack_H, length_word, from_bytes_big.
  cbn [List.length Nat.eqb fold_left].
  rewrite !byte_val_of.
  - f_equal. pose proof (Z.div_mod n 256). lia.
  - apply Z.mod_pos_bound. lia.
  - split; [apply Z.div_pos; lia|apply Z.div_lt_upper_bound; lia].
Qed.

Lemma firstn_len_app (p rest : bytes) :
  firstn (Z.to_nat (len p)) (p ++ rest) = p.
Proof.
  unfold len. rewrite Nat2Z.id, firstn_app, Nat.sub_diag, firstn_all.
  cbn [firstn]. apply app_nil_r.
Qed.

Lemma skipn_len_app (p rest : bytes) :
  skipn (Z.to_nat (len p)) (p ++ rest) = rest.
Proof.
  unfold len. rewrite Nat2Z.id, skipn_app, Nat.sub_diag, skipn_all.
  reflexivity.
Qed.

Lemma read_frame fuel p rest recs :
  sendable p ->
  read_messages (S fuel) (framed p ++ rest) recs
  = read_messages fuel rest (recs ++ [record_of p]).
Proof.
  intros Hp. unfold sendable in Hp. unfold framed.
  rewrite <- app_assoc. pose proof (unpack_length_word (len p)) as U.
  unfold length_word in *. cbn [read_messages app firstn skipn].
  rewrite U by lia. rewrite firstn_len_app, skipn_len_app.
  destruct p as [|b0 p']; [unfold len in Hp; cbn in Hp; lia|]. reflexivity.
Qed.

Lemma read_frames ps :
  Forall sendable ps ->
  forall fuel tail recs,
    read_messages (List.length ps + fuel) (List.concat (map framed ps) ++ tail) recs
    = read_messages fuel tail (recs ++ map record_of ps).
Proof.
  induction 1 as [|p ps Hp _ IH]; intros fuel tail recs; cbn [map List.concat].
  - rewrite app_nil_r. reflexivity.
  - cbn [List.length Nat.add]. rewrite <- app_assoc.
    rewrite (read_frame _ _ _ _ Hp), IH, <- app_assoc. reflexivity.
Qed.

Lemma frames_length ps :
  Forall sendable ps ->
  (3 * List.length ps <= List.length (List.concat (map framed ps)))%nat.
Proof.
  induction 1 as [|p ps Hp _ IH]; cbn [map List.concat List.length]; [lia|].
  unfold framed at 1. rewrite !length_app. unfold length_word.
  cbn [List.length]. unfold sendable, len in Hp. lia.
Qed.

(** Reading the frames of [ps] from the front of a file leaves the tail
    with fuel to spare. *)
Lemma parse_frames ps tail :
  Forall sendable ps ->
  exists fuel,
    (List.length tail < fuel)%nat
    /\ parse_itch (List.concat (map framed ps) ++ tail)
       = read_messages fuel tail (map record_of ps).
Proof.
  intros H. unfold parse_itch. rewrite length_app.
  pose proof (frames_length ps H) as L.
  exists (S (List.length (List.concat (map framed ps)) + List.length tail)
          - List.length ps)%nat.
  split; [lia|].
  replace (S (List.length (List.concat (map framed ps)) + List.length tail))
    with (List.length ps
          + (S (List.length (List.concat (map framed ps)) + List.length tail)
             - List.length ps))%nat at 1 by lia.
  rewrite (read_frames ps H). reflexivity.
Qed.

(** X25.  One record per message.  A file made of length-prefixed
    messages, each with a payload of 1 to 65535 bytes, gives the records of
    its payloads, in order.  A length word of zero ends the reading
    silently: whatever follows it in the file is never looked at. *)
Theorem parse_itch_reads_every_frame ps rest :
  Forall sendable ps ->
  parse_itch (List.concat (map framed ps)) = Some (Ok (map record_of ps))
  /\ parse_itch (List.concat (map framed ps) ++ length_word 0 ++ rest)
     = Some (Ok (map record_of ps)).
Proof.
  intros H. split.
  - destruct (parse_frames ps [] H) as [fuel [Hf E]].
    rewrite app_nil_r in E. rewrite E.
    destruct fuel; [cbn in Hf; lia|]. reflexivity.
  - destruct (parse_frames ps (length_word 0 ++ rest) H) as [fuel [Hf E]].
    rewrite E. destruct fuel; [cbn in Hf; lia|]. reflexivity.
Qed.

Lemma parse_itch_reads_every_frame_witness :
  parse_itch (framed (frame [84; 0; 0; 0; 7]%N)
              ++ framed (frame [90]%N) ++ frame [0; 0; 1; 2; 3]%N)
  = Some (Ok [record_of (frame [84; 0; 0; 0; 7]%N); record_of (frame [90]%N)]).
Proof.
  destruct (parse_itch_reads_every_frame
              [frame [84; 0; 0; 0; 7]%N; frame [90]%N] (frame [1; 2; 3]%N))
    as [_ H].
  - repeat constructor.
  - exact H.
Defined.

(** X26.  A file that ends one byte after a message boundary makes
    [parse_itch] raise [struct.error] from the unpacking of the length,
    which is outside the [try]: the records read so far are not
    returned. *)
Theorem parse_itch_dangling_byte ps b :
  Forall sendable ps ->
  parse_itch (List.concat (map framed ps) ++ [b]) = Some (Raise StructError).
Proof.
  intros H. destruct (parse_frames ps [b] H) as [fuel [Hf E]].
  rewrite E. destruct fuel; [cbn in Hf; lia|]. reflexivity.
Qed.

Lemma parse_itch_dangling_byte_witness :
  parse_itch (framed (frame [84; 0; 0; 0; 7]%N) ++ frame [0]%N)
  = Some (Raise StructError).
Proof.
  apply (parse_itch_dangling_byte [frame [84; 0; 0; 0; 7]%N] Byte.x00).
  repeat constructor.
Defined.

Ltac branches :=
  unfold by_type, seconds_timestamp, stock_directory, system_event,
    trading_status, reg_sho, symbol_only, add_order, order_executed_pse,
    order_executed, cancel_order, delete_order, replace_order, trade,
    cross_trade, broken_trade, noii.

Lemma parse_message_header b0 payload n :
  Dict.get String.eqb (parse_message b0 payload n) "message_type"
  = Some (VStr [Byte.to_N b0])
  /\ Dict.get String.eqb (parse_message b0 payload n) "raw_length"
     = Some (VInt n).
Proof.
  unfold parse_message. branches.
  repeat match goal with
         | |- context [if ?c then _ else _] => destruct c
         end;
    repeat match goal with
           | |- context [and_then ?o _] => destruct o; cbn [and_then]
           end;
    split; reflexivity.
Qed.

(** X27.  A last message cut short by the end of the file is still
    recorded: its record is built from the bytes that are there, and its
    [raw_length] is the length the file announced, not the number of bytes
    read. *)
Theorem parse_itch_short_last_message ps n b0 p :
  Forall sendable ps ->
  len (b0 :: p) < n < 65536 ->
  parse_itch (List.concat (map framed ps) ++ length_word n ++ b0 :: p)
  = Some (Ok (map record_of ps ++ [parse_message b0 (b0 :: p) n]))
  /\ Dict.get String.eqb (parse_message b0 (b0 :: p) n) "raw_length"
     = Some (VInt n).
Proof.
  intros H Hn. split; [|apply parse_message_header].
  destruct (parse_frames ps (length_word n ++ b0 :: p) H) as [fuel [Hf E]].
  rewrite E. clear E.
  pose proof (unpack_length_word n) as U. unfold length_word in *.
  cbn [app List.length] in Hf.
  destruct fuel as [|[|fuel]]; [lia|lia|].
  cbn [read_messages app firstn skipn]. rewrite U by (unfold len in Hn; lia).
  assert (L : (List.length (b0 :: p) <= Z.to_nat n)%nat)
    by (unfold len in Hn; lia).
  rewrite firstn_all2, skipn_all2 by exact L. reflexivity.
Qed.

Lemma parse_itch_short_last_message_witness :
  parse_itch (frame [0; 5; 84; 0; 0]%N)
  = Some (Ok [[("message_type", VStr (lit "T")); ("raw_length", VInt 5)]]).
Proof.
  destruct (parse_itch_short_last_message [] 5 Byte.x54 (frame [0; 0]%N))
    as [H _].
  - constructor.
  - vm_compute. split; reflexivity.
  - exact H.
Defined.

(** *** Termination *)

Lemma read_messages_returns fuel :
  forall f recs,
    (List.length f < fuel)%nat ->
    (exists records, read_messages fuel f recs = Some (Ok records))
    \/ read_messages fuel f recs = Some (Raise StructError).
Proof.
  induction fuel as [|fuel IH]; intros f recs Hf; [lia|].
  cbn [read_messages].
  destruct (firstn 2 f) as [|x l] eqn:E; [left; eexists; reflexivity|].
  unfold unpack_H.
  destruct (Nat.eqb (List.length (x :: l)) 2) eqn:L;
    [|right; reflexivity].
  apply Nat.eqb_eq in L. rewrite <- E in L. rewrite length_firstn in L.
  destruct (firstn _ (skipn 2 f)) as [|b0 rest];
    [left; eexists; reflexivity|].
  apply IH. rewrite !length_skipn. lia.
Qed.

(** X28.  [parse_itch] comes to an end on every file: it returns its
    records, or raises [struct.error]; no other exception leaves it. *)
Theorem parse_itch_returns f :
  (exists records, parse_itch f = Some (Ok records))
  \/ parse_itch f = Some (Raise StructError).
Proof.
  unfold parse_itch. apply read_messages_returns. lia.
Qed.

(** *** Which messages fail *)

Lemma unpack_ok (p : bytes) lo hi size :
  hi = (lo + size)%nat -> Z.of_nat hi <= len p ->
  unpack_uint size (slice p lo hi) = Done (from_bytes_big (slice p lo hi)).
Proof.
  intros E H. unfold unpack_uint. rewrite length_slice by lia.
  replace (hi - lo)%nat with size by lia. rewrite Nat.eqb_refl. reflexivity.
Qed.

Lemma chr_at_ok (p : bytes) i :
  Z.of_nat (S i) <= len p ->
  chr_at p i = Done [Byte.to_N (nth i p Byte.x00)].
Proof.
  intros H. unfold chr_at.
  assert (L : (i < List.length p)%nat) by (unfold len in H; lia).
  rewrite (nth_error_nth' p Byte.x00 L). reflexivity.
Qed.

Lemma get_assign rec kvs k :
  ~ In k (map fst kvs) ->
  Dict.get String.eqb (assign rec kvs) k = Dict.get String.eqb rec k.
Proof.
  unfold assign. revert rec.
  induction kvs as [|[j v] kvs IH]; intros rec Hk; cbn [fold_left];
    [reflexivity|].
  cbn [map fst In] in Hk. rewrite IH by tauto.
  unfold setitem. rewrite get_set_str. cbn [fst snd].
  destruct (String.eqb j k) eqn:E; [|reflexivity].
  apply String.eqb_eq in E. tauto.
Qed.

Ltac branch_done p :=
  match goal with
  | |- context [?g <=? len p] =>
      destruct (Z.leb_spec g (len p));
      [ repeat (first [ rewrite unpack_ok by (first [reflexivity|lia])
                      | rewrite chr_at_ok by lia ];
                cbn [and_then]);
        cbn [and_then];
        eexists; split; [reflexivity|];
        cbn [map fst In]; intros F;
        repeat (destruct F as [F|F]; [discriminate F|]); exact F
      | exists []; split; [reflexivity|]; intros [] ]
  end.

Lemma by_type_done t p rec :
  t <> 80%N \/ len p < 43 \/ 47 <= len p ->
  exists kvs,
    by_type t p rec = Done (assign rec kvs) /\ ~ In "error" (map fst kvs).
Proof.
  intros H. unfold by_type.
  destruct (t =? 84)%N;
    [unfold seconds_timestamp; branch_done p|].
  destruct (t =? 82)%N; [unfold stock_directory; branch_done p|].
  destruct (t =? 83)%N; [unfold system_event; branch_done p|].
  destruct (t =? 72)%N; [unfold trading_status; branch_done p|].
  destruct (t =? 89)%N; [unfold reg_sho; branch_done p|].
  destruct (t =? 76)%N; [unfold symbol_only; branch_done p|].
  destruct (t =? 86)%N; [unfold symbol_only; branch_done p|].
  destruct (t =? 87)%N; [unfold symbol_only; branch_done p|].
  destruct (t =? 65)%N; [unfold add_order; branch_done p|].
  destruct (t =? 101)%N; [unfold order_executed_pse; branch_done p|].
  destruct (t =? 69)%N; [unfold order_executed; branch_done p|].
  destruct (t =? 67)%N; [unfold order_executed; branch_done p|].
  destruct (t =? 88)%N; [unfold cancel_order; branch_done p|].
  destruct (t =? 68)%N; [unfold delete_order; branch_done p|].
  destruct (t =? 85)%N; [unfold replace_order; branch_done p|].
  destruct (t =? 80)%N eqn:E.
  { apply N.eqb_eq in E. unfold trade.
    destruct H as [H|H]; [contradiction|].
    destruct (Z.leb_spec 43 (len p));
      [|exists []; split; [reflexivity|]; intros []].
    repeat (rewrite unpack_ok by (first [reflexivity|lia]); cbn [and_then]).
    eexists; split; [reflexivity|].
    cbn [map fst In]; intros F;
      repeat (destruct F as [F|F]; [discriminate F|]); exact F. }
  destruct (t =? 81)%N; [unfold cross_trade; branch_done p|].
  destruct (t =? 66)%N; [unfold broken_trade; branch_done p|].
  exists []. split; [reflexivity|]. intros [].
Qed.

Lemma by_type_short_trade p rec :
  43 <= len p < 47 ->
  by_type 80 p rec = Failed (lit "unpack requires a buffer of 8 bytes").
Proof.
  intros H. unfold by_type. cbn [N.eqb Pos.eqb]. unfold trade.
  destruct (Z.leb_spec 43 (len p)); [|lia].
  repeat (rewrite unpack_ok by (first [reflexivity|lia]); cbn [and_then]).
  unfold unpack_uint. unfold slice at 1. rewrite length_firstn, length_skipn.
  destruct (Nat.eqb_spec (Nat.min (47 - 39) (List.length p - 39)) 8) as [E|E];
    [unfold len in H; lia|]. reflexivity.
Qed.

(** X29.  The [except] of line 210 is reached by one kind of message only:
    a Trade (P) of 43 to 46 bytes, whose guard lets it in although the
    buyer's identifier needs 47.  Its record has an [error] entry and none
    of the fields; no other message has an [error] entry. *)
Theorem only_short_trades_fail b0 rest n :
  Dict.mem String.eqb (parse_message b0 (b0 :: rest) n) "error" = true
  <-> Byte.to_N b0 = 80%N /\ 43 <= len (b0 :: rest) < 47.
Proof.
  unfold parse_message, Dict.mem. split.
  - intros H.
    destruct (N.eq_dec (Byte.to_N b0) 80) as [E|E].
    + split; [assumption|].
      destruct (Z.lt_ge_cases (len (b0 :: rest)) 43) as [L|L];
        [|destruct (Z.lt_ge_cases (len (b0 :: rest)) 47) as [L'|L'];
          [lia|]];
        exfalso;
        match type of H with
        | context [by_type ?t ?p ?r] =>
            destruct (by_type_done t p r) as [kvs [D K]]; [lia|];
            rewrite D, (get_assign _ _ _ K) in H
        end; discriminate H.
    + exfalso.
      match type of H with
      | context [by_type ?t ?p ?r] =>
          destruct (by_type_done t p r) as [kvs [D K]]; [tauto|];
          rewrite D, (get_assign _ _ _ K) in H
      end. discriminate H.
  - intros [E H]. rewrite E, by_type_short_trade by assumption. reflexivity.
Qed.

Lemma only_short_trades_fail_witness :
  Dict.mem String.eqb
    (parse_message Byte.x50 (Byte.x50 :: repeat Byte.x00 42) 43) "error"
  = true.
Proof.
  apply (proj2 (only_short_trades_fail Byte.x50 (repeat Byte.x00 42) 43)).
  vm_compute. repeat split; discriminate.
Defined.

(** *** The two decoders of an Add Order *)

Lemma decode_add_order (p : bytes) :
  30 <= len p ->
  parse_message_type_a p
  = Ok (assign (header "A" "Add Order" 30)
          [("msg_type_byte", VBytes (slice p 0 1));
           ("timestamp", VInt (from_bytes_big (slice p 1 5)));
           ("order_id", VInt (from_bytes_big (slice p 5 13)));
           ("symbol", VStr (decode_replace (rstrip_pad (slice p 13 21))));
           ("quantity", VInt (from_bytes_big (slice p 21 25)));
           ("price", decode_price (slice p 25 29) 2);
           ("side", decode_side (slice p 29 30))]).
Proof.
  intros H. unfold parse_message_type_a. cbn [Py.bind].
  repeat (first [ rewrite when_ge_pure
                | rewrite (when_ge_unpack _ 21 25) by reflexivity ];
          cbn [Py.bind]).
  rewrite !leb_len_true by lia.
  rewrite (decode_timestamp_slice p 1 5) by (first [reflexivity|lia]).
  reflexivity.
Qed.

Lemma parse_add_order (p : bytes) n :
  30 <= len p ->
  parse_message Byte.x41 p n
  = assign [("message_type", VStr (lit "A")); ("raw_length", VInt n)]
      [("timestamp", VInt (from_bytes_big (slice p 1 5)));
       ("order_id", VInt (from_bytes_big (slice p 5 13)));
       ("symbol", VStr (field p 13 21));
       ("quantity", VInt (from_bytes_big (slice p 21 25)));
       ("price", VFloat (true_div (from_bytes_big (slice p 25 29)) 100));
       ("side", VStr [Byte.to_N (nth 29 p Byte.x00)]);
       ("description",
        VStr (lit "Add Order: " ++ field p 13 21 ++ lit " "
              ++ str (from_bytes_big (slice p 21 25)) ++ lit "@"
              ++ fmt2 (true_div (from_bytes_big (slice p 25 29)) 100)
              ++ lit " " ++ [Byte.to_N (nth 29 p Byte.x00)]))].
Proof.
  intros H. unfold parse_message.
  change (Byte.to_N Byte.x41) with 65%N. unfold by_type.
  cbn [N.eqb Pos.eqb]. unfold add_order.
  destruct (Z.leb_spec 30 (len p)); [|lia].
  repeat (first [ rewrite unpack_ok by (first [reflexivity|lia])
                | rewrite chr_at_ok by lia ];
          cbn [and_then]).
  reflexivity.
Qed.

(** X30.  The two decoders of the repository on the same Add Order of at
    least 30 bytes: [decode_message] and [parse_itch] give the same
    timestamp, order identifier and quantity, but not always the same
    price.  One reads the price field as signed, the other as unsigned, so
    the prices are equal exactly when the top bit of the field is
    clear. *)
Theorem add_order_decoders_agree rest n :
  30 <= len (Byte.x41 :: rest) ->
  exists rec u,
    decode_message (Byte.x41 :: rest) = Ok rec
    /\ 0 <= u < 2 ^ 32
    /\ (forall k, In k ["timestamp"; "order_id"; "quantity"] ->
          Dict.get String.eqb rec k
          = Dict.get String.eqb
              (parse_message Byte.x41 (Byte.x41 :: rest) n) k)
    /\ Dict.get String.eqb (parse_message Byte.x41 (Byte.x41 :: rest) n)
         "price"
       = Some (VFloat (true_div u 100))
    /\ Dict.get String.eqb rec "price"
       = Some (VFloat (true_div (if u <? 2 ^ 31 then u else u - 2 ^ 32) 100))
    /\ (Dict.get String.eqb rec "price"
        = Dict.get String.eqb
            (parse_message Byte.x41 (Byte.x41 :: rest) n) "price"
        <-> u < 2 ^ 31).
Proof.
  intros H. set (p := Byte.x41 :: rest) in *.
  exists (assign (header "A" "Add Order" 30)
            [("msg_type_byte", VBytes (slice p 0 1));
             ("timestamp", VInt (from_bytes_big (slice p 1 5)));
             ("order_id", VInt (from_bytes_big (slice p 5 13)));
             ("symbol", VStr (decode_replace (rstrip_pad (slice p 13 21))));
             ("quantity", VInt (from_bytes_big (slice p 21 25)));
             ("price", decode_price (slice p 25 29) 2);
             ("side", decode_side (slice p 29 30))]).
  exists (from_bytes_big (slice p 25 29)).
  set (u := from_bytes_big (slice p 25 29)).
  assert (Hu : 0 <= u < 2 ^ 32).
  { pose proof (from_bytes_slice_range p 25 29) as R.
    change (256 ^ Z.of_nat (29 - 25)) with (2 ^ 32) in R. apply R; lia. }
  assert (P : decode_price (slice p 25 29) 2
              = VFloat (true_div (if u <? 2 ^ 31 then u else u - 2 ^ 32) 100)).
  { destruct (decode_price_slice p 25 29 2) as [c [U E]];
      [reflexivity|lia|].
    rewrite E. unfold unpack_i in U. rewrite length_slice in U by lia.
    cbn [Nat.sub Nat.eqb] in U. inversion U. reflexivity. }
  split.
  { unfold decode_message. subst p.
    change (Dict.get text_eqb decoders (type_tag Byte.x41))
      with (Some parse_message_type_a).
    apply decode_add_order. exact H. }
  split; [exact Hu|].
  rewrite (parse_add_order p n H).
  split.
  { intros k Hk. cbn [In] in Hk.
    destruct Hk as [Hk|[Hk|[Hk|[]]]]; subst k; reflexivity. }
  split; [reflexivity|].
  assert (G : Dict.get String.eqb
                (assign (header "A" "Add Order" 30)
                   [("msg_type_byte", VBytes (slice p 0 1));
                    ("timestamp", VInt (from_bytes_big (slice p 1 5)));
                    ("order_id", VInt (from_bytes_big (slice p 5 13)));
                    ("symbol",
                     VStr (decode_replace (rstrip_pad (slice p 13 21))));
                    ("quantity", VInt (from_bytes_big (slice p 21 25)));
                    ("price", decode_price (slice p 25 29) 2);
                    ("side", decode_side (slice p 29 30))]) "price"
              = Some (decode_price (slice p 25 29) 2)) by reflexivity.
  rewrite G, P.
  split; [reflexivity|].
  change (Dict.get String.eqb _ "price")
    with (Some (VFloat (true_div u 100))).
  change (2 ^ 31) with 2147483648 in *. change (2 ^ 32) with 4294967296 in *.
  destruct (Z.ltb_spec u 2147483648) as [L|L].
  - split; [intros _; exact L|reflexivity].
  - split; [|lia]. intros E. exfalso. inversion E as [E'].
    apply (f_equal negative) in E'. rewrite !true_div_sign in E'.
    destruct (Z.ltb_spec (u - 4294967296) 0), (Z.ltb_spec u 0);
      try discriminate; lia.
Qed.

(** An order at 21474836.48, the least price with the top bit set. *)
Lemma add_order_decoders_agree_witness :
  exists rec,
    decode_message
      (frame [65; 0; 0; 0; 7; 0; 0; 0; 0; 0; 0; 0; 1; 65; 66; 67; 32; 32; 32;
              32; 32; 0; 0; 0; 100; 128; 0; 0; 0; 66]%N) = Ok rec
    /\ Dict.get String.eqb rec "quantity" = Some (VInt 100).
Proof.
  destruct (add_order_decoders_agree
              (frame [0; 0; 0; 7; 0; 0; 0; 0; 0; 0; 0; 1; 65; 66; 67; 32; 32;
                      32; 32; 32; 0; 0; 0; 100; 128; 0; 0; 0; 66]%N) 30)
    as [rec [u [D [_ [A _]]]]].
  - vm_compute. discriminate.
  - exists rec. split; [exact D|].
    rewrite (A "quantity") by (simpl; tauto). vm_compute. reflexivity.
Defined.

End ParserProps.
